(** * GSClut: the palette (CLUT) cache of the GS emulation

    A shallow embedding of [pcsx2/GS/GSClut.cpp]: the reload decision
    ([WriteTest], [WriteState::IsDirty]), the load routines ([Write] and the
    [WriteCLUT*] family), the expansion path ([Read32], [ReadCLUT_T32_*],
    [Expand16]) and the invalidation entry points, followed by the properties
    of the palette subsystem proved about them.

    The reduction of the expanded palette to its alpha range
    ([GetAlphaMinMax32]) and the hat decoding of
    [pcsx2/Frontend/DInputSource.cpp] ([GetHatButtons]) are embedded as well.

    Integers are [Z] with the wrap-around of the source written out, SSE
    vectors are records of eight 16-bit lanes, the buffers are lists updated by
    index, and the object state is a record threaded through every method. *)

From Stdlib Require Import ZArith Lia List Bool Finite.
From stdpp Require Import base list.
Import ListNotations.
Local Open Scope Z_scope.

(** ** Machine integers *)

Definition lo16 (x : Z) : Z := Z.land x 65535.
Definition hi16 (x : Z) : Z := Z.land (Z.shiftr x 16) 65535.
(** The 32-bit word whose low half is [lo] and whose high half is [hi]. *)
Definition merge16 (lo hi : Z) : Z := Z.lor lo (Z.shiftl hi 16).
(** The 64-bit word made of two 32-bit words. *)
Definition merge32 (lo hi : Z) : Z := Z.lor lo (Z.shiftl hi 32).
Definition wrap32 (x : Z) : Z := Z.land x 4294967295.
(** The bytes of a 16-bit lane, and the lane made of two bytes. *)
Definition lo8 (x : Z) : Z := Z.land x 255.
Definition hi8 (x : Z) : Z := Z.land (Z.shiftr x 8) 255.
Definition merge8 (lo hi : Z) : Z := Z.lor lo (Z.shiftl hi 8).
(** A 16-bit and a 32-bit lane read as a signed number. *)
Definition signed16 (x : Z) : Z := if Z.testbit x 15 then x - 65536 else x.
Definition signed32 (x : Z) : Z := if Z.testbit x 31 then x - 4294967296 else x.

(** [bits x pos len]: the bit-field of [len] bits at bit [pos] of [x]. *)
Definition bits (x pos len : Z) : Z := Z.land (Z.shiftr x pos) (Z.ones len).

(** ** Buffers

    A [u16*], [u32*] or [u64*] buffer is the list of its elements; a pointer
    into it is the list together with an element offset.  The source reads and
    writes through raw pointers; a read past the end of the list gives 0 and a
    write past the end is dropped (the source has no such access on the
    buffers it allocates, see [CLUT_ALLOC_SIZE]). *)

Definition rd (p : list Z) (i : nat) : Z := default 0 (p !! i).

(** ** GSVector4i: a 128-bit SSE register, as eight unsigned 16-bit lanes

    Modelled from the spec: the vector class [GSVector4i] (GSVector4i.h, not
    under src/), whose "exact per-lane semantics" the spec asks to preserve.
    Every operation is the SSE instruction the class wraps.  Lane 0 is the
    lowest.  The 32-bit lane [j] is the pair of 16-bit lanes [2j] (low half)
    and [2j+1] (high half). *)

Module GSVector4i.

Record t : Type := V { u0 : Z; u1 : Z; u2 : Z; u3 : Z; u4 : Z; u5 : Z; u6 : Z; u7 : Z }.

Definition zero : t := V 0 0 0 0 0 0 0 0.

(** [GSVector4i(int)] and [cxpr(int)]: the 32-bit value in all four lanes. *)
Definition splat32 (x : Z) : t :=
  V (lo16 x) (hi16 x) (lo16 x) (hi16 x) (lo16 x) (hi16 x) (lo16 x) (hi16 x).

Definition u16s (v : t) : list Z := [u0 v; u1 v; u2 v; u3 v; u4 v; u5 v; u6 v; u7 v].
Definition u32s (v : t) : list Z :=
  [merge16 (u0 v) (u1 v); merge16 (u2 v) (u3 v); merge16 (u4 v) (u5 v); merge16 (u6 v) (u7 v)].
Definition u64s (v : t) : list Z :=
  [merge32 (merge16 (u0 v) (u1 v)) (merge16 (u2 v) (u3 v));
   merge32 (merge16 (u4 v) (u5 v)) (merge16 (u6 v) (u7 v))].

(** [((GSVector4i* )p)[k]] for [p] a [u16*] at element offset [b]. *)
Definition load16 (p : list Z) (b k : nat) : t :=
  let a := (b + 8 * k)%nat in
  V (rd p a) (rd p (a + 1)) (rd p (a + 2)) (rd p (a + 3))
    (rd p (a + 4)) (rd p (a + 5)) (rd p (a + 6)) (rd p (a + 7)).
Definition store16 (p : list Z) (b k : nat) (v : t) : list Z :=
  list_inserts (b + 8 * k) (u16s v) p.

(** The same for a [u32*]: four elements per vector, little endian. *)
Definition load32 (p : list Z) (b k : nat) : t :=
  let a := (b + 4 * k)%nat in
  V (lo16 (rd p a)) (hi16 (rd p a)) (lo16 (rd p (a + 1))) (hi16 (rd p (a + 1)))
    (lo16 (rd p (a + 2))) (hi16 (rd p (a + 2))) (lo16 (rd p (a + 3))) (hi16 (rd p (a + 3))).
Definition store32 (p : list Z) (b k : nat) (v : t) : list Z :=
  list_inserts (b + 4 * k) (u32s v) p.

(** And for a [u64*]: two elements per vector. *)
Definition store64 (p : list Z) (b k : nat) (v : t) : list Z :=
  list_inserts (b + 2 * k) (u64s v) p.

(** [_mm_unpacklo_epi16], [_mm_unpackhi_epi16] and the 32-bit forms. *)
Definition upl16 (a b : t) : t := V (u0 a) (u0 b) (u1 a) (u1 b) (u2 a) (u2 b) (u3 a) (u3 b).
Definition uph16 (a b : t) : t := V (u4 a) (u4 b) (u5 a) (u5 b) (u6 a) (u6 b) (u7 a) (u7 b).
Definition upl32 (a b : t) : t := V (u0 a) (u1 a) (u0 b) (u1 b) (u2 a) (u3 a) (u2 b) (u3 b).
Definition uph32 (a b : t) : t := V (u4 a) (u5 a) (u4 b) (u5 b) (u6 a) (u7 a) (u6 b) (u7 b).

(** [sw16(a, b, c, d)] and [sw32(a, b, c, d)] update their four arguments in
    place; here they return the four new values in argument order. *)
Definition sw16 (a b c d : t) : t * t * t * t :=
  let e := a in let f := c in
  (upl16 e b, upl16 f d, uph16 e b, uph16 f d).
Definition sw32 (a b c d : t) : t * t * t * t :=
  let e := a in let f := c in
  (upl32 e b, upl32 f d, uph32 e b, uph32 f d).

(** The shuffles that broadcast one 32-bit lane. *)
Definition xxxx (a : t) : t := V (u0 a) (u1 a) (u0 a) (u1 a) (u0 a) (u1 a) (u0 a) (u1 a).
Definition yyyy (a : t) : t := V (u2 a) (u3 a) (u2 a) (u3 a) (u2 a) (u3 a) (u2 a) (u3 a).
Definition zzzz (a : t) : t := V (u4 a) (u5 a) (u4 a) (u5 a) (u4 a) (u5 a) (u4 a) (u5 a).
Definition wwww (a : t) : t := V (u6 a) (u7 a) (u6 a) (u7 a) (u6 a) (u7 a) (u6 a) (u7 a).

(** Lane-wise combinators. *)
Definition map16 (f : Z -> Z) (a : t) : t :=
  V (f (u0 a)) (f (u1 a)) (f (u2 a)) (f (u3 a)) (f (u4 a)) (f (u5 a)) (f (u6 a)) (f (u7 a)).
Definition zip16 (f : Z -> Z -> Z) (a b : t) : t :=
  V (f (u0 a) (u0 b)) (f (u1 a) (u1 b)) (f (u2 a) (u2 b)) (f (u3 a) (u3 b))
    (f (u4 a) (u4 b)) (f (u5 a) (u5 b)) (f (u6 a) (u6 b)) (f (u7 a) (u7 b)).
Definition map32 (f : Z -> Z) (a : t) : t :=
  let x := f (merge16 (u0 a) (u1 a)) in let y := f (merge16 (u2 a) (u3 a)) in
  let z := f (merge16 (u4 a) (u5 a)) in let w := f (merge16 (u6 a) (u7 a)) in
  V (lo16 x) (hi16 x) (lo16 y) (hi16 y) (lo16 z) (hi16 z) (lo16 w) (hi16 w).
Definition zip32 (f : Z -> Z -> Z) (a b : t) : t :=
  let x := f (merge16 (u0 a) (u1 a)) (merge16 (u0 b) (u1 b)) in
  let y := f (merge16 (u2 a) (u3 a)) (merge16 (u2 b) (u3 b)) in
  let z := f (merge16 (u4 a) (u5 a)) (merge16 (u4 b) (u5 b)) in
  let w := f (merge16 (u6 a) (u7 a)) (merge16 (u6 b) (u7 b)) in
  V (lo16 x) (hi16 x) (lo16 y) (hi16 y) (lo16 z) (hi16 z) (lo16 w) (hi16 w).

(** [operator &], [operator |]: bitwise, so lane-wise at any width. *)
Definition and (a b : t) : t := zip16 Z.land a b.
Definition or (a b : t) : t := zip16 Z.lor a b.
(** [a.andnot(b)] is [_mm_andnot_si128(b, a)]: the bits of [a] not in [b]. *)
Definition andnot (a b : t) : t := zip16 Z.ldiff a b.
(** [operator <<] is [sll32]: each 32-bit lane shifted left, high bits lost. *)
Definition sll32 (a : t) (n : Z) : t := map32 (fun x => wrap32 (Z.shiftl x n)) a.
(** [sra16(n)]: each 16-bit lane shifted right arithmetically. *)
Definition sra16 (a : t) (n : Z) : t :=
  map16 (fun x => lo16 (Z.shiftr (if Z.testbit x 15 then x - 65536 else x) n)) a.
(** [operator ==] is [_mm_cmpeq_epi32]: all ones in each equal 32-bit lane. *)
Definition eq32 (a b : t) : t := zip32 (fun x y => if Z.eqb x y then 4294967295 else 0) a b.
(** [a.blend8(b, mask)] is [_mm_blendv_epi8(a, b, mask)]: every byte comes
    from [b] where the top bit of the mask's byte is set, else from [a]. *)
Definition blend8_lane (a b m : Z) : Z :=
  Z.lor (Z.land (if Z.testbit m 7 then b else a) 255)
        (Z.land (if Z.testbit m 15 then b else a) 65280).
Definition blend8 (a b mask : t) : t :=
  V (blend8_lane (u0 a) (u0 b) (u0 mask)) (blend8_lane (u1 a) (u1 b) (u1 mask))
    (blend8_lane (u2 a) (u2 b) (u2 mask)) (blend8_lane (u3 a) (u3 b) (u3 mask))
    (blend8_lane (u4 a) (u4 b) (u4 mask)) (blend8_lane (u5 a) (u5 b) (u5 mask))
    (blend8_lane (u6 a) (u6 b) (u6 mask)) (blend8_lane (u7 a) (u7 b) (u7 mask)).

(** The operations of the alpha range reduction.  The sixteen bytes of a
    vector, lowest first. *)
Definition u8s (v : t) : list Z :=
  [lo8 (u0 v); hi8 (u0 v); lo8 (u1 v); hi8 (u1 v); lo8 (u2 v); hi8 (u2 v);
   lo8 (u3 v); hi8 (u3 v); lo8 (u4 v); hi8 (u4 v); lo8 (u5 v); hi8 (u5 v);
   lo8 (u6 v); hi8 (u6 v); lo8 (u7 v); hi8 (u7 v)].
Definition zip8 (f : Z -> Z -> Z) (a b : t) : t :=
  let g x y := merge8 (f (lo8 x) (lo8 y)) (f (hi8 x) (hi8 y)) in
  zip16 g a b.
(** [xffffffff()]: all bits set. *)
Definition xffffffff : t := V 65535 65535 65535 65535 65535 65535 65535 65535.
(** [operator >>] is [srl32]: each 32-bit lane shifted right, zeros coming in. *)
Definition srl32 (a : t) (n : Z) : t := map32 (fun x => Z.shiftr x n) a.
(** [a.ps32(b)] is [_mm_packs_epi32(a, b)]: the eight signed 32-bit lanes of
    [a] and [b], saturated to signed 16 bits. *)
Definition ps32 (a b : t) : t :=
  let sat x := lo16 (Z.max (-32768) (Z.min 32767 (signed32 x))) in
  V (sat (merge16 (u0 a) (u1 a))) (sat (merge16 (u2 a) (u3 a)))
    (sat (merge16 (u4 a) (u5 a))) (sat (merge16 (u6 a) (u7 a)))
    (sat (merge16 (u0 b) (u1 b))) (sat (merge16 (u2 b) (u3 b)))
    (sat (merge16 (u4 b) (u5 b))) (sat (merge16 (u6 b) (u7 b))).
(** [a.pu16(b)] is [_mm_packus_epi16(a, b)]: the sixteen signed 16-bit lanes
    of [a] and [b], saturated to unsigned bytes. *)
Definition pu16 (a b : t) : t :=
  let sat x := Z.max 0 (Z.min 255 (signed16 x)) in
  V (merge8 (sat (u0 a)) (sat (u1 a))) (merge8 (sat (u2 a)) (sat (u3 a)))
    (merge8 (sat (u4 a)) (sat (u5 a))) (merge8 (sat (u6 a)) (sat (u7 a)))
    (merge8 (sat (u0 b)) (sat (u1 b))) (merge8 (sat (u2 b)) (sat (u3 b)))
    (merge8 (sat (u4 b)) (sat (u5 b))) (merge8 (sat (u6 b)) (sat (u7 b))).
(** [_mm_min_epu8] and [_mm_max_epu8]: byte-wise, unsigned. *)
Definition min_u8 (a b : t) : t := zip8 Z.min a b.
Definition max_u8 (a b : t) : t := zip8 Z.max a b.
(** [_mm_min_epi16] and [_mm_max_epi16]: lane-wise, signed. *)
Definition min_i16 (a b : t) : t :=
  zip16 (fun x y => if signed16 x <=? signed16 y then x else y) a b.
Definition max_i16 (a b : t) : t :=
  zip16 (fun x y => if signed16 x <=? signed16 y then y else x) a b.
(** The shuffles [zwxy] and [yxwz] of the 32-bit lanes, and [zwxyl] and
    [yxwzl] of the four low 16-bit lanes ([_mm_shufflelo_epi16]). *)
Definition zwxy (a : t) : t := V (u4 a) (u5 a) (u6 a) (u7 a) (u0 a) (u1 a) (u2 a) (u3 a).
Definition yxwz (a : t) : t := V (u2 a) (u3 a) (u0 a) (u1 a) (u6 a) (u7 a) (u4 a) (u5 a).
Definition zwxyl (a : t) : t := V (u2 a) (u3 a) (u0 a) (u1 a) (u4 a) (u5 a) (u6 a) (u7 a).
Definition yxwzl (a : t) : t := V (u1 a) (u0 a) (u3 a) (u2 a) (u4 a) (u5 a) (u6 a) (u7 a).
(** [a.upl8(b)] is [_mm_unpacklo_epi8(a, b)]: the low eight bytes of [a] and
    [b], interleaved. *)
Definition upl8 (a b : t) : t :=
  V (merge8 (lo8 (u0 a)) (lo8 (u0 b))) (merge8 (hi8 (u0 a)) (hi8 (u0 b)))
    (merge8 (lo8 (u1 a)) (lo8 (u1 b))) (merge8 (hi8 (u1 a)) (hi8 (u1 b)))
    (merge8 (lo8 (u2 a)) (lo8 (u2 b))) (merge8 (hi8 (u2 a)) (hi8 (u2 b)))
    (merge8 (lo8 (u3 a)) (lo8 (u3 b))) (merge8 (hi8 (u3 a)) (hi8 (u3 b))).
(** [u8to16()] is [_mm_cvtepu8_epi16]: the low eight bytes, each widened to a
    16-bit lane. *)
Definition u8to16 (a : t) : t :=
  V (lo8 (u0 a)) (hi8 (u0 a)) (lo8 (u1 a)) (hi8 (u1 a))
    (lo8 (u2 a)) (hi8 (u2 a)) (lo8 (u3 a)) (hi8 (u3 a)).
(** [extract16<i>()] is [_mm_extract_epi16]: lane [i], zero-extended. *)
Definition extract16 (i : nat) (a : t) : Z := nth i (u16s a) 0.

End GSVector4i.

(** ** GSVector8i: a 256-bit AVX2 register, as two 128-bit halves

    Modelled from the spec: the vector class [GSVector8i] (GSVector8i.h, not
    under src/).  The unpack instructions of AVX2 work in each 128-bit half on
    its own; [acbd] reorders the four 64-bit lanes a, b, c, d. *)

Module GSVector8i.

Record t : Type := V { lo : GSVector4i.t; hi : GSVector4i.t }.

(** [((GSVector8i* )p)[k]] for [p] a [u32*]: eight elements per vector. *)
Definition load32 (p : list Z) (b k : nat) : t :=
  V (GSVector4i.load32 p b (2 * k)) (GSVector4i.load32 p b (2 * k + 1)).
(** The store through a [u16*]: sixteen elements per vector. *)
Definition store16 (p : list Z) (b k : nat) (v : t) : list Z :=
  list_inserts (b + 16 * k) (GSVector4i.u16s (lo v) ++ GSVector4i.u16s (hi v)) p.

Definition acbd (v : t) : t :=
  V (GSVector4i.V (GSVector4i.u0 (lo v)) (GSVector4i.u1 (lo v))
                  (GSVector4i.u2 (lo v)) (GSVector4i.u3 (lo v))
                  (GSVector4i.u0 (hi v)) (GSVector4i.u1 (hi v))
                  (GSVector4i.u2 (hi v)) (GSVector4i.u3 (hi v)))
    (GSVector4i.V (GSVector4i.u4 (lo v)) (GSVector4i.u5 (lo v))
                  (GSVector4i.u6 (lo v)) (GSVector4i.u7 (lo v))
                  (GSVector4i.u4 (hi v)) (GSVector4i.u5 (hi v))
                  (GSVector4i.u6 (hi v)) (GSVector4i.u7 (hi v))).

Definition upl16 (a b : t) : t :=
  V (GSVector4i.upl16 (lo a) (lo b)) (GSVector4i.upl16 (hi a) (hi b)).
Definition uph16 (a b : t) : t :=
  V (GSVector4i.uph16 (lo a) (lo b)) (GSVector4i.uph16 (hi a) (hi b)).

(** [sw16(a, b)] updates both arguments; here it returns the two new values. *)
Definition sw16 (a b : t) : t * t :=
  let c := a in let d := b in
  (upl16 c d, uph16 c d).

End GSVector8i.

(** ** Loops

    [for (i = lo; i < hi; i++)] and [for (i = 0; i < n * step; i += step)] as
    folds over the indices the loop visits, in order. *)

Definition for_range {A : Type} (lo hi : nat) (body : nat -> A -> A) (a : A) : A :=
  fold_left (fun acc i => body i acc) (seq lo (hi - lo)) a.
Definition for_step {A : Type} (n step : nat) (body : nat -> A -> A) (a : A) : A :=
  fold_left (fun acc i => body i acc) (map (fun k => (step * k)%nat) (seq 0 n)) a.

(** ** GS registers

    A register is its 64-bit word ([U64]); the fields are bit-fields of it. *)

(** Modelled from the spec: the bit-field declaration of [GIFRegTEX0]
    (GSRegs.h, not under src/).  The layout is the one the masks of the source
    name: [0x1FFFFFE000000000] is commented "CSA CSM CPSM CBP", bits 37 to 60. *)
Definition PSM (TEX0 : Z) : Z := bits TEX0 20 6.
Definition CBP (TEX0 : Z) : Z := bits TEX0 37 14.
Definition CPSM (TEX0 : Z) : Z := bits TEX0 51 4.
Definition CSM (TEX0 : Z) : Z := bits TEX0 55 1.
Definition CSA (TEX0 : Z) : Z := bits TEX0 56 5.
Definition CLD (TEX0 : Z) : Z := bits TEX0 61 3.

(** Modelled from the spec: the bit-fields of [GIFRegTEXCLUT] (GSRegs.h, not
    under src/); [U32_0] is the low word [U32[0]]. *)
Definition CBW (TEXCLUT : Z) : Z := bits TEXCLUT 0 6.
Definition COU (TEXCLUT : Z) : Z := bits TEXCLUT 6 6.
Definition COV (TEXCLUT : Z) : Z := bits TEXCLUT 12 10.
Definition U32_0 (r : Z) : Z := wrap32 r.

(** Modelled from the spec: the bit-fields of [GIFRegTEXA] (GSRegs.h, not under
    src/), as the masks of the source name them: [0x80FF] is "AEM TA0" and
    [0xFF000080FF] is "TA1 AEM TA0". *)
Definition TA0 (TEXA : Z) : Z := bits TEXA 0 8.
Definition AEM (TEXA : Z) : Z := bits TEXA 15 1.
Definition TA1 (TEXA : Z) : Z := bits TEXA 32 8.

(** Modelled from the spec: the pixel storage format codes (the enum of
    GSRegs.h, not under src/).  The constructor of the source tells the indexed
    ones by their low three bits: 3 is an 8-bit index, 4 a 4-bit index. *)
Definition PSM_PSMCT32 : Z := 0.
Definition PSM_PSMCT24 : Z := 1.
Definition PSM_PSMCT16 : Z := 2.
Definition PSM_PSMCT16S : Z := 10.
Definition PSM_PSMT8 : Z := 19.
Definition PSM_PSMT4 : Z := 20.
Definition PSM_PSMT8H : Z := 27.
Definition PSM_PSMT4HL : Z := 36.
Definition PSM_PSMT4HH : Z := 44.

(** ** Tables and metadata declared outside src/

    The functions below take them as parameters; these are the values the
    examples are run with. *)

Module GSTables.

(** Modelled from the spec: the fixed reordering table [clutTableT32I8]
    (GSTables, not under src/): 128 block-relative source positions, of which
    the load uses the entries at 0, 16, ..., 112, the source column of each
    group of 16 palette entries. *)
Definition clutTableT32I8_data : list Z :=
  [ 0; 1; 4; 5; 8; 9; 12; 13; 2; 3; 6; 7; 10; 11; 14; 15;
    64; 65; 68; 69; 72; 73; 76; 77; 66; 67; 70; 71; 74; 75; 78; 79;
    16; 17; 20; 21; 24; 25; 28; 29; 18; 19; 22; 23; 26; 27; 30; 31;
    80; 81; 84; 85; 88; 89; 92; 93; 82; 83; 86; 87; 90; 91; 94; 95;
    32; 33; 36; 37; 40; 41; 44; 45; 34; 35; 38; 39; 42; 43; 46; 47;
    96; 97; 100; 101; 104; 105; 108; 109; 98; 99; 102; 103; 106; 107; 110; 111;
    48; 49; 52; 53; 56; 57; 60; 61; 50; 51; 54; 55; 58; 59; 62; 63;
    112; 113; 116; 117; 120; 121; 124; 125; 114; 115; 118; 119; 122; 123; 126; 127 ].
Definition clutTableT32I8 (i : Z) : Z := rd clutTableT32I8_data (Z.to_nat i).

(** Modelled from the spec: the table [clutTableT16I4] (GSTables, not under
    src/), the source position of each entry of a 16-entry 16-bit palette. *)
Definition clutTableT16I4_data : list Z :=
  [ 0; 2; 8; 10; 16; 18; 24; 26; 4; 6; 12; 14; 20; 22; 28; 30 ].
Definition clutTableT16I4 (i : Z) : Z := rd clutTableT16I4_data (Z.to_nat i).

End GSTables.

Module GSLocalMemory.

(** Modelled from the spec: the bits-per-pixel metadata [m_psm[psm].bpp]
    (GSLocalMemory, not under src/): 32 for every format but the 16-bit
    ones, the 8-bit [PSMT8] and the 4-bit [PSMT4]. *)
Definition m_psm_bpp (psm : Z) : Z :=
  if (psm =? 2) || (psm =? 10) || (psm =? 18) || (psm =? 50) || (psm =? 58) then 16
  else if psm =? 19 then 8
  else if psm =? 20 then 4
  else 32.

(** A video memory that reads as zero everywhere. *)
Definition blank_block (bp : Z) : list Z := repeat 0 256.
Definition blank_value (psm cbp cbw x y : Z) (i : nat) : Z := 0.

End GSLocalMemory.

(** ** The state of a GSClut object *)

Module WriteState.
Record t : Type := mk { TEX0 : Z; TEXCLUT : Z; dirty : bool }.
End WriteState.

Module ReadState.
Record t : Type := mk { TEX0 : Z; TEXA : Z; dirty : bool; adirty : bool; amin : Z; amax : Z }.
End ReadState.

Record GSClut : Type := mkGSClut {
  m_CBP_0 : Z;                (* m_CBP[0] *)
  m_CBP_1 : Z;                (* m_CBP[1] *)
  m_clut : list Z;            (* u16[1024]: the palette and its mirrored area *)
  m_buff32 : list Z;          (* u32[256] *)
  m_buff64 : list Z;          (* u64[256] *)
  m_write : WriteState.t;
  m_read : ReadState.t
}.

Definition set_m_CBP_0 (s : GSClut) (v : Z) : GSClut :=
  mkGSClut v (m_CBP_1 s) (m_clut s) (m_buff32 s) (m_buff64 s) (m_write s) (m_read s).
Definition set_m_CBP_1 (s : GSClut) (v : Z) : GSClut :=
  mkGSClut (m_CBP_0 s) v (m_clut s) (m_buff32 s) (m_buff64 s) (m_write s) (m_read s).
Definition set_m_clut (s : GSClut) (v : list Z) : GSClut :=
  mkGSClut (m_CBP_0 s) (m_CBP_1 s) v (m_buff32 s) (m_buff64 s) (m_write s) (m_read s).
Definition set_m_buff32 (s : GSClut) (v : list Z) : GSClut :=
  mkGSClut (m_CBP_0 s) (m_CBP_1 s) (m_clut s) v (m_buff64 s) (m_write s) (m_read s).
Definition set_m_buff64 (s : GSClut) (v : list Z) : GSClut :=
  mkGSClut (m_CBP_0 s) (m_CBP_1 s) (m_clut s) (m_buff32 s) v (m_write s) (m_read s).
Definition set_m_write (s : GSClut) (v : WriteState.t) : GSClut :=
  mkGSClut (m_CBP_0 s) (m_CBP_1 s) (m_clut s) (m_buff32 s) (m_buff64 s) v (m_read s).
Definition set_m_read (s : GSClut) (v : ReadState.t) : GSClut :=
  mkGSClut (m_CBP_0 s) (m_CBP_1 s) (m_clut s) (m_buff32 s) (m_buff64 s) (m_write s) v.

(** ** Concrete registers, buffers and states the examples are run on *)

Module Examples.

(** The TEX0 word with the given fields, every other field 0. *)
Definition tex0 (psm cbp cpsm csm csa cld : Z) : Z :=
  Z.shiftl psm 20 + Z.shiftl cbp 37 + Z.shiftl cpsm 51 + Z.shiftl csm 55
  + Z.shiftl csa 56 + Z.shiftl cld 61.

(** The TEXA word with the given fields. *)
Definition texa (ta0 aem ta1 : Z) : Z := ta0 + Z.shiftl aem 15 + Z.shiftl ta1 32.

(** [ramp n]: the buffer whose element [i] is [i]. *)
Definition ramp (n : nat) : list Z := map Z.of_nat (seq 0 n).

(** A state with clear dirty flags whose snapshots hold [TEX0], and whose
    base-pointer slots hold [cbp0] and [cbp1]. *)
Definition state (cbp0 cbp1 TEX0 : Z) : GSClut :=
  mkGSClut cbp0 cbp1 (ramp 1024) (repeat 0 256) (repeat 0 256)
    (WriteState.mk TEX0 0 false) (ReadState.mk TEX0 0 false false 0 0).

(** A video memory whose every block reads 0, 1, 2, ..., and whose
    coordinate stream reads the same. *)
Definition ramp_block (bp : Z) : list Z := ramp 256.
Definition ramp_value (psm cbp cbw x y : Z) (i : nat) : Z := Z.of_nat i.

(** Format metadata for the alpha range: 24 true bits per pixel for
    [PSMCT24], a palette of 256 entries for the 8-bit pixel formats. *)
Definition trbpp (psm : Z) : Z := if psm =? PSM_PSMCT24 then 24 else 32.
Definition pal (psm : Z) : Z := if (psm =? PSM_PSMT8) || (psm =? PSM_PSMT8H) then 256 else 16.

(** An expanded buffer whose color [i] has alpha [(37 i + 11) mod 200 + 20],
    and a state that holds it with the alpha range stale. *)
Definition alphas : list Z :=
  map (fun i => Z.shiftl ((Z.of_nat i * 37 + 11) mod 200 + 20) 24 + Z.of_nat i) (seq 0 256).
Definition stale (TEX0 TEXA : Z) : GSClut :=
  mkGSClut 0 0 (ramp 1024) alphas (repeat 0 256)
    (WriteState.mk TEX0 0 false) (ReadState.mk TEX0 TEXA false true 0 0).

(** A state whose read side is dirty and whose expanded buffers hold
    0, 1, 2, ... *)
Definition dirty_read : GSClut :=
  mkGSClut 0 0 (ramp 1024) (ramp 256) (ramp 256)
    (WriteState.mk 0 0 false) (ReadState.mk 0 0 true false 0 0).

(** Every element of the list is a 16-bit (a 32-bit) value. *)
Definition all_u16 (p : list Z) : bool := forallb (fun x => (0 <=? x) && (x <? 65536)) p.
Definition all_u32 (p : list Z) : bool := forallb (fun x => (0 <=? x) && (x <? 4294967296)) p.

End Examples.

(** ** DInputSource: the point-of-view hat of a DirectInput controller

    [DInputSource::GetHatButtons] of [pcsx2/Frontend/DInputSource.cpp]: the
    hat position, an angle in hundredths of a degree clockwise from up or the
    value 0xFFFF for "centered", as four direction buttons. *)

Module DInputSource.

(** [std::array<bool, NUM_HAT_DIRECTIONS>], one field for each index the
    function writes. *)
Record HatButtons : Type := mkHatButtons {
  HAT_DIRECTION_UP : bool;
  HAT_DIRECTION_RIGHT : bool;
  HAT_DIRECTION_DOWN : bool;
  HAT_DIRECTION_LEFT : bool
}.

(** [LOWORD(x)]: the low 16 bits. *)
Definition LOWORD (x : Z) : Z := Z.land x 65535.

Definition GetHatButtons (hat : Z) : HatButtons :=
  let buttons := mkHatButtons false false false false in
  let hv := LOWORD hat in
  if negb (hv =? 0xFFFF) then
    let buttons :=
      if ((0 <=? hv) && (hv <? 9000)) || (31500 <=? hv)
      then mkHatButtons true (HAT_DIRECTION_RIGHT buttons) (HAT_DIRECTION_DOWN buttons)
             (HAT_DIRECTION_LEFT buttons)
      else buttons in
    let buttons :=
      if (4500 <=? hv) && (hv <? 18000)
      then mkHatButtons (HAT_DIRECTION_UP buttons) true (HAT_DIRECTION_DOWN buttons)
             (HAT_DIRECTION_LEFT buttons)
      else buttons in
    let buttons :=
      if (13500 <=? hv) && (hv <? 27000)
      then mkHatButtons (HAT_DIRECTION_UP buttons) (HAT_DIRECTION_RIGHT buttons) true
             (HAT_DIRECTION_LEFT buttons)
      else buttons in
    let buttons :=
      if 22500 <=? hv
      then mkHatButtons (HAT_DIRECTION_UP buttons) (HAT_DIRECTION_RIGHT buttons)
             (HAT_DIRECTION_DOWN buttons) true
      else buttons in
    buttons
  else buttons.

End DInputSource.

(** The tags of the load routines the dispatch table [m_wc] holds; the
    template argument of the CSM2 routines is the number of entries. *)
Inductive WriteRoutine : Type :=
  | R_WriteCLUT32_I8_CSM1
  | R_WriteCLUT32_I4_CSM1
  | R_WriteCLUT16_I8_CSM1
  | R_WriteCLUT16_I4_CSM1
  | R_WriteCLUT16S_I8_CSM1
  | R_WriteCLUT16S_I4_CSM1
  | R_WriteCLUT32_CSM2 (n : nat)
  | R_WriteCLUT16_CSM2 (n : nat)
  | R_WriteCLUT16S_CSM2 (n : nat)
  | R_WriteCLUT_NULL.

(** ** The methods of GSClut *)

Section GSClut.

(** What the video memory and the global tables provide (GSLocalMemory and
    GSTables, not under src/). *)

(** [GSLocalMemory::m_psm[psm].bpp] *)
Variable m_psm_bpp : Z -> Z.
(** [clutTableT32I8[i]] and [clutTableT16I4[i]] *)
Variable clutTableT32I8 : Z -> Z.
Variable clutTableT16I4 : Z -> Z.
(** [m_mem->BlockPtr32(0, 0, bp, 1)] and its 16-bit forms: the words of video
    memory from the start of block [bp] on. *)
Variable BlockPtr32 : Z -> list Z.
Variable BlockPtr16 : Z -> list Z.
Variable BlockPtr16S : Z -> list Z.
(** [*pa.value(i)] for [pa = GSOffset::fromKnownPSM(bp, bw, psm).paMulti(vm, x, y)]. *)
Variable paMulti_value : Z -> Z -> Z -> Z -> Z -> nat -> Z.

(** *** Invalidation *)

Definition Invalidate (s : GSClut) : GSClut :=
  set_m_write s (WriteState.mk (WriteState.TEX0 (m_write s)) (WriteState.TEXCLUT (m_write s)) true).

(** The number of blocks [InvalidateRange] takes the palette to span. *)
Definition InvalidateRange_blocks (s : GSClut) : Z :=
  let blocks := 4 in
  let blocks :=
    if m_psm_bpp (CPSM (WriteState.TEX0 (m_write s))) =? 16 then Z.shiftr blocks 1 else blocks in
  let blocks :=
    if m_psm_bpp (PSM (WriteState.TEX0 (m_write s))) =? 4 then Z.shiftr blocks 1 else blocks in
  blocks.

Definition InvalidateRange (s : GSClut) (start_block end_block : Z) : GSClut :=
  let blocks := InvalidateRange_blocks s in
  if (start_block <=? CBP (WriteState.TEX0 (m_write s)) + blocks)
     && (CBP (WriteState.TEX0 (m_write s)) <=? end_block)
  then Invalidate s
  else s.


(** *** The reload decision *)

Definition WriteState_IsDirty (w : WriteState.t) (TEX0 TEXCLUT : Z) : bool * WriteState.t :=
  let mask := 0x1FFFFFE000000000 in
  let is_dirty := WriteState.dirty w in
  let is_dirty :=
    if negb (Z.land (Z.lxor (WriteState.TEX0 w) TEX0) mask =? 0)
       || negb (m_psm_bpp (PSM (WriteState.TEX0 w)) =? m_psm_bpp (PSM TEX0))
    then is_dirty || true
    else if (CSM TEX0 =? 1) && negb (Z.lxor (U32_0 TEXCLUT) (U32_0 (WriteState.TEXCLUT w)) =? 0)
    then is_dirty || true
    else is_dirty in
  if negb is_dirty
  then (is_dirty, WriteState.mk TEX0 TEXCLUT (WriteState.dirty w))
  else (is_dirty, w).

(** [return m_write.IsDirty(TEX0, TEXCLUT)], with the snapshot it leaves. *)
Definition WriteTest_check (s : GSClut) (TEX0 TEXCLUT : Z) : bool * GSClut :=
  let '(d, w) := WriteState_IsDirty (m_write s) TEX0 TEXCLUT in (d, set_m_write s w).

Definition WriteTest (s : GSClut) (TEX0 TEXCLUT : Z) : bool * GSClut :=
  if Z.land (PSM TEX0) 7 <? 3 then (false, s)
  else
    match CLD TEX0 with
    | 0 => (false, s)
    | 1 => WriteTest_check s TEX0 TEXCLUT
    | 2 => WriteTest_check (set_m_CBP_0 s (CBP TEX0)) TEX0 TEXCLUT
    | 3 => WriteTest_check (set_m_CBP_1 s (CBP TEX0)) TEX0 TEXCLUT
    | 4 =>
        if m_CBP_0 s =? CBP TEX0 then (false, s)
        else WriteTest_check (set_m_CBP_0 s (CBP TEX0)) TEX0 TEXCLUT
    | 5 =>
        if m_CBP_1 s =? CBP TEX0 then (false, s)
        else WriteTest_check (set_m_CBP_1 s (CBP TEX0)) TEX0 TEXCLUT
    | 6 => (false, s)
    | 7 => (false, s)
    | _ => (false, s) (* __assume(0): CLD has three bits *)
    end.

(** *** Load routines (the static helpers) *)

(** One block of 16 entries of 32 bits: the low halves go to [clut[0..15]],
    the high halves to [clut[256..271]] (the vectors [d[32]] and [d[33]]).
    This is the SSE path of the source (the [#else] branch). *)
Definition WriteCLUT_T32_I4_CSM1 (src : list Z) (sb : nat) (clut : list Z) (cb : nat) : list Z :=
  let v0 := GSVector4i.load32 src sb 0 in
  let v1 := GSVector4i.load32 src sb 1 in
  let v2 := GSVector4i.load32 src sb 2 in
  let v3 := GSVector4i.load32 src sb 3 in
  let '(v0, v1, v2, v3) := GSVector4i.sw16 v0 v1 v2 v3 in
  let '(v0, v1, v2, v3) := GSVector4i.sw32 v0 v1 v2 v3 in
  let '(v0, v2, v1, v3) := GSVector4i.sw16 v0 v2 v1 v3 in
  let clut := GSVector4i.store16 clut cb 0 v0 in
  let clut := GSVector4i.store16 clut cb 1 v2 in
  let clut := GSVector4i.store16 clut cb 32 v1 in
  GSVector4i.store16 clut cb 33 v3.

(** The same routine as built for AVX2 (the [#if _M_SSE >= 0x501] branch):
    [d[16]], a 256-bit vector index, is again [clut[256..271]]. *)
Definition WriteCLUT_T32_I4_CSM1_AVX2
    (src : list Z) (sb : nat) (clut : list Z) (cb : nat) : list Z :=
  let v0 := GSVector8i.acbd (GSVector8i.load32 src sb 0) in
  let v1 := GSVector8i.acbd (GSVector8i.load32 src sb 1) in
  let '(v0, v1) := GSVector8i.sw16 v0 v1 in
  let '(v0, v1) := GSVector8i.sw16 v0 v1 in
  let '(v0, v1) := GSVector8i.sw16 v0 v1 in
  let clut := GSVector8i.store16 clut cb 0 v0 in
  GSVector8i.store16 clut cb 16 v1.

(** The source column of the group of 16 entries at [off]. *)
Definition WriteCLUT_T32_I8_CSM1_s (off : Z) : Z :=
  Z.lor (clutTableT32I8 (Z.land off 0x70)) (Z.land off 0x80).

Definition WriteCLUT_T32_I8_CSM1 (src : list Z) (clut : list Z) (offset : Z) : list Z :=
  for_range (Z.to_nat offset) 16 (fun i clut =>
    let off := Z.shiftl (Z.of_nat i) 4 in
    let s := WriteCLUT_T32_I8_CSM1_s off in
    WriteCLUT_T32_I4_CSM1 src (Z.to_nat s) clut (Z.to_nat off)) clut.

(** Two blocks of 16-bit entries. *)
Definition WriteCLUT_T16_I8_CSM1 (src : list Z) (clut : list Z) (cb : nat) : list Z :=
  for_step 8 4 (fun i clut =>
    let v0 := GSVector4i.load16 src 0 (i + 0) in
    let v1 := GSVector4i.load16 src 0 (i + 1) in
    let v2 := GSVector4i.load16 src 0 (i + 2) in
    let v3 := GSVector4i.load16 src 0 (i + 3) in
    let '(v0, v1, v2, v3) := GSVector4i.sw16 v0 v1 v2 v3 in
    let '(v0, v1, v2, v3) := GSVector4i.sw32 v0 v1 v2 v3 in
    let '(v0, v2, v1, v3) := GSVector4i.sw16 v0 v2 v1 v3 in
    let clut := GSVector4i.store16 clut cb (i + 0) v0 in
    let clut := GSVector4i.store16 clut cb (i + 1) v2 in
    let clut := GSVector4i.store16 clut cb (i + 2) v1 in
    GSVector4i.store16 clut cb (i + 3) v3) clut.

(** Half a block of 16-bit entries. *)
Definition WriteCLUT_T16_I4_CSM1 (src : list Z) (clut : list Z) (cb : nat) : list Z :=
  for_range 0 16 (fun i clut =>
    <[(cb + i)%nat := rd src (Z.to_nat (clutTableT16I4 (Z.of_nat i)))]> clut) clut.

(** *** Load routines (the members the dispatch table holds) *)

Definition WriteCLUT32_I8_CSM1 (clut : list Z) (TEX0 TEXCLUT : Z) : list Z :=
  WriteCLUT_T32_I8_CSM1 (BlockPtr32 (CBP TEX0)) clut (Z.land (CSA TEX0) 15).

Definition WriteCLUT32_I4_CSM1 (clut : list Z) (TEX0 TEXCLUT : Z) : list Z :=
  WriteCLUT_T32_I4_CSM1 (BlockPtr32 (CBP TEX0)) 0 clut
    (Z.to_nat (Z.shiftl (Z.land (CSA TEX0) 15) 4)).

Definition WriteCLUT16_I8_CSM1 (clut : list Z) (TEX0 TEXCLUT : Z) : list Z :=
  WriteCLUT_T16_I8_CSM1 (BlockPtr16 (CBP TEX0)) clut (Z.to_nat (Z.shiftl (CSA TEX0) 4)).

Definition WriteCLUT16_I4_CSM1 (clut : list Z) (TEX0 TEXCLUT : Z) : list Z :=
  WriteCLUT_T16_I4_CSM1 (BlockPtr16 (CBP TEX0)) clut (Z.to_nat (Z.shiftl (CSA TEX0) 4)).

Definition WriteCLUT16S_I8_CSM1 (clut : list Z) (TEX0 TEXCLUT : Z) : list Z :=
  WriteCLUT_T16_I8_CSM1 (BlockPtr16S (CBP TEX0)) clut (Z.to_nat (Z.shiftl (CSA TEX0) 4)).

Definition WriteCLUT16S_I4_CSM1 (clut : list Z) (TEX0 TEXCLUT : Z) : list Z :=
  WriteCLUT_T16_I4_CSM1 (BlockPtr16S (CBP TEX0)) clut (Z.to_nat (Z.shiftl (CSA TEX0) 4)).

Definition WriteCLUT32_CSM2 (n : nat) (clut : list Z) (TEX0 TEXCLUT : Z) : list Z :=
  let pa := paMulti_value PSM_PSMCT32 (CBP TEX0) (CBW TEXCLUT)
              (Z.shiftl (COU TEXCLUT) 4) (COV TEXCLUT) in
  let cb := Z.to_nat (Z.shiftl (Z.land (CSA TEX0) 15) 4) in
  for_range 0 n (fun i clut =>
    let c := pa i in
    let clut := <[(cb + i)%nat := lo16 c]> clut in
    <[(cb + i + 256)%nat := lo16 (Z.shiftr c 16)]> clut) clut.

Definition WriteCLUT16_CSM2 (n : nat) (clut : list Z) (TEX0 TEXCLUT : Z) : list Z :=
  let pa := paMulti_value PSM_PSMCT16 (CBP TEX0) (CBW TEXCLUT)
              (Z.shiftl (COU TEXCLUT) 4) (COV TEXCLUT) in
  let cb := Z.to_nat (Z.shiftl (CSA TEX0) 4) in
  for_range 0 n (fun i clut => <[(cb + i)%nat := pa i]> clut) clut.

Definition WriteCLUT16S_CSM2 (n : nat) (clut : list Z) (TEX0 TEXCLUT : Z) : list Z :=
  let pa := paMulti_value PSM_PSMCT16S (CBP TEX0) (CBW TEXCLUT)
              (Z.shiftl (COU TEXCLUT) 4) (COV TEXCLUT) in
  let cb := Z.to_nat (Z.shiftl (CSA TEX0) 4) in
  for_range 0 n (fun i clut => <[(cb + i)%nat := pa i]> clut) clut.

(** Logs a warning and writes nothing. *)
Definition WriteCLUT_NULL (clut : list Z) (TEX0 TEXCLUT : Z) : list Z := clut.

(** *** The dispatch table, as the constructor fills it *)

Definition m_wc (csm cpsm psm : Z) : WriteRoutine :=
  let eight_bit := Z.land psm 7 =? 3 in
  let four_bit := Z.land psm 7 =? 4 in
  if csm =? 0 then
    if (cpsm =? PSM_PSMCT32) || (cpsm =? PSM_PSMCT24) then
      if eight_bit then R_WriteCLUT32_I8_CSM1
      else if four_bit then R_WriteCLUT32_I4_CSM1
      else R_WriteCLUT_NULL
    else if cpsm =? PSM_PSMCT16 then
      if eight_bit then R_WriteCLUT16_I8_CSM1
      else if four_bit then R_WriteCLUT16_I4_CSM1
      else R_WriteCLUT_NULL
    else if cpsm =? PSM_PSMCT16S then
      if eight_bit then R_WriteCLUT16S_I8_CSM1
      else if four_bit then R_WriteCLUT16S_I4_CSM1
      else R_WriteCLUT_NULL
    else R_WriteCLUT_NULL
  else
    let entries :=
      if (psm =? PSM_PSMT8) || (psm =? PSM_PSMT8H) then Some 256%nat
      else if (psm =? PSM_PSMT4) || (psm =? PSM_PSMT4HL) || (psm =? PSM_PSMT4HH) then Some 16%nat
      else None in
    match entries with
    | None => R_WriteCLUT_NULL
    | Some n =>
        if (cpsm =? PSM_PSMCT32) || (cpsm =? PSM_PSMCT24) then R_WriteCLUT32_CSM2 n
        else if cpsm =? PSM_PSMCT16 then R_WriteCLUT16_CSM2 n
        else if cpsm =? PSM_PSMCT16S then R_WriteCLUT16S_CSM2 n
        else R_WriteCLUT_NULL
    end.

(** [(this->*r)(TEX0, TEXCLUT)]: a routine only writes the palette buffer. *)
Definition call_WriteRoutine (r : WriteRoutine) (s : GSClut) (TEX0 TEXCLUT : Z) : GSClut :=
  let run f := set_m_clut s (f (m_clut s) TEX0 TEXCLUT) in
  match r with
  | R_WriteCLUT32_I8_CSM1 => run WriteCLUT32_I8_CSM1
  | R_WriteCLUT32_I4_CSM1 => run WriteCLUT32_I4_CSM1
  | R_WriteCLUT16_I8_CSM1 => run WriteCLUT16_I8_CSM1
  | R_WriteCLUT16_I4_CSM1 => run WriteCLUT16_I4_CSM1
  | R_WriteCLUT16S_I8_CSM1 => run WriteCLUT16S_I8_CSM1
  | R_WriteCLUT16S_I4_CSM1 => run WriteCLUT16S_I4_CSM1
  | R_WriteCLUT32_CSM2 n => run (WriteCLUT32_CSM2 n)
  | R_WriteCLUT16_CSM2 n => run (WriteCLUT16_CSM2 n)
  | R_WriteCLUT16S_CSM2 n => run (WriteCLUT16S_CSM2 n)
  | R_WriteCLUT_NULL => run WriteCLUT_NULL
  end.

(** *** The load *)

Definition Write (s : GSClut) (TEX0 TEXCLUT : Z) : GSClut :=
  let s := set_m_write s (WriteState.mk TEX0 (WriteState.TEXCLUT (m_write s)) (WriteState.dirty (m_write s))) in
  let s := set_m_write s (WriteState.mk (WriteState.TEX0 (m_write s)) TEXCLUT (WriteState.dirty (m_write s))) in
  let s := set_m_read s (ReadState.mk (ReadState.TEX0 (m_read s)) (ReadState.TEXA (m_read s)) true
                           (ReadState.adirty (m_read s)) (ReadState.amin (m_read s))
                           (ReadState.amax (m_read s))) in
  let s := set_m_write s (WriteState.mk (WriteState.TEX0 (m_write s)) (WriteState.TEXCLUT (m_write s)) false) in
  call_WriteRoutine (m_wc (CSM TEX0) (CPSM TEX0) (PSM TEX0)) s TEX0 TEXCLUT.

(** *** Expansion helpers *)

(** Sixteen entries: the low halves at [clut[0..15]] and the high halves at
    [clut[256..271]], interleaved into sixteen 32-bit colors. *)
Definition ReadCLUT_T32_I4 (clut : list Z) (cb : nat) (dst : list Z) (db : nat) : list Z :=
  let v0 := GSVector4i.load16 clut cb 0 in
  let v1 := GSVector4i.load16 clut cb 1 in
  let v2 := GSVector4i.load16 clut cb 32 in
  let v3 := GSVector4i.load16 clut cb 33 in
  let '(v0, v2, v1, v3) := GSVector4i.sw16 v0 v2 v1 v3 in
  let dst := GSVector4i.store32 dst db 0 v0 in
  let dst := GSVector4i.store32 dst db 1 v1 in
  let dst := GSVector4i.store32 dst db 2 v2 in
  GSVector4i.store32 dst db 3 v3.

(** [std::min((i + offset), 240)]: the palette entry the group of 16 colors
    at [i] is read from. *)
Definition ReadCLUT_T32_I8_base (i offset : Z) : Z := Z.min (i + offset) 240.

Definition ReadCLUT_T32_I8 (clut : list Z) (dst : list Z) (offset : Z) : list Z :=
  for_step 16 16 (fun i dst =>
    ReadCLUT_T32_I4 clut (Z.to_nat (ReadCLUT_T32_I8_base (Z.of_nat i) offset)) dst i) dst.

(** [ExpandCLUT64_T32(hi, lo, dst)], writing the vectors [dst[k]], [dst[k+1]]. *)
Definition ExpandCLUT64_T32_lo (hi lo : GSVector4i.t) (dst : list Z) (k : nat) : list Z :=
  let dst := GSVector4i.store64 dst 0 k (GSVector4i.upl32 lo hi) in
  GSVector4i.store64 dst 0 (k + 1) (GSVector4i.uph32 lo hi).

(** [ExpandCLUT64_T32(hi, lo0, lo1, lo2, lo3, &d[k])]. *)
Definition ExpandCLUT64_T32 (hi lo0 lo1 lo2 lo3 : GSVector4i.t) (dst : list Z) (k : nat) : list Z :=
  let dst := ExpandCLUT64_T32_lo (GSVector4i.xxxx hi) lo0 dst (k + 0) in
  let dst := ExpandCLUT64_T32_lo (GSVector4i.xxxx hi) lo1 dst (k + 2) in
  let dst := ExpandCLUT64_T32_lo (GSVector4i.xxxx hi) lo2 dst (k + 4) in
  let dst := ExpandCLUT64_T32_lo (GSVector4i.xxxx hi) lo3 dst (k + 6) in
  let dst := ExpandCLUT64_T32_lo (GSVector4i.yyyy hi) lo0 dst (k + 8) in
  let dst := ExpandCLUT64_T32_lo (GSVector4i.yyyy hi) lo1 dst (k + 10) in
  let dst := ExpandCLUT64_T32_lo (GSVector4i.yyyy hi) lo2 dst (k + 12) in
  let dst := ExpandCLUT64_T32_lo (GSVector4i.yyyy hi) lo3 dst (k + 14) in
  let dst := ExpandCLUT64_T32_lo (GSVector4i.zzzz hi) lo0 dst (k + 16) in
  let dst := ExpandCLUT64_T32_lo (GSVector4i.zzzz hi) lo1 dst (k + 18) in
  let dst := ExpandCLUT64_T32_lo (GSVector4i.zzzz hi) lo2 dst (k + 20) in
  let dst := ExpandCLUT64_T32_lo (GSVector4i.zzzz hi) lo3 dst (k + 22) in
  let dst := ExpandCLUT64_T32_lo (GSVector4i.wwww hi) lo0 dst (k + 24) in
  let dst := ExpandCLUT64_T32_lo (GSVector4i.wwww hi) lo1 dst (k + 26) in
  let dst := ExpandCLUT64_T32_lo (GSVector4i.wwww hi) lo2 dst (k + 28) in
  ExpandCLUT64_T32_lo (GSVector4i.wwww hi) lo3 dst (k + 30).

Definition ExpandCLUT64_T32_I8 (src : list Z) (dst : list Z) : list Z :=
  let s0 := GSVector4i.load32 src 0 0 in
  let s1 := GSVector4i.load32 src 0 1 in
  let s2 := GSVector4i.load32 src 0 2 in
  let s3 := GSVector4i.load32 src 0 3 in
  let dst := ExpandCLUT64_T32 s0 s0 s1 s2 s3 dst 0 in
  let dst := ExpandCLUT64_T32 s1 s0 s1 s2 s3 dst 32 in
  let dst := ExpandCLUT64_T32 s2 s0 s1 s2 s3 dst 64 in
  ExpandCLUT64_T32 s3 s0 s1 s2 s3 dst 96.

Definition m_bm : GSVector4i.t := GSVector4i.splat32 0x00007c00.
Definition m_gm : GSVector4i.t := GSVector4i.splat32 0x000003e0.
Definition m_rm : GSVector4i.t := GSVector4i.splat32 0x0000001f.

(** The color channels of the four entries of [c] (the halves [cl] and [ch]
    hold every entry twice): 5 bits each, moved to the top of their byte. *)
Definition Expand16_rgb (c : GSVector4i.t) : GSVector4i.t :=
  let rm := m_rm in
  let gm := m_gm in
  let bm := m_bm in
  GSVector4i.or
    (GSVector4i.or (GSVector4i.sll32 (GSVector4i.and c rm) 3)
                   (GSVector4i.sll32 (GSVector4i.and c gm) 6))
    (GSVector4i.sll32 (GSVector4i.and c bm) 9).

(** The alpha term: [TA0.blend8(TA1, c.sra16(15))], and in the loop for AEM
    set, [.andnot(c == GSVector4i::zero())] of it. *)
Definition Expand16_alpha (aem : bool) (TA0v TA1v c : GSVector4i.t) : GSVector4i.t :=
  let a := GSVector4i.blend8 TA0v TA1v (GSVector4i.sra16 c 15) in
  if aem then GSVector4i.andnot a (GSVector4i.eq32 c GSVector4i.zero) else a.

(** The four colors one half ([cl] or [ch]) of a source vector expands to;
    [aem] tells which of the two loops of [Expand16] runs. *)
Definition Expand16_px (aem : bool) (TA0v TA1v c : GSVector4i.t) : GSVector4i.t :=
  GSVector4i.or (Expand16_rgb c) (Expand16_alpha aem TA0v TA1v c).

Definition Expand16 (src : list Z) (sb : nat) (dst : list Z) (w : Z) (TEXA : Z) : list Z :=
  let TA0v := GSVector4i.splat32 (Z.shiftl (TA0 TEXA) 24) in
  let TA1v := GSVector4i.splat32 (Z.shiftl (TA1 TEXA) 24) in
  let aem := negb (AEM TEXA =? 0) in
  for_range 0 (Z.to_nat (Z.shiftr w 3)) (fun i dst =>
    let c := GSVector4i.load16 src sb i in
    let cl := GSVector4i.upl16 c c in
    let ch := GSVector4i.uph16 c c in
    let dst := GSVector4i.store32 dst 0 (i * 2 + 0) (Expand16_px aem TA0v TA1v cl) in
    GSVector4i.store32 dst 0 (i * 2 + 1) (Expand16_px aem TA0v TA1v ch)) dst.

(** *** The expansion *)

Definition ReadState_IsDirty (r : ReadState.t) (TEX0 TEXA : Z) : bool * ReadState.t :=
  let tex0_mask := 0x1FFFFFE000000000 in
  let texa24_mask := 0x80FF in
  let texa16_mask := 0xFF000080FF in
  let is_dirty := ReadState.dirty r in
  let is_dirty :=
    if negb (Z.land (Z.lxor (ReadState.TEX0 r) TEX0) tex0_mask =? 0)
       || negb (m_psm_bpp (PSM (ReadState.TEX0 r)) =? m_psm_bpp (PSM TEX0))
    then is_dirty || true
    else if (CPSM TEX0 =? PSM_PSMCT24)
            && negb (Z.land (Z.lxor (ReadState.TEXA r) TEXA) texa24_mask =? 0)
    then is_dirty || true
    else if (PSM_PSMCT16 <=? CPSM TEX0)
            && negb (Z.land (Z.lxor (ReadState.TEXA r) TEXA) texa16_mask =? 0)
    then is_dirty || true
    else is_dirty in
  if negb is_dirty
  then (is_dirty, ReadState.mk TEX0 TEXA (ReadState.dirty r) (ReadState.adirty r)
                    (ReadState.amin r) (ReadState.amax r))
  else (is_dirty, r).

(** [ReadState::IsDirty(TEX0)], the check without TEXA. *)
Definition ReadState_IsDirty_TEX0 (r : ReadState.t) (TEX0 : Z) : bool * ReadState.t :=
  let mask := 0x1FFFFFE000000000 in
  let is_dirty := ReadState.dirty r in
  let is_dirty :=
    if negb (Z.land (Z.lxor (ReadState.TEX0 r) TEX0) mask =? 0)
       || negb (m_psm_bpp (PSM (ReadState.TEX0 r)) =? m_psm_bpp (PSM TEX0))
    then is_dirty || true
    else is_dirty in
  if negb is_dirty
  then (is_dirty, ReadState.mk TEX0 (ReadState.TEXA r) (ReadState.dirty r) (ReadState.adirty r)
                    (ReadState.amin r) (ReadState.amax r))
  else (is_dirty, r).

Definition is_T8 (psm : Z) : bool := (psm =? PSM_PSMT8) || (psm =? PSM_PSMT8H).
Definition is_T4 (psm : Z) : bool :=
  (psm =? PSM_PSMT4) || (psm =? PSM_PSMT4HL) || (psm =? PSM_PSMT4HH).

Definition Read32 (s : GSClut) (TEX0 TEXA : Z) : GSClut :=
  let '(d, r) := ReadState_IsDirty (m_read s) TEX0 TEXA in
  let s := set_m_read s r in
  if d then
    let s := set_m_read s (ReadState.mk TEX0 TEXA false true
                             (ReadState.amin (m_read s)) (ReadState.amax (m_read s))) in
    let clut := m_clut s in
    if (CPSM TEX0 =? PSM_PSMCT32) || (CPSM TEX0 =? PSM_PSMCT24) then
      if is_T8 (PSM TEX0) then
        set_m_buff32 s (ReadCLUT_T32_I8 clut (m_buff32 s) (Z.shiftl (Z.land (CSA TEX0) 15) 4))
      else if is_T4 (PSM TEX0) then
        let s := set_m_buff32 s
                   (ReadCLUT_T32_I4 clut (Z.to_nat (Z.shiftl (Z.land (CSA TEX0) 15) 4))
                      (m_buff32 s) 0) in
        set_m_buff64 s (ExpandCLUT64_T32_I8 (m_buff32 s) (m_buff64 s))
      else s
    else if (CPSM TEX0 =? PSM_PSMCT16) || (CPSM TEX0 =? PSM_PSMCT16S) then
      if is_T8 (PSM TEX0) then
        set_m_buff32 s (Expand16 clut (Z.to_nat (Z.shiftl (CSA TEX0) 4)) (m_buff32 s) 256 TEXA)
      else if is_T4 (PSM TEX0) then
        let s := set_m_buff32 s
                   (Expand16 clut (Z.to_nat (Z.shiftl (CSA TEX0) 4)) (m_buff32 s) 16 TEXA) in
        set_m_buff64 s (ExpandCLUT64_T32_I8 (m_buff32 s) (m_buff64 s))
      else s
    else s
  else s.

(** *** The alpha range *)

(** [GSLocalMemory::m_psm[psm].trbpp] and [GSLocalMemory::m_psm[psm].pal]
    (GSLocalMemory, not under src/). *)
Variable m_psm_trbpp : Z -> Z.
Variable m_psm_pal : Z -> Z.

(** [(p[k + 0] >> 24).ps32(p[k + 1] >> 24)] and [(p[k + 2] >> 24).ps32(p[k + 3] >> 24)],
    packed by [pu16]: the alpha bytes of the sixteen colors of the vectors
    [p[k] .. p[k + 3]]. *)
Definition GetAlphaMinMax32_v2 (p : list Z) (k : nat) : GSVector4i.t :=
  let v0 := GSVector4i.ps32 (GSVector4i.srl32 (GSVector4i.load32 p 0 (k + 0)) 24)
                            (GSVector4i.srl32 (GSVector4i.load32 p 0 (k + 1)) 24) in
  let v1 := GSVector4i.ps32 (GSVector4i.srl32 (GSVector4i.load32 p 0 (k + 2)) 24)
                            (GSVector4i.srl32 (GSVector4i.load32 p 0 (k + 3)) 24) in
  let v2 := GSVector4i.pu16 v0 v1 in
  v2.

(** The two branches on [m_psm[m_read.TEX0.PSM].pal]: the byte-wise minimum
    and maximum over the sixteen groups of a 256-entry palette, or the one
    group of a 16-entry palette.  (The [ASSERT] of the second branch is
    compiled out of release builds.) *)
Definition GetAlphaMinMax32_scan (p : list Z) (pal : Z) : GSVector4i.t * GSVector4i.t :=
  if pal =? 256 then
    let amin := GSVector4i.xffffffff in
    let amax := GSVector4i.zero in
    for_range 0 16 (fun i '(amin, amax) =>
      let v2 := GetAlphaMinMax32_v2 p (i * 4) in
      (GSVector4i.min_u8 amin v2, GSVector4i.max_u8 amax v2)) (amin, amax)
  else
    let v2 := GetAlphaMinMax32_v2 p 0 in
    (v2, v2).

(** The horizontal reduction of the sixteen bytes of [amin] and of [amax]. *)
Definition GetAlphaMinMax32_reduce (amin amax : GSVector4i.t) : Z * Z :=
  let amin := GSVector4i.min_u8 amin (GSVector4i.zwxy amin) in
  let amax := GSVector4i.max_u8 amax (GSVector4i.zwxy amax) in
  let amin := GSVector4i.min_u8 amin (GSVector4i.zwxyl amin) in
  let amax := GSVector4i.max_u8 amax (GSVector4i.zwxyl amax) in
  let amin := GSVector4i.min_u8 amin (GSVector4i.yxwzl amin) in
  let amax := GSVector4i.max_u8 amax (GSVector4i.yxwzl amax) in
  let v0 := GSVector4i.u8to16 (GSVector4i.upl8 amin amax) in
  let v1 := GSVector4i.yxwz v0 in
  (GSVector4i.extract16 0 (GSVector4i.min_i16 v0 v1),
   GSVector4i.extract16 1 (GSVector4i.max_i16 v0 v1)).

(** [GetAlphaMinMax32(amin_out, amax_out)]: the two outputs and the state.
    (The [ASSERT(!m_read.dirty)] is compiled out of release builds.) *)
Definition GetAlphaMinMax32 (s : GSClut) : Z * Z * GSClut :=
  let s :=
    if ReadState.adirty (m_read s) then
      let s := set_m_read s (ReadState.mk (ReadState.TEX0 (m_read s)) (ReadState.TEXA (m_read s))
                               (ReadState.dirty (m_read s)) false
                               (ReadState.amin (m_read s)) (ReadState.amax (m_read s))) in
      if (m_psm_trbpp (CPSM (ReadState.TEX0 (m_read s))) =? 24)
         && (AEM (ReadState.TEXA (m_read s)) =? 0)
      then
        set_m_read s (ReadState.mk (ReadState.TEX0 (m_read s)) (ReadState.TEXA (m_read s))
                        (ReadState.dirty (m_read s)) (ReadState.adirty (m_read s))
                        (TA0 (ReadState.TEXA (m_read s))) (TA0 (ReadState.TEXA (m_read s))))
      else
        let p := m_buff32 s in
        let '(amin, amax) := GetAlphaMinMax32_scan p (m_psm_pal (PSM (ReadState.TEX0 (m_read s)))) in
        let '(lo, hi) := GetAlphaMinMax32_reduce amin amax in
        set_m_read s (ReadState.mk (ReadState.TEX0 (m_read s)) (ReadState.TEXA (m_read s))
                        (ReadState.dirty (m_read s)) (ReadState.adirty (m_read s)) lo hi)
    else s in
  (ReadState.amin (m_read s), ReadState.amax (m_read s), s).

(** *** Vocabulary of the properties *)

(** The order in which the shuffles of [WriteCLUT_T32_I4_CSM1] place the 16
    entries of a block: palette entry [k] of a group is source entry
    [T32_I4_order k] of the block. *)
Definition T32_I4_order (k : nat) : nat :=
  nth k [0; 1; 4; 5; 8; 9; 12; 13; 2; 3; 6; 7; 10; 11; 14; 15]%nat 0%nat.

(** The order in which the shuffles of [WriteCLUT_T16_I8_CSM1] place the 32
    entries of one pass of its loop: palette entry [k] of the pass is source
    entry [T16_I8_order k] of the pass. *)
Definition T16_I8_order (k : nat) : nat :=
  nth k [0; 2; 8; 10; 16; 18; 24; 26; 4; 6; 12; 14; 20; 22; 28; 30;
         1; 3; 9; 11; 17; 19; 25; 27; 5; 7; 13; 15; 21; 23; 29; 31]%nat 0%nat.

(** The 32-bit color the palette buffer holds for entry [a]: low half at
    [clut[a]], high half at [clut[a + 256]]. *)
Definition clut_entry32 (clut : list Z) (a : nat) : Z :=
  merge16 (rd clut a) (rd clut (a + 256)).

(** The alpha byte of a 32-bit color. *)
Definition alpha_of (c : Z) : Z := Z.shiftr c 24.

(** A tracked field of the incoming registers differs from the write-side
    snapshot: the two tests of [WriteState::IsDirty]. *)
Definition WriteState_differs (w : WriteState.t) (TEX0 TEXCLUT : Z) : bool :=
  negb (Z.land (Z.lxor (WriteState.TEX0 w) TEX0) 0x1FFFFFE000000000 =? 0)
  || negb (m_psm_bpp (PSM (WriteState.TEX0 w)) =? m_psm_bpp (PSM TEX0))
  || ((CSM TEX0 =? 1) && negb (Z.lxor (U32_0 TEXCLUT) (U32_0 (WriteState.TEXCLUT w)) =? 0)).

(** The positions of the palette buffer the load of group [i] writes. *)
Definition T32_I8_own (i j : nat) : Prop :=
  (16 * i <= j < 16 * i + 16 \/ 16 * i + 256 <= j < 16 * i + 272)%nat.

(** The block range [first .. last] meets the block range [start .. end]. *)
Definition blocks_meet (first last start_block end_block : Z) : Prop :=
  exists b, first <= b <= last /\ start_block <= b <= end_block.

(** The 32-bit color [Expand16] makes of the 16-bit palette entry [c]: one
    32-bit lane of [Expand16_px], for the alpha values [ta0] and [ta1]. *)
Definition Expand16_color (aem : bool) (ta0 ta1 c : Z) : Z :=
  nth 0 (GSVector4i.u32s
           (Expand16_px aem (GSVector4i.splat32 (Z.shiftl ta0 24))
              (GSVector4i.splat32 (Z.shiftl ta1 24))
              (GSVector4i.V c c c c c c c c))) 0.

(** The 32-bit color of the 16-bit entry [c] in closed form: the three 5-bit
    channels at the top of the bytes 0, 1 and 2, and the alpha byte that the
    register TEXA gives the entry. *)
Definition RGBA_of_16 (TEXA c : Z) : Z :=
  let a := if negb (AEM TEXA =? 0) && (c =? 0) then 0
           else if Z.testbit c 15 then TA1 TEXA else TA0 TEXA in
  Z.lor (Z.lor (Z.lor (Z.shiftl (Z.land c 0x1f) 3) (Z.shiftl (Z.land c 0x3e0) 6))
               (Z.shiftl (Z.land c 0x7c00) 9))
        (Z.shiftl a 24).

(** Byte [k] of a vector. *)
Definition byte (v : GSVector4i.t) (k : nat) : Z := nth k (GSVector4i.u8s v) 0.

(** [forall_bits n P acc]: [P] holds of every [acc * 2^n + x], [0 <= x < 2^n]. *)
Fixpoint forall_bits (n : nat) (P : Z -> bool) (acc : Z) : bool :=
  match n with
  | O => P acc
  | S n => forall_bits n P (2 * acc) && forall_bits n P (2 * acc + 1)
  end.

Definition u16 (x : Z) : Prop := 0 <= x < 65536.
Definition u32 (x : Z) : Prop := 0 <= x < 4294967296.

(** * Properties *)

(** ** Reading a buffer after a write *)

Lemma rd_inserts_in (p k : list Z) (i j : nat) :
  (i <= j < i + length k)%nat -> (j < length p)%nat ->
  rd (list_inserts i k p) j = rd k (j - i).
Proof. intros Hj Hp. unfold rd. now rewrite list_lookup_inserts. Qed.

Lemma rd_inserts_out (p k : list Z) (i j : nat) :
  (j < i \/ i + length k <= j)%nat -> rd (list_inserts i k p) j = rd p j.
Proof.
  intros [Hj | Hj]; unfold rd.
  - now rewrite list_lookup_inserts_lt.
  - now rewrite list_lookup_inserts_ge.
Qed.

Lemma length_store16 p b k v : length (GSVector4i.store16 p b k v) = length p.
Proof. apply length_inserts. Qed.

Lemma length_store32 p b k v : length (GSVector4i.store32 p b k v) = length p.
Proof. apply length_inserts. Qed.

Lemma length_store64 p b k v : length (GSVector4i.store64 p b k v) = length p.
Proof. apply length_inserts. Qed.

(** A fold of writes that each own a region of the buffer: every owned
    position holds what its owner wrote, every other position is untouched. *)
Section FoldBlocks.

Variable body : nat -> list Z -> list Z.
Variable own : nat -> nat -> Prop.
Variable val : nat -> nat -> Z.
Variable ok : nat -> Prop.
Variable n : nat.

Hypothesis body_length : forall i p, length (body i p) = length p.
Hypothesis body_own :
  forall i p j, ok i -> (n <= length p)%nat -> own i j -> rd (body i p) j = val i j.
Hypothesis body_other : forall i p j, ok i -> ~ own i j -> rd (body i p) j = rd p j.
Hypothesis own_disjoint : forall i i' j, ok i -> ok i' -> i <> i' -> own i j -> ~ own i' j.

Lemma fold_blocks_length (l : list nat) (p : list Z) :
  length (fold_left (fun acc i => body i acc) l p) = length p.
Proof.
  revert p. induction l as [|i l IH]; intros p; simpl; [reflexivity|].
  now rewrite IH, body_length.
Qed.

Lemma fold_blocks_other (l : list nat) (p : list Z) (j : nat) :
  (forall i, In i l -> ok i /\ ~ own i j) ->
  rd (fold_left (fun acc i => body i acc) l p) j = rd p j.
Proof.
  revert p. induction l as [|i l IH]; intros p Hl; simpl; [reflexivity|].
  rewrite IH by (intros i' Hi'; apply Hl; now right).
  apply body_other; apply Hl; now left.
Qed.

Lemma fold_blocks_own (l : list nat) (p : list Z) (i j : nat) :
  List.NoDup l -> (forall i', In i' l -> ok i') -> (n <= length p)%nat ->
  In i l -> own i j ->
  rd (fold_left (fun acc i => body i acc) l p) j = val i j.
Proof.
  revert p. induction l as [|i0 l IH]; intros p Hnd Hok Hp Hi Hj; simpl; [destruct Hi|].
  inversion Hnd as [|? ? Hnotin Hnd']; subst.
  destruct Hi as [-> | Hi].
  - rewrite fold_blocks_other.
    + apply body_own; auto. apply Hok; now left.
    + intros i' Hi'. split; [apply Hok; now right|].
      apply (own_disjoint i i' j); auto.
      * apply Hok; now left.
      * apply Hok; now right.
      * intros ->. contradiction.
  - apply IH; auto.
    + intros i' Hi'. apply Hok; now right.
    + now rewrite body_length.
Qed.

End FoldBlocks.

(** ** The 32-bit load and expansion helpers, entry by entry *)


Lemma rd_store16_in p b k v i :
  (b + 8 * k + 8 <= length p)%nat -> (i < 8)%nat ->
  rd (GSVector4i.store16 p b k v) (b + 8 * k + i) = nth i (GSVector4i.u16s v) 0.
Proof.
  intros Hp Hi. unfold GSVector4i.store16.
  rewrite rd_inserts_in by (cbn [length GSVector4i.u16s]; lia).
  replace (b + 8 * k + i - (b + 8 * k))%nat with i by lia.
  do 8 (destruct i as [|i]; [reflexivity|]). lia.
Qed.

Lemma rd_store16_out p b k v j :
  (j < b + 8 * k \/ b + 8 * k + 8 <= j)%nat ->
  rd (GSVector4i.store16 p b k v) j = rd p j.
Proof. intros Hj. unfold GSVector4i.store16. apply rd_inserts_out. cbn [length GSVector4i.u16s]. lia. Qed.


Lemma WriteCLUT_T32_I4_CSM1_eq src sb clut cb :
  WriteCLUT_T32_I4_CSM1 src sb clut cb =
  let x := fun j => rd src (sb + j) in
  GSVector4i.store16 (GSVector4i.store16 (GSVector4i.store16 (GSVector4i.store16 clut cb 0
    (GSVector4i.V (lo16 (x 0%nat)) (lo16 (x 1%nat)) (lo16 (x 4%nat)) (lo16 (x 5%nat))
                  (lo16 (x 8%nat)) (lo16 (x 9%nat)) (lo16 (x 12%nat)) (lo16 (x 13%nat)))) cb 1
    (GSVector4i.V (lo16 (x 2%nat)) (lo16 (x 3%nat)) (lo16 (x 6%nat)) (lo16 (x 7%nat))
                  (lo16 (x 10%nat)) (lo16 (x 11%nat)) (lo16 (x 14%nat)) (lo16 (x 15%nat)))) cb 32
    (GSVector4i.V (hi16 (x 0%nat)) (hi16 (x 1%nat)) (hi16 (x 4%nat)) (hi16 (x 5%nat))
                  (hi16 (x 8%nat)) (hi16 (x 9%nat)) (hi16 (x 12%nat)) (hi16 (x 13%nat)))) cb 33
    (GSVector4i.V (hi16 (x 2%nat)) (hi16 (x 3%nat)) (hi16 (x 6%nat)) (hi16 (x 7%nat))
                  (hi16 (x 10%nat)) (hi16 (x 11%nat)) (hi16 (x 14%nat)) (hi16 (x 15%nat))).
Proof.
  unfold WriteCLUT_T32_I4_CSM1, GSVector4i.load32.
  cbv zeta.
  replace (sb + 4 * 0)%nat with (sb + 0)%nat by lia.
  replace (sb + 4 * 1)%nat with (sb + 4)%nat by lia.
  replace (sb + 4 * 2)%nat with (sb + 8)%nat by lia.
  replace (sb + 4 * 3)%nat with (sb + 12)%nat by lia.
  rewrite <- !Nat.add_assoc. cbn [Nat.add].
  generalize (rd src (sb + 0)) (rd src (sb + 1)) (rd src (sb + 2)) (rd src (sb + 3))
    (rd src (sb + 4)) (rd src (sb + 5)) (rd src (sb + 6)) (rd src (sb + 7))
    (rd src (sb + 8)) (rd src (sb + 9)) (rd src (sb + 10)) (rd src (sb + 11))
    (rd src (sb + 12)) (rd src (sb + 13)) (rd src (sb + 14)) (rd src (sb + 15)).
  intros. 
  repeat match goal with |- context [lo16 ?z] => generalize (lo16 z); intro end.
  repeat match goal with |- context [hi16 ?z] => generalize (hi16 z); intro end.
  reflexivity.
Qed.

Lemma rd_store16_at p b k v j :
  (b + 8 * k <= j < b + 8 * k + 8)%nat -> (b + 8 * k + 8 <= length p)%nat ->
  rd (GSVector4i.store16 p b k v) j = nth (j - (b + 8 * k)) (GSVector4i.u16s v) 0.
Proof.
  intros Hj Hp. replace j with (b + 8 * k + (j - (b + 8 * k)))%nat at 1 by lia.
  apply rd_store16_in; lia.
Qed.

Ltac nth_index :=
  match goal with
  | |- context [nth ?i (_ _) _] =>
      first [ replace i with 0%nat by lia | replace i with 1%nat by lia
            | replace i with 2%nat by lia | replace i with 3%nat by lia
            | replace i with 4%nat by lia | replace i with 5%nat by lia
            | replace i with 6%nat by lia | replace i with 7%nat by lia ]
  end.

Ltac rd_store16s :=
  repeat first
    [ rewrite rd_store16_out by lia
    | rewrite rd_store16_at by (rewrite ?length_store16; lia) ].

Lemma WriteCLUT_T32_I4_CSM1_lo src sb clut cb k :
  (cb + 272 <= length clut)%nat -> (k < 16)%nat ->
  rd (WriteCLUT_T32_I4_CSM1 src sb clut cb) (cb + k) = lo16 (rd src (sb + T32_I4_order k)).
Proof.
  intros Hlen Hk. rewrite WriteCLUT_T32_I4_CSM1_eq. cbv zeta.
  do 16 (destruct k as [|k]; [ rd_store16s; nth_index; reflexivity | ]).
  lia.
Qed.

Lemma WriteCLUT_T32_I4_CSM1_hi src sb clut cb k :
  (cb + 272 <= length clut)%nat -> (k < 16)%nat ->
  rd (WriteCLUT_T32_I4_CSM1 src sb clut cb) (cb + 256 + k) = hi16 (rd src (sb + T32_I4_order k)).
Proof.
  intros Hlen Hk. rewrite WriteCLUT_T32_I4_CSM1_eq. cbv zeta.
  do 16 (destruct k as [|k]; [ rd_store16s; nth_index; reflexivity | ]).
  lia.
Qed.

Lemma WriteCLUT_T32_I4_CSM1_other src sb clut cb j :
  (j < cb \/ cb + 16 <= j < cb + 256 \/ cb + 272 <= j)%nat ->
  rd (WriteCLUT_T32_I4_CSM1 src sb clut cb) j = rd clut j.
Proof.
  intros Hj. rewrite WriteCLUT_T32_I4_CSM1_eq. cbv zeta.
  now rewrite !rd_store16_out by lia.
Qed.

Lemma length_WriteCLUT_T32_I4_CSM1 src sb clut cb :
  length (WriteCLUT_T32_I4_CSM1 src sb clut cb) = length clut.
Proof. rewrite WriteCLUT_T32_I4_CSM1_eq. cbv zeta. now rewrite !length_store16. Qed.

(** X25.  The two builds of [WriteCLUT_T32_I4_CSM1], the AVX2 one with two
    256-bit vectors and three [sw16] and the SSE one with four 128-bit vectors
    and [sw16], [sw32], [sw16], write the same palette buffer for every source
    and every palette buffer. *)
Lemma WriteCLUT_T32_I4_CSM1_AVX2_eq src sb clut cb :
  WriteCLUT_T32_I4_CSM1_AVX2 src sb clut cb = WriteCLUT_T32_I4_CSM1 src sb clut cb.
Proof.
  rewrite WriteCLUT_T32_I4_CSM1_eq.
  unfold WriteCLUT_T32_I4_CSM1_AVX2, GSVector8i.load32, GSVector4i.load32.
  cbv zeta.
  replace (sb + 4 * (2 * 0))%nat with (sb + 0)%nat by lia.
  replace (sb + 4 * (2 * 0 + 1))%nat with (sb + 4)%nat by lia.
  replace (sb + 4 * (2 * 1))%nat with (sb + 8)%nat by lia.
  replace (sb + 4 * (2 * 1 + 1))%nat with (sb + 12)%nat by lia.
  rewrite <- !Nat.add_assoc. cbn [Nat.add].
  cbv [GSVector8i.sw16 GSVector8i.acbd GSVector8i.upl16 GSVector8i.uph16
       GSVector8i.lo GSVector8i.hi GSVector8i.store16 GSVector4i.store16
       GSVector4i.upl16 GSVector4i.uph16 GSVector4i.u16s
       GSVector4i.u0 GSVector4i.u1 GSVector4i.u2 GSVector4i.u3
       GSVector4i.u4 GSVector4i.u5 GSVector4i.u6 GSVector4i.u7].
  cbn [app].
  replace (cb + 16 * 0)%nat with cb by lia.
  replace (cb + 16 * 16)%nat with (cb + 256)%nat by lia.
  replace (cb + 8 * 0)%nat with cb by lia.
  replace (cb + 8 * 1)%nat with (8 + cb)%nat by lia.
  replace (cb + 8 * 32)%nat with (cb + 256)%nat by lia.
  replace (cb + 8 * 33)%nat with (8 + (cb + 256))%nat by lia.
  rewrite <- !(list_inserts_app_l [_; _; _; _; _; _; _; _]).
  reflexivity.
Qed.

Lemma shiftl4_to_nat (i : nat) : Z.to_nat (Z.shiftl (Z.of_nat i) 4) = (16 * i)%nat.
Proof. rewrite Z.shiftl_mul_pow2 by lia. change (2 ^ 4) with 16. lia. Qed.

(** The groups of 16 entries the 8-bit-index load writes, starting at group
    [offset]: low halves in the first 256 entries, high halves in the next. *)
Lemma length_WriteCLUT_T32_I8_CSM1 src clut offset :
  length (WriteCLUT_T32_I8_CSM1 src clut offset) = length clut.
Proof.
  unfold WriteCLUT_T32_I8_CSM1, for_range.
  apply fold_blocks_length. intros. apply length_WriteCLUT_T32_I4_CSM1.
Qed.

Lemma WriteCLUT_T32_I8_CSM1_own src clut offset g j :
  (512 <= length clut)%nat -> (Z.to_nat offset <= g < 16)%nat -> T32_I8_own g j ->
  rd (WriteCLUT_T32_I8_CSM1 src clut offset) j =
  let s := Z.to_nat (WriteCLUT_T32_I8_CSM1_s (Z.shiftl (Z.of_nat g) 4)) in
  if (j <? 256)%nat then lo16 (rd src (s + T32_I4_order (j - 16 * g)))
  else hi16 (rd src (s + T32_I4_order (j - 16 * g - 256))).
Proof.
  intros Hlen Hg Hj. unfold WriteCLUT_T32_I8_CSM1, for_range.
  apply (fold_blocks_own _ T32_I8_own
           (fun g j =>
              let s := Z.to_nat (WriteCLUT_T32_I8_CSM1_s (Z.shiftl (Z.of_nat g) 4)) in
              if (j <? 256)%nat then lo16 (rd src (s + T32_I4_order (j - 16 * g)))
              else hi16 (rd src (s + T32_I4_order (j - 16 * g - 256))))
           (fun i => (i < 16)%nat) 512%nat); auto.
  - intros. apply length_WriteCLUT_T32_I4_CSM1.
  - intros i p j' Hi Hp [Hj' | Hj']; rewrite shiftl4_to_nat; cbv zeta.
    + destruct (Nat.ltb_spec j' 256); [|lia].
      replace j' with (16 * i + (j' - 16 * i))%nat at 1 by lia.
      apply WriteCLUT_T32_I4_CSM1_lo; lia.
    + destruct (Nat.ltb_spec j' 256); [lia|].
      replace j' with (16 * i + 256 + (j' - 16 * i - 256))%nat at 1 by lia.
      apply WriteCLUT_T32_I4_CSM1_hi; lia.
  - intros i p j' Hi Hj'. rewrite shiftl4_to_nat.
    apply WriteCLUT_T32_I4_CSM1_other. unfold T32_I8_own in Hj'. lia.
  - unfold T32_I8_own. intros. lia.
  - apply seq_NoDup.
  - intros i' Hi'. apply in_seq in Hi'. lia.
  - apply in_seq. lia.
Qed.

Lemma WriteCLUT_T32_I8_CSM1_other src clut offset j :
  (forall g, (Z.to_nat offset <= g < 16)%nat -> ~ T32_I8_own g j) ->
  rd (WriteCLUT_T32_I8_CSM1 src clut offset) j = rd clut j.
Proof.
  intros Hj. unfold WriteCLUT_T32_I8_CSM1, for_range.
  apply (fold_blocks_other _ T32_I8_own (fun i => (i < 16)%nat)).
  - intros i p j' Hi Hj'. rewrite shiftl4_to_nat.
    apply WriteCLUT_T32_I4_CSM1_other. unfold T32_I8_own in Hj'. lia.
  - intros i Hi. apply in_seq in Hi. split; [lia|]. apply Hj. lia.
Qed.

Lemma rd_store32_at p b k v j :
  (b + 4 * k <= j < b + 4 * k + 4)%nat -> (b + 4 * k + 4 <= length p)%nat ->
  rd (GSVector4i.store32 p b k v) j = nth (j - (b + 4 * k)) (GSVector4i.u32s v) 0.
Proof.
  intros Hj Hp. unfold GSVector4i.store32.
  rewrite rd_inserts_in by (cbn [length GSVector4i.u32s]; lia).
  remember (j - (b + 4 * k))%nat as i eqn:Hi.
  assert (i < 4)%nat as Hlt by lia. clear -Hlt.
  do 4 (destruct i as [|i]; [reflexivity|]). lia.
Qed.

Lemma rd_store32_out p b k v j :
  (j < b + 4 * k \/ b + 4 * k + 4 <= j)%nat ->
  rd (GSVector4i.store32 p b k v) j = rd p j.
Proof.
  intros Hj. unfold GSVector4i.store32. apply rd_inserts_out.
  cbn [length GSVector4i.u32s]. lia.
Qed.

Ltac rd_store32s :=
  repeat first
    [ rewrite rd_store32_out by lia
    | rewrite rd_store32_at by (rewrite ?length_store32; lia) ].

Lemma length_ReadCLUT_T32_I4 clut cb dst db :
  length (ReadCLUT_T32_I4 clut cb dst db) = length dst.
Proof. unfold ReadCLUT_T32_I4. cbv [GSVector4i.sw16]. now rewrite !length_store32. Qed.

Lemma ReadCLUT_T32_I4_at clut cb dst db k :
  (db + 16 <= length dst)%nat -> (k < 16)%nat ->
  rd (ReadCLUT_T32_I4 clut cb dst db) (db + k) = clut_entry32 clut (cb + k).
Proof.
  intros Hlen Hk. unfold ReadCLUT_T32_I4, clut_entry32. cbv [GSVector4i.sw16].
  do 16 (destruct k as [|k];
         [ rd_store32s; nth_index;
           cbv [nth GSVector4i.u32s GSVector4i.upl16 GSVector4i.uph16 GSVector4i.load16
                GSVector4i.u0 GSVector4i.u1 GSVector4i.u2 GSVector4i.u3
                GSVector4i.u4 GSVector4i.u5 GSVector4i.u6 GSVector4i.u7];
           do 2 f_equal; lia | ]).
  lia.
Qed.

Lemma ReadCLUT_T32_I4_other clut cb dst db j :
  (j < db \/ db + 16 <= j)%nat ->
  rd (ReadCLUT_T32_I4 clut cb dst db) j = rd dst j.
Proof.
  intros Hj. unfold ReadCLUT_T32_I4. cbv [GSVector4i.sw16].
  now rewrite !rd_store32_out by lia.
Qed.

Lemma length_ReadCLUT_T32_I8 clut dst offset :
  length (ReadCLUT_T32_I8 clut dst offset) = length dst.
Proof.
  unfold ReadCLUT_T32_I8, for_step.
  apply fold_blocks_length. intros. apply length_ReadCLUT_T32_I4.
Qed.

(** Group [g] of the expansion is the 16 palette colors from
    [ReadCLUT_T32_I8_base (16 g) offset] on. *)
Lemma ReadCLUT_T32_I8_at clut dst offset g k :
  (256 <= length dst)%nat -> (g < 16)%nat -> (k < 16)%nat ->
  rd (ReadCLUT_T32_I8 clut dst offset) (16 * g + k) =
  clut_entry32 clut (Z.to_nat (ReadCLUT_T32_I8_base (Z.of_nat (16 * g)) offset) + k).
Proof.
  intros Hlen Hg Hk. unfold ReadCLUT_T32_I8, for_step.
  etransitivity.
  apply (fold_blocks_own _ (fun i j => (i <= j < i + 16)%nat)
           (fun i j => clut_entry32 clut
                         (Z.to_nat (ReadCLUT_T32_I8_base (Z.of_nat i) offset) + (j - i)))
           (fun i => (i <= 240 /\ Nat.divide 16 i)%nat) 256%nat) with (i := (16 * g)%nat).
  - intros. apply length_ReadCLUT_T32_I4.
  - intros i p j [Hi _] Hp Hj.
    replace j with (i + (j - i))%nat at 1 by lia.
    apply ReadCLUT_T32_I4_at; lia.
  - intros i p j _ Hj. apply ReadCLUT_T32_I4_other. lia.
  - intros i i' j [_ [a ->]] [_ [b ->]] Hne Hj. lia.
  - apply Injective_map_NoDup; [|apply seq_NoDup]. intros a b Hab. lia.
  - intros i' Hi'. apply in_map_iff in Hi' as [a [<- Ha]]. apply in_seq in Ha.
    split; [lia|]. exists a. lia.
  - lia.
  - apply in_map_iff. exists g. split; [reflexivity|]. apply in_seq. lia.
  - lia.
  - cbv beta. do 2 f_equal. lia.
Qed.

(** ** Halves of a 32-bit word *)

Lemma merge16_split_wrap (x : Z) : merge16 (lo16 x) (hi16 x) = wrap32 x.
Proof.
  unfold merge16, lo16, hi16, wrap32.
  change 65535 with (Z.ones 16). change 4294967295 with (Z.ones 32).
  apply Z.bits_inj'. intros n Hn.
  rewrite Z.lor_spec, !Z.land_spec, !Z.testbit_ones_nonneg by lia.
  destruct (Z.ltb_spec n 16) as [Hlt | Hge].
  - rewrite Z.shiftl_spec_low by lia.
    destruct (Z.ltb_spec n 32); [|lia]. now rewrite orb_false_r.
  - rewrite Z.shiftl_spec, Z.land_spec, Z.shiftr_spec by lia.
    rewrite Z.testbit_ones_nonneg by lia.
    replace (n - 16 + 16) with n by lia.
    rewrite andb_false_r. cbn [orb].
    destruct (Z.ltb_spec (n - 16) 16), (Z.ltb_spec n 32); try lia; reflexivity.
Qed.

Lemma wrap32_u32 (x : Z) : u32 x -> wrap32 x = x.
Proof.
  unfold u32, wrap32. intros Hx. change 4294967295 with (Z.ones 32).
  rewrite Z.land_ones by lia. apply Z.mod_small. change (2 ^ 32) with 4294967296. lia.
Qed.

Lemma merge16_split (x : Z) : u32 x -> merge16 (lo16 x) (hi16 x) = x.
Proof. intros Hx. now rewrite merge16_split_wrap, wrap32_u32. Qed.

Lemma rd_u32 (p : list Z) (i : nat) : List.Forall u32 p -> u32 (rd p i).
Proof.
  intros Hp. unfold rd. destruct (p !! i) as [x|] eqn:Hx; cbn.
  - rewrite List.Forall_forall in Hp. apply Hp.
    apply list_elem_of_In. eapply list_elem_of_lookup_2. eassumption.
  - unfold u32. lia.
Qed.

Lemma land15_range (x : Z) : 0 <= Z.land x 15 < 16.
Proof.
  change 15 with (Z.ones 4). rewrite Z.land_ones by lia.
  change (2 ^ 4) with 16. apply Z.mod_pos_bound. lia.
Qed.

Lemma shiftl4_mul (x : Z) : Z.shiftl x 4 = 16 * x.
Proof. rewrite Z.shiftl_mul_pow2 by lia. change (2 ^ 4) with 16. lia. Qed.

(** ** The load and the expansion of a 256-entry 32-bit palette *)

(** The load at column-select 0 followed by the expansion at offset 0, for
    any source words: each expanded color is a source word, cut to 32 bits. *)
Lemma load_expand_T32_I8_wrap (src clut dst : list Z) (g k : nat) :
  (512 <= length clut)%nat -> (256 <= length dst)%nat ->
  (g < 16)%nat -> (k < 16)%nat ->
  rd (ReadCLUT_T32_I8 (WriteCLUT_T32_I8_CSM1 src clut 0) dst 0) (16 * g + k) =
  wrap32 (rd src (Z.to_nat (WriteCLUT_T32_I8_CSM1_s (Z.shiftl (Z.of_nat g) 4))
                  + T32_I4_order k)).
Proof.
  intros Hclut Hdst Hg Hk.
  rewrite ReadCLUT_T32_I8_at by assumption.
  unfold ReadCLUT_T32_I8_base, clut_entry32.
  replace (Z.to_nat (Z.min (Z.of_nat (16 * g) + 0) 240)) with (16 * g)%nat by lia.
  rewrite !WriteCLUT_T32_I8_CSM1_own with (g := g)
    by (try assumption; unfold T32_I8_own; lia).
  cbv zeta.
  destruct (Nat.ltb_spec (16 * g + k) 256); [|lia].
  destruct (Nat.ltb_spec (16 * g + k + 256) 256); [lia|].
  replace (16 * g + k - 16 * g)%nat with k by lia.
  replace (16 * g + k + 256 - 16 * g - 256)%nat with k by lia.
  apply merge16_split_wrap.
Qed.


Lemma rd_ramp (m i : nat) :
  rd (Examples.ramp m) i = if (i <? m)%nat then Z.of_nat i else 0.
Proof.
  unfold rd, Examples.ramp.
  change (map Z.of_nat (seq 0 m)) with (Z.of_nat <$> seq 0 m).
  rewrite list_lookup_fmap.
  destruct (Nat.ltb_spec i m) as [Hlt | Hge].
  - now rewrite lookup_seq_lt.
  - now rewrite lookup_seq_ge.
Qed.

(** Whatever the table [clutTableT32I8] holds, the load and the expansion of
    the palette whose source word [i] is [i] do not give the source order
    back: the expanded color 2 is the word 4 of its column. *)
Lemma load_expand_T32_I8_not_identity :
  ReadCLUT_T32_I8 (WriteCLUT_T32_I8_CSM1 (Examples.ramp 256) (repeat 0 1024) 0)
    (repeat 0 256) 0 <> Examples.ramp 256.
Proof.
  intros H.
  assert (E := load_expand_T32_I8_wrap (Examples.ramp 256) (repeat 0 1024) (repeat 0 256) 0 2).
  rewrite H, !rd_ramp, !repeat_length in E.
  change (T32_I4_order 2) with 4%nat in E.
  destruct (Nat.ltb_spec (Z.to_nat (WriteCLUT_T32_I8_CSM1_s (Z.shiftl (Z.of_nat 0) 4)) + 4) 256)
    as [Hlt | Hge].
  - rewrite wrap32_u32 in E by (unfold u32; lia).
    assert (Z.of_nat 2 = Z.of_nat (Z.to_nat (WriteCLUT_T32_I8_CSM1_s (Z.shiftl (Z.of_nat 0) 4)) + 4))
      by (apply E; lia).
    lia.
  - assert (Z.of_nat 2 = wrap32 0) as E' by (apply E; lia). discriminate E'.
Qed.

(** C4 (as amended).  In the expansion of an 8-bit-index palette for 32-bit
    storage, color [16 g + k] is read from the palette entry
    [min (16 g + offset, 240) + k], for the offset [(CSA & 15) << 4] of any
    register value.  The start of a group of 16 colors is what is clamped, the
    position [k] inside the group is kept: a group that starts at or before
    entry 240 is read where it is asked for, entries 241 to 255 included; a
    group that would start past entry 240 is read from the entries 240 to 255
    and not from the position wrapped around the 256 entries. *)
Theorem ReadCLUT_T32_I8_clamps (clut dst : list Z) (TEX0 : Z) (g k : nat) :
  (256 <= length dst)%nat -> (g < 16)%nat -> (k < 16)%nat ->
  let offset := Z.shiftl (Z.land (CSA TEX0) 15) 4 in
  let start := Z.of_nat (16 * g) + offset in
  let entry := (Z.to_nat (Z.min start 240) + k)%nat in
  rd (ReadCLUT_T32_I8 clut dst offset) (16 * g + k) = clut_entry32 clut entry
  /\ (start <= 240 -> Z.of_nat entry = start + Z.of_nat k)
  /\ (240 < start ->
      entry = (240 + k)%nat /\ Z.of_nat entry <> (start + Z.of_nat k) mod 256)
  /\ (entry <= 255)%nat.
Proof.
  intros Hdst Hg Hk offset start entry.
  assert (Hat := ReadCLUT_T32_I8_at clut dst offset g k Hdst Hg Hk).
  unfold ReadCLUT_T32_I8_base in Hat. fold start in Hat. fold entry in Hat.
  assert (Hoff : exists c, 0 <= c < 16 /\ offset = 16 * c).
  { exists (Z.land (CSA TEX0) 15). split; [apply land15_range|apply shiftl4_mul]. }
  destruct Hoff as [c [Hc Hoff]].
  split; [exact Hat|]. split; [|split].
  - intros Hle. subst entry. rewrite Z.min_l by assumption. subst start. lia.
  - intros Hgt. subst entry. rewrite Z.min_r by lia. split; [reflexivity|].
    subst start. rewrite Hoff in Hgt |- *.
    replace (Z.of_nat (16 * g) + 16 * c + Z.of_nat k)
      with (Z.of_nat (16 * g) + 16 * c + Z.of_nat k - 256 + 1 * 256) by lia.
    rewrite Z_mod_plus_full, Z.mod_small by lia. lia.
  - subst entry. lia.
Qed.

(** ** The reload decision *)

(** C2.  A register whose pixel format is not an indexed one (the low three
    bits of PSM below 3) never reloads and changes nothing: both base-pointer
    slots and the write-side snapshot stay as they were, whatever the load
    mode CLD of the register is. *)
Theorem WriteTest_non_indexed (s : GSClut) (TEX0 TEXCLUT : Z) :
  Z.land (PSM TEX0) 7 < 3 ->
  let r := WriteTest s TEX0 TEXCLUT in
  fst r = false
  /\ m_CBP_0 (snd r) = m_CBP_0 s
  /\ m_CBP_1 (snd r) = m_CBP_1 s
  /\ m_write (snd r) = m_write s
  /\ snd r = s.
Proof.
  intros Hpsm r. subst r. unfold WriteTest.
  destruct (Z.ltb_spec (Z.land (PSM TEX0) 7) 3) as [_ | Hge]; [|lia].
  cbn [fst snd]. repeat split.
Qed.

(** C6.  With an indexed pixel format, the load modes 6 and 7 never reload,
    whatever the registers and the stored snapshot are, and leave the state
    as it was. *)
Theorem WriteTest_CLD_6_7 (s : GSClut) (TEX0 TEXCLUT : Z) :
  3 <= Z.land (PSM TEX0) 7 -> CLD TEX0 = 6 \/ CLD TEX0 = 7 ->
  WriteTest s TEX0 TEXCLUT = (false, s).
Proof.
  intros Hpsm Hcld. unfold WriteTest.
  destruct (Z.ltb_spec (Z.land (PSM TEX0) 7) 3) as [Hlt | _]; [lia|].
  destruct Hcld as [-> | ->]; reflexivity.
Qed.


(** ** The load *)

(** A load routine writes the palette buffer and nothing else, and what it
    writes depends on the palette buffer alone. *)
Lemma call_WriteRoutine_eq (r : WriteRoutine) (s : GSClut) (TEX0 TEXCLUT : Z) :
  call_WriteRoutine r s TEX0 TEXCLUT =
  set_m_clut s (m_clut (call_WriteRoutine r s TEX0 TEXCLUT)).
Proof. destruct r; reflexivity. Qed.

Lemma call_WriteRoutine_m_clut (r : WriteRoutine) (s s' : GSClut) (TEX0 TEXCLUT : Z) :
  m_clut s = m_clut s' ->
  m_clut (call_WriteRoutine r s TEX0 TEXCLUT) = m_clut (call_WriteRoutine r s' TEX0 TEXCLUT).
Proof. intros H. destruct r; cbn [call_WriteRoutine set_m_clut m_clut]; now rewrite H. Qed.

Lemma Write_eq (s : GSClut) (TEX0 TEXCLUT : Z) :
  Write s TEX0 TEXCLUT =
  mkGSClut (m_CBP_0 s) (m_CBP_1 s)
    (m_clut (call_WriteRoutine (m_wc (CSM TEX0) (CPSM TEX0) (PSM TEX0)) s TEX0 TEXCLUT))
    (m_buff32 s) (m_buff64 s)
    (WriteState.mk TEX0 TEXCLUT false)
    (ReadState.mk (ReadState.TEX0 (m_read s)) (ReadState.TEXA (m_read s)) true
       (ReadState.adirty (m_read s)) (ReadState.amin (m_read s)) (ReadState.amax (m_read s))).
Proof.
  unfold Write. rewrite call_WriteRoutine_eq. unfold set_m_clut. f_equal.
  apply call_WriteRoutine_m_clut. reflexivity.
Qed.

(** C9.  The load sets the write-side snapshot to the incoming registers,
    clears the write-side dirty flag and sets the read-side dirty flag, for
    every state and every pair of registers; the palette buffer is the only
    other thing it changes, so the read side is dirty whenever a load has
    written the palette. *)
Theorem Write_effects (s : GSClut) (TEX0 TEXCLUT : Z) :
  let s' := Write s TEX0 TEXCLUT in
  WriteState.TEX0 (m_write s') = TEX0
  /\ WriteState.TEXCLUT (m_write s') = TEXCLUT
  /\ WriteState.dirty (m_write s') = false
  /\ ReadState.dirty (m_read s') = true
  /\ m_clut s' = m_clut (call_WriteRoutine (m_wc (CSM TEX0) (CPSM TEX0) (PSM TEX0)) s TEX0 TEXCLUT)
  /\ m_CBP_0 s' = m_CBP_0 s /\ m_CBP_1 s' = m_CBP_1 s
  /\ m_buff32 s' = m_buff32 s /\ m_buff64 s' = m_buff64 s.
Proof. intros s'. subst s'. rewrite Write_eq. cbn. repeat split. Qed.

(** ** The dirty-check of the reload decision *)

Lemma WriteState_IsDirty_eq (w : WriteState.t) (TEX0 TEXCLUT : Z) :
  WriteState_IsDirty w TEX0 TEXCLUT =
  let d := WriteState.dirty w || WriteState_differs w TEX0 TEXCLUT in
  (d, if d then w else WriteState.mk TEX0 TEXCLUT false).
Proof.
  unfold WriteState_IsDirty, WriteState_differs.
  destruct (WriteState.dirty w);
    destruct (negb (Z.land (Z.lxor (WriteState.TEX0 w) TEX0) 0x1FFFFFE000000000 =? 0));
    destruct (negb (m_psm_bpp (PSM (WriteState.TEX0 w)) =? m_psm_bpp (PSM TEX0)));
    destruct (CSM TEX0 =? 1);
    destruct (negb (Z.lxor (U32_0 TEXCLUT) (U32_0 (WriteState.TEXCLUT w)) =? 0));
    reflexivity.
Qed.

(** C3 (as amended).  The dirty-check answers "dirty" when the write-side
    dirty flag is set or a tracked field of the incoming registers differs
    from the snapshot.  When it answers "not dirty" the tracked fields of the
    snapshot are equal to the incoming ones and the snapshot is overwritten
    with the incoming registers (so its untracked fields take the incoming
    values; the dirty flag stays clear).  When it answers "dirty" the check
    itself leaves the snapshot as it was, and the load ([Write]) sets the
    snapshot to the incoming registers and runs the routine of the dispatch
    table on the palette buffer. *)
Theorem WriteState_IsDirty_snapshot (s : GSClut) (TEX0 TEXCLUT : Z) :
  let w := m_write s in
  let r := WriteState_IsDirty w TEX0 TEXCLUT in
  fst r = (WriteState.dirty w || WriteState_differs w TEX0 TEXCLUT)
  /\ (fst r = false ->
      snd r = WriteState.mk TEX0 TEXCLUT false
      /\ WriteState.dirty w = false
      /\ Z.land (Z.lxor (WriteState.TEX0 w) TEX0) 0x1FFFFFE000000000 = 0
      /\ m_psm_bpp (PSM (WriteState.TEX0 w)) = m_psm_bpp (PSM TEX0)
      /\ (CSM TEX0 = 1 -> U32_0 TEXCLUT = U32_0 (WriteState.TEXCLUT w)))
  /\ (fst r = true ->
      snd r = w
      /\ m_write (Write s TEX0 TEXCLUT) = WriteState.mk TEX0 TEXCLUT false
      /\ m_clut (Write s TEX0 TEXCLUT) =
         m_clut (call_WriteRoutine (m_wc (CSM TEX0) (CPSM TEX0) (PSM TEX0)) s TEX0 TEXCLUT)).
Proof.
  intros w r. subst r. rewrite WriteState_IsDirty_eq. cbv zeta. cbn [fst snd].
  split; [reflexivity|]. split; intros Hd; rewrite Hd.
  - split; [reflexivity|].
    apply orb_false_elim in Hd as [Hdirty Hdiff]. split; [assumption|].
    unfold WriteState_differs in Hdiff.
    apply orb_false_elim in Hdiff as [Hdiff Hclut].
    apply orb_false_elim in Hdiff as [Hmask Hbpp].
    apply negb_false_iff in Hmask, Hbpp. apply Z.eqb_eq in Hmask, Hbpp.
    repeat split; try assumption.
    intros Hcsm. apply Z.eqb_eq in Hcsm. rewrite Hcsm in Hclut. cbn [andb] in Hclut.
    apply negb_false_iff, Z.eqb_eq in Hclut. now apply Z.lxor_eq.
  - split; [reflexivity|]. rewrite Write_eq. cbn. split; reflexivity.
Qed.

(** ** Invalidation of a block range *)

Lemma InvalidateRange_blocks_eq (s : GSClut) :
  InvalidateRange_blocks s =
  (if m_psm_bpp (CPSM (WriteState.TEX0 (m_write s))) =? 16
   then if m_psm_bpp (PSM (WriteState.TEX0 (m_write s))) =? 4 then 1 else 2
   else if m_psm_bpp (PSM (WriteState.TEX0 (m_write s))) =? 4 then 2 else 4).
Proof.
  unfold InvalidateRange_blocks.
  destruct (m_psm_bpp (CPSM (WriteState.TEX0 (m_write s))) =? 16);
    destruct (m_psm_bpp (PSM (WriteState.TEX0 (m_write s))) =? 4); reflexivity.
Qed.

(** The test of [InvalidateRange] on a range that is not empty.  With
    [blocks] the footprint of the tracked palette (4 blocks, halved when the
    color storage format has 16 bits per pixel, halved again when the pixel
    format has 4), the write-side dirty flag is set when the range meets the
    blocks [CBP .. CBP + blocks], the upper end included: the footprint
    [CBP .. CBP + blocks - 1] and the block after it. *)
Lemma InvalidateRange_dirty (s : GSClut) (start_block end_block : Z) :
  start_block <= end_block ->
  let cbp := CBP (WriteState.TEX0 (m_write s)) in
  let blocks := InvalidateRange_blocks s in
  let s' := InvalidateRange s start_block end_block in
  blocks =
    (if m_psm_bpp (CPSM (WriteState.TEX0 (m_write s))) =? 16
     then if m_psm_bpp (PSM (WriteState.TEX0 (m_write s))) =? 4 then 1 else 2
     else if m_psm_bpp (PSM (WriteState.TEX0 (m_write s))) =? 4 then 2 else 4)
  /\ (blocks_meet cbp (cbp + blocks) start_block end_block ->
      WriteState.dirty (m_write s') = true /\ s' = Invalidate s)
  /\ (~ blocks_meet cbp (cbp + blocks) start_block end_block -> s' = s)
  /\ (WriteState.dirty (m_write s') = true <->
      WriteState.dirty (m_write s) = true
      \/ blocks_meet cbp (cbp + blocks) start_block end_block).
Proof.
  intros Hrange cbp blocks s'. subst s'.
  split; [apply InvalidateRange_blocks_eq|].
  unfold InvalidateRange.
  fold blocks. fold cbp.
  assert (Hmeet : blocks_meet cbp (cbp + blocks) start_block end_block <->
                  start_block <= cbp + blocks /\ cbp <= end_block).
  { unfold blocks_meet. split.
    - intros [b Hb]. lia.
    - intros [H1 H2]. exists (Z.max cbp start_block). 
      assert (0 <= blocks).
      { subst blocks. rewrite InvalidateRange_blocks_eq.
        destruct (_ =? 16); destruct (_ =? 4); lia. }
      lia. }
  assert (Hmiss : ~ (start_block <= cbp + blocks /\ cbp <= end_block) ->
                  (blocks_meet cbp (cbp + blocks) start_block end_block -> True /\ s = Invalidate s)
                  /\ (~ blocks_meet cbp (cbp + blocks) start_block end_block -> s = s)
                  /\ (WriteState.dirty (m_write s) = true <->
                      WriteState.dirty (m_write s) = true
                      \/ blocks_meet cbp (cbp + blocks) start_block end_block)).
  { intros Hn. split; [|split].
    - intros Hm. apply Hmeet in Hm. contradiction.
    - reflexivity.
    - split; [now left|]. intros [Hd | Hm]; [assumption|]. apply Hmeet in Hm. contradiction. }
  destruct (Z.leb_spec start_block (cbp + blocks)) as [H1|H1];
    destruct (Z.leb_spec cbp end_block) as [H2|H2]; cbn [andb].
  - split; [|split].
    + intros _. split; reflexivity.
    + intros Hn. exfalso. apply Hn, Hmeet. lia.
    + split; [|reflexivity]. intros _. right. apply Hmeet. lia.
  - destruct Hmiss as [M1 [M2 M3]]; [lia|]. split; [|split]; try assumption.
    intros Hm. apply Hmeet in Hm. lia.
  - destruct Hmiss as [M1 [M2 M3]]; [lia|]. split; [|split]; try assumption.
    intros Hm. apply Hmeet in Hm. lia.
  - destruct Hmiss as [M1 [M2 M3]]; [lia|]. split; [|split]; try assumption.
    intros Hm. apply Hmeet in Hm. lia.
Qed.

(** ** The dirty-check of the expansion *)

(** C10.  When the color storage format of the incoming register is 32-bit
    (CPSM = PSMCT32), the read-side dirty-check does not look at TEXA: with
    the read-side dirty flag clear and the tracked bits of TEX0 and the bit
    depth of its pixel format as in the snapshot, it answers "not dirty" for
    every TEXA, and [Read32] expands nothing: the buffers stay as they were
    and the dirty flag stays clear. *)
Theorem ReadState_IsDirty_ignores_TEXA (s : GSClut) (TEX0 TEXA : Z) :
  ReadState.dirty (m_read s) = false ->
  Z.land (Z.lxor (ReadState.TEX0 (m_read s)) TEX0) 0x1FFFFFE000000000 = 0 ->
  m_psm_bpp (PSM (ReadState.TEX0 (m_read s))) = m_psm_bpp (PSM TEX0) ->
  CPSM TEX0 = PSM_PSMCT32 ->
  fst (ReadState_IsDirty (m_read s) TEX0 TEXA) = false
  /\ Read32 s TEX0 TEXA =
     set_m_read s (ReadState.mk TEX0 TEXA false (ReadState.adirty (m_read s))
                     (ReadState.amin (m_read s)) (ReadState.amax (m_read s)))
  /\ m_buff32 (Read32 s TEX0 TEXA) = m_buff32 s
  /\ m_buff64 (Read32 s TEX0 TEXA) = m_buff64 s
  /\ m_clut (Read32 s TEX0 TEXA) = m_clut s
  /\ ReadState.dirty (m_read (Read32 s TEX0 TEXA)) = false.
Proof.
  intros Hd Hmask Hbpp Hcpsm.
  assert (Hcheck : ReadState_IsDirty (m_read s) TEX0 TEXA =
                   (false, ReadState.mk TEX0 TEXA false (ReadState.adirty (m_read s))
                             (ReadState.amin (m_read s)) (ReadState.amax (m_read s)))).
  { unfold ReadState_IsDirty. rewrite Hd, Hmask, Hbpp, Hcpsm, !Z.eqb_refl.
    reflexivity. }
  unfold Read32. rewrite Hcheck. cbn. repeat split.
Qed.

Lemma ReadState_IsDirty_dirty (r : ReadState.t) (TEX0 TEXA : Z) :
  ReadState.dirty r = true -> ReadState_IsDirty r TEX0 TEXA = (true, r).
Proof.
  intros Hd. unfold ReadState_IsDirty. rewrite Hd. cbv zeta.
  destruct (negb (Z.land (Z.lxor (ReadState.TEX0 r) TEX0) 0x1FFFFFE000000000 =? 0)
            || negb (m_psm_bpp (PSM (ReadState.TEX0 r)) =? m_psm_bpp (PSM TEX0)));
    [reflexivity|].
  destruct ((CPSM TEX0 =? PSM_PSMCT24)
            && negb (Z.land (Z.lxor (ReadState.TEXA r) TEXA) 0x80FF =? 0));
    [reflexivity|].
  destruct ((PSM_PSMCT16 <=? CPSM TEX0)
            && negb (Z.land (Z.lxor (ReadState.TEXA r) TEXA) 0xFF000080FF =? 0));
    reflexivity.
Qed.

(** The load and the expansion through the object: after [Write] of an
    8-bit-index, 32-bit palette at column-select 0, [Read32] expands (the
    load has set the read-side dirty flag) and the expanded buffer holds the
    words of video memory at the base pointer, in the order of the load. *)
Lemma Write_Read32_T32_I8 (s : GSClut) (TEX0 TEXCLUT TEXA : Z) (g k : nat) :
  CSM TEX0 = 0 -> CPSM TEX0 = PSM_PSMCT32 -> PSM TEX0 = PSM_PSMT8 ->
  Z.land (CSA TEX0) 15 = 0 ->
  List.Forall u32 (BlockPtr32 (CBP TEX0)) ->
  (512 <= length (m_clut s))%nat -> (256 <= length (m_buff32 s))%nat ->
  (g < 16)%nat -> (k < 16)%nat ->
  rd (m_buff32 (Read32 (Write s TEX0 TEXCLUT) TEX0 TEXA)) (16 * g + k) =
  rd (BlockPtr32 (CBP TEX0))
     (Z.to_nat (WriteCLUT_T32_I8_CSM1_s (Z.shiftl (Z.of_nat g) 4)) + T32_I4_order k).
Proof.
  intros Hcsm Hcpsm Hpsm Hcsa Hsrc Hclut Hbuf Hg Hk.
  rewrite Write_eq. unfold Read32. cbn [m_read].
  rewrite ReadState_IsDirty_dirty by reflexivity.
  rewrite Hcsm, Hcpsm, Hpsm.
  change (m_wc 0 PSM_PSMCT32 PSM_PSMT8) with R_WriteCLUT32_I8_CSM1.
  change ((PSM_PSMCT32 =? PSM_PSMCT32) || (PSM_PSMCT32 =? PSM_PSMCT24)) with true.
  change (is_T8 PSM_PSMT8) with true.
  cbv iota. cbn [set_m_read set_m_buff32 m_buff32 m_clut call_WriteRoutine set_m_clut].
  unfold WriteCLUT32_I8_CSM1. rewrite Hcsa.
  rewrite load_expand_T32_I8_wrap by assumption.
  apply wrap32_u32. now apply rd_u32.
Qed.

(** ** Exhaustive checks over a machine word *)

Lemma forall_bits_sound (n : nat) (P : Z -> bool) (acc : Z) :
  forall_bits n P acc = true ->
  forall x, acc * 2 ^ Z.of_nat n <= x < (acc + 1) * 2 ^ Z.of_nat n -> P x = true.
Proof.
  revert acc. induction n as [|n IH]; intros acc H x Hx.
  - cbn [forall_bits] in H. change (2 ^ Z.of_nat 0) with 1 in Hx.
    replace x with acc by lia. exact H.
  - cbn [forall_bits] in H. apply andb_prop in H as [H0 H1].
    rewrite Nat2Z.inj_succ, Z.pow_succ_r in Hx by lia.
    assert (0 < 2 ^ Z.of_nat n) by (apply Z.pow_pos_nonneg; lia).
    destruct (Z.lt_ge_cases x ((2 * acc + 1) * 2 ^ Z.of_nat n)).
    + apply (IH _ H0). nia.
    + apply (IH _ H1). nia.
Qed.

Lemma forall_u16 (P : Z -> bool) :
  forall_bits 16 P 0 = true -> forall c, u16 c -> P c = true.
Proof.
  intros H c Hc. apply (forall_bits_sound 16 P 0 H).
  unfold u16 in Hc. change (2 ^ Z.of_nat 16) with 65536. lia.
Qed.

Lemma forall_u8 (P : Z -> bool) :
  forall_bits 8 P 0 = true -> forall t, 0 <= t < 256 -> P t = true.
Proof.
  intros H t Ht. apply (forall_bits_sound 8 P 0 H).
  change (2 ^ Z.of_nat 8) with 256. lia.
Qed.

(** ** The expansion of 16-bit entries *)

(** Every 32-bit lane of [Expand16_px] is the color of its own entry. *)
Lemma Expand16_px_lanes (aem : bool) (ta0 ta1 c0 c1 c2 c3 : Z) :
  GSVector4i.u32s
    (Expand16_px aem (GSVector4i.splat32 (Z.shiftl ta0 24))
       (GSVector4i.splat32 (Z.shiftl ta1 24)) (GSVector4i.V c0 c0 c1 c1 c2 c2 c3 c3)) =
  [Expand16_color aem ta0 ta1 c0; Expand16_color aem ta0 ta1 c1;
   Expand16_color aem ta0 ta1 c2; Expand16_color aem ta0 ta1 c3].
Proof. destruct aem; reflexivity. Qed.

Lemma Expand16_color_eq (aem : bool) (ta0 ta1 c : Z) :
  let C := GSVector4i.V c c c c c c c c in
  let A := Expand16_alpha aem (GSVector4i.splat32 (Z.shiftl ta0 24))
             (GSVector4i.splat32 (Z.shiftl ta1 24)) C in
  Expand16_color aem ta0 ta1 c =
  merge16 (Z.lor (GSVector4i.u0 (Expand16_rgb C)) (GSVector4i.u0 A))
          (Z.lor (GSVector4i.u1 (Expand16_rgb C)) (GSVector4i.u1 A)).
Proof. destruct aem; reflexivity. Qed.

Lemma Expand16_rgb_lo (c : Z) :
  u16 c -> Z.shiftr (GSVector4i.u0 (Expand16_rgb (GSVector4i.V c c c c c c c c))) 24 = 0.
Proof.
  intros Hc. apply Z.eqb_eq. revert c Hc.
  apply (forall_u16 (fun c =>
    Z.shiftr (GSVector4i.u0 (Expand16_rgb (GSVector4i.V c c c c c c c c))) 24 =? 0)).
  vm_compute. reflexivity.
Qed.

Lemma Expand16_rgb_hi (c : Z) :
  u16 c -> Z.shiftr (GSVector4i.u1 (Expand16_rgb (GSVector4i.V c c c c c c c c))) 8 = 0.
Proof.
  intros Hc. apply Z.eqb_eq. revert c Hc.
  apply (forall_u16 (fun c =>
    Z.shiftr (GSVector4i.u1 (Expand16_rgb (GSVector4i.V c c c c c c c c))) 8 =? 0)).
  vm_compute. reflexivity.
Qed.

Lemma blend8_lane_shiftr24 (a b m : Z) : Z.shiftr (GSVector4i.blend8_lane a b m) 24 = 0.
Proof.
  unfold GSVector4i.blend8_lane. rewrite Z.shiftr_lor, !Z.shiftr_land.
  change (Z.shiftr 255 24) with 0. change (Z.shiftr 65280 24) with 0.
  now rewrite !Z.land_0_r.
Qed.

Lemma Expand16_alpha_lo (aem : bool) (a b c : Z) :
  Z.shiftr (GSVector4i.u0 (Expand16_alpha aem (GSVector4i.splat32 a) (GSVector4i.splat32 b)
                             (GSVector4i.V c c c c c c c c))) 24 = 0.
Proof.
  destruct aem; cbn [Expand16_alpha GSVector4i.u0 GSVector4i.andnot GSVector4i.zip16
                      GSVector4i.blend8 GSVector4i.splat32 GSVector4i.sra16 GSVector4i.map16].
  - now rewrite Z.shiftr_ldiff, blend8_lane_shiftr24, Z.ldiff_0_l.
  - apply blend8_lane_shiftr24.
Qed.

Lemma sra16_15_lane (c : Z) :
  u16 c ->
  lo16 (Z.shiftr (if Z.testbit c 15 then c - 65536 else c) 15) =
  if Z.testbit c 15 then 65535 else 0.
Proof.
  intros Hc. apply Z.eqb_eq. revert c Hc.
  apply (forall_u16 (fun c =>
    lo16 (Z.shiftr (if Z.testbit c 15 then c - 65536 else c) 15) =?
    (if Z.testbit c 15 then 65535 else 0))).
  vm_compute. reflexivity.
Qed.

Lemma eq32_zero_lane (c : Z) :
  u16 c -> (merge16 c c =? merge16 0 0) = (c =? 0).
Proof.
  intros Hc. apply eqb_prop. revert c Hc.
  apply (forall_u16 (fun c => Bool.eqb (merge16 c c =? merge16 0 0) (c =? 0))).
  vm_compute. reflexivity.
Qed.

Lemma testbit15_zero (c : Z) : c = 0 -> Z.testbit c 15 = false.
Proof. intros ->. reflexivity. Qed.

Lemma blend8_hi_t (t : Z) :
  0 <= t < 256 ->
  Z.shiftr (Z.lor (Z.land (hi16 (Z.shiftl t 24)) 255)
                  (Z.land (hi16 (Z.shiftl t 24)) 65280)) 8 = t.
Proof.
  intros Ht. apply Z.eqb_eq. revert t Ht.
  apply (forall_u8 (fun t =>
    Z.shiftr (Z.lor (Z.land (hi16 (Z.shiftl t 24)) 255)
                    (Z.land (hi16 (Z.shiftl t 24)) 65280)) 8 =? t)).
  vm_compute. reflexivity.
Qed.

Lemma blend8_hi_andnot_t (t : Z) :
  0 <= t < 256 ->
  Z.shiftr (Z.ldiff (Z.lor (Z.land (hi16 (Z.shiftl t 24)) 255)
                           (Z.land (hi16 (Z.shiftl t 24)) 65280)) 65535) 8 = 0.
Proof.
  intros Ht. apply Z.eqb_eq. revert t Ht.
  apply (forall_u8 (fun t =>
    Z.shiftr (Z.ldiff (Z.lor (Z.land (hi16 (Z.shiftl t 24)) 255)
                             (Z.land (hi16 (Z.shiftl t 24)) 65280)) 65535) 8 =? 0)).
  vm_compute. reflexivity.
Qed.

Lemma Expand16_alpha_hi (aem : bool) (ta0 ta1 c : Z) :
  u16 c -> 0 <= ta0 < 256 -> 0 <= ta1 < 256 ->
  Z.shiftr (GSVector4i.u1 (Expand16_alpha aem (GSVector4i.splat32 (Z.shiftl ta0 24))
                             (GSVector4i.splat32 (Z.shiftl ta1 24))
                             (GSVector4i.V c c c c c c c c))) 8 =
  if aem && (c =? 0) then 0 else if Z.testbit c 15 then ta1 else ta0.
Proof.
  intros Hc H0 H1.
  destruct aem; cbn [Expand16_alpha GSVector4i.u1 GSVector4i.andnot GSVector4i.zip16
                      GSVector4i.blend8 GSVector4i.splat32 GSVector4i.sra16 GSVector4i.map16
                      GSVector4i.eq32 GSVector4i.zip32 GSVector4i.zero
                      GSVector4i.u0 andb];
    rewrite sra16_15_lane by assumption.
  - rewrite eq32_zero_lane by assumption.
    destruct (Z.eqb_spec c 0) as [Hz | Hz].
    + rewrite (testbit15_zero c Hz). now apply blend8_hi_andnot_t.
    + change (hi16 0) with 0. rewrite Z.ldiff_0_r.
      destruct (Z.testbit c 15); now apply blend8_hi_t.
  - destruct (Z.testbit c 15); now apply blend8_hi_t.
Qed.

Lemma alpha_of_merge16 (l r a b : Z) :
  Z.shiftr l 24 = 0 -> Z.shiftr a 24 = 0 -> Z.shiftr r 8 = 0 ->
  alpha_of (merge16 (Z.lor l a) (Z.lor r b)) = Z.shiftr b 8.
Proof.
  intros Hl Ha Hr. unfold alpha_of, merge16.
  rewrite !Z.shiftr_lor, Hl, Ha, Z.shiftr_shiftl_r by lia.
  change (24 - 16) with 8. now rewrite Z.shiftr_lor, Hr.
Qed.

(** The alpha of one expanded entry. *)
Lemma Expand16_color_alpha (aem : bool) (ta0 ta1 c : Z) :
  u16 c -> 0 <= ta0 < 256 -> 0 <= ta1 < 256 ->
  alpha_of (Expand16_color aem ta0 ta1 c) =
  if aem && (c =? 0) then 0 else if Z.testbit c 15 then ta1 else ta0.
Proof.
  intros Hc H0 H1. rewrite Expand16_color_eq. cbv zeta.
  rewrite alpha_of_merge16.
  - now apply Expand16_alpha_hi.
  - now apply Expand16_rgb_lo.
  - apply Expand16_alpha_lo.
  - now apply Expand16_rgb_hi.
Qed.

Lemma rd_0 (x : Z) (p : list Z) : rd (x :: p) 0 = x.
Proof. reflexivity. Qed.

Lemma rd_S (x : Z) (p : list Z) (i : nat) : rd (x :: p) (S i) = rd p i.
Proof. reflexivity. Qed.

Ltac rd_index :=
  match goal with
  | |- context [rd (_ :: _) ?i] =>
      first [ replace i with 0%nat by lia | replace i with 1%nat by lia
            | replace i with 2%nat by lia | replace i with 3%nat by lia ]
  end.

Lemma length_Expand16 src sb dst w TEXA : length (Expand16 src sb dst w TEXA) = length dst.
Proof.
  unfold Expand16, for_range. apply fold_blocks_length.
  intros. now rewrite !length_store32.
Qed.

(** Entry [j] of the output of [Expand16] is the color of entry [j] of its
    input. *)
Lemma Expand16_at (src : list Z) (sb : nat) (dst : list Z) (w TEXA : Z) (j : nat) :
  (j < 8 * Z.to_nat (Z.shiftr w 3))%nat ->
  (8 * Z.to_nat (Z.shiftr w 3) <= length dst)%nat ->
  rd (Expand16 src sb dst w TEXA) j =
  Expand16_color (negb (AEM TEXA =? 0)) (TA0 TEXA) (TA1 TEXA) (rd src (sb + j)).
Proof.
  intros Hj Hlen. unfold Expand16, for_range. rewrite Nat.sub_0_r.
  set (n8 := Z.to_nat (Z.shiftr w 3)) in Hj, Hlen |- *.
  apply (fold_blocks_own _ (fun i j => (8 * i <= j < 8 * i + 8)%nat)
           (fun i j => Expand16_color (negb (AEM TEXA =? 0)) (TA0 TEXA) (TA1 TEXA)
                         (rd src (sb + j)))
           (fun i => (i < n8)%nat) (8 * n8)%nat) with (i := (j / 8)%nat).
  - intros. now rewrite !length_store32.
  - intros i p j' Hi Hp Hj'.
    unfold GSVector4i.store32, GSVector4i.upl16, GSVector4i.uph16.
    rewrite !Expand16_px_lanes.
    remember (j' - 8 * i)%nat as d eqn:Hd.
    assert (j' = 8 * i + d)%nat as -> by lia.
    assert (d < 8)%nat as Hd8 by lia. clear Hd Hj'.
    do 8 (destruct d as [|d];
          [ repeat first
              [ rewrite rd_inserts_out by (cbn [length]; lia)
              | rewrite rd_inserts_in by (rewrite ?length_inserts; cbn [length]; lia) ];
            rd_index; rewrite ?rd_S, rd_0;
            cbn [GSVector4i.load16 GSVector4i.u0 GSVector4i.u1 GSVector4i.u2
                 GSVector4i.u3 GSVector4i.u4 GSVector4i.u5 GSVector4i.u6 GSVector4i.u7];
            do 2 f_equal; lia | ]).
    lia.
  - intros i p j' Hi Hj'. rewrite !rd_store32_out by lia. reflexivity.
  - intros. lia.
  - apply seq_NoDup.
  - intros i' Hi'. apply in_seq in Hi'. lia.
  - lia.
  - apply in_seq. pose proof (Nat.div_mod_eq j 8).
    pose proof (Nat.mod_upper_bound j 8). lia.
  - pose proof (Nat.div_mod_eq j 8). pose proof (Nat.mod_upper_bound j 8). lia.
Qed.

Lemma bits_range (x pos len : Z) : 0 <= len -> 0 <= bits x pos len < 2 ^ len.
Proof.
  intros Hlen. unfold bits. rewrite Z.land_ones by assumption.
  apply Z.mod_pos_bound. now apply Z.pow_pos_nonneg.
Qed.

Lemma rd_u16 (p : list Z) (i : nat) : List.Forall u16 p -> u16 (rd p i).
Proof.
  intros Hp. unfold rd. destruct (p !! i) as [x|] eqn:Hx; cbn.
  - rewrite List.Forall_forall in Hp. apply Hp.
    apply list_elem_of_In. eapply list_elem_of_lookup_2. eassumption.
  - unfold u16. lia.
Qed.

Lemma shiftr3_count (w : Z) :
  0 <= w -> Z.land w 7 = 0 -> (8 * Z.to_nat (Z.shiftr w 3))%nat = Z.to_nat w.
Proof.
  intros Hw H7. change 7 with (Z.ones 3) in H7. rewrite Z.land_ones in H7 by lia.
  rewrite Z.shiftr_div_pow2 by lia. change (2 ^ 3) with 8 in H7 |- *.
  pose proof (Z.div_mod w 8). pose proof (Z.div_pos w 8). lia.
Qed.

(** C5.  The alpha of every entry [Expand16] expands.  With AEM clear an
    entry whose bit 15 is clear gets TA0 and one whose bit 15 is set gets TA1.
    With AEM set an entry that is 0 gets alpha 0 and every other entry follows
    the same rule.  (An entry that is 0 has bit 15 clear.) *)
Theorem Expand16_alpha_rule (src dst : list Z) (sb : nat) (w TEXA : Z) (j : nat) :
  List.Forall u16 src -> 0 <= w -> Z.land w 7 = 0 ->
  (Z.to_nat w <= length dst)%nat -> (j < Z.to_nat w)%nat ->
  let c := rd src (sb + j) in
  let a := alpha_of (rd (Expand16 src sb dst w TEXA) j) in
  (AEM TEXA = 0 -> Z.testbit c 15 = false -> a = TA0 TEXA)
  /\ (AEM TEXA = 0 -> Z.testbit c 15 = true -> a = TA1 TEXA)
  /\ (AEM TEXA = 1 -> c = 0 -> a = 0)
  /\ (AEM TEXA = 1 -> c <> 0 -> Z.testbit c 15 = false -> a = TA0 TEXA)
  /\ (AEM TEXA = 1 -> c <> 0 -> Z.testbit c 15 = true -> a = TA1 TEXA)
  /\ (c = 0 -> Z.testbit c 15 = false).
Proof.
  intros Hsrc Hw H7 Hlen Hj c a.
  assert (Ha : a = if negb (AEM TEXA =? 0) && (c =? 0) then 0
                   else if Z.testbit c 15 then TA1 TEXA else TA0 TEXA).
  { subst a c. rewrite <- (shiftr3_count w Hw H7) in Hlen, Hj.
    rewrite Expand16_at by assumption.
    apply Expand16_color_alpha.
    - now apply rd_u16.
    - apply (bits_range TEXA 0 8). lia.
    - apply (bits_range TEXA 32 8). lia. }
  repeat split.
  - intros Haem Hbit. now rewrite Ha, Haem, Hbit.
  - intros Haem Hbit. now rewrite Ha, Haem, Hbit.
  - intros Haem Hc. rewrite Ha, Haem, Hc. reflexivity.
  - intros Haem Hc Hbit. rewrite Ha, Haem, Hbit.
    destruct (Z.eqb_spec c 0); [contradiction|reflexivity].
  - intros Haem Hc Hbit. rewrite Ha, Haem, Hbit.
    destruct (Z.eqb_spec c 0); [contradiction|reflexivity].
  - apply testbit15_zero.
Qed.


(** * Further properties of the reload decision *)

Lemma CLD_cases (TEX0 : Z) :
  CLD TEX0 = 0 \/ CLD TEX0 = 1 \/ CLD TEX0 = 2 \/ CLD TEX0 = 3
  \/ CLD TEX0 = 4 \/ CLD TEX0 = 5 \/ CLD TEX0 = 6 \/ CLD TEX0 = 7.
Proof.
  pose proof (bits_range TEX0 61 3) as H. change (2 ^ 3) with 8 in H.
  unfold CLD. lia.
Qed.

Lemma WriteTest_check_eq (s : GSClut) (TEX0 TEXCLUT : Z) :
  WriteTest_check s TEX0 TEXCLUT =
  let d := WriteState.dirty (m_write s) || WriteState_differs (m_write s) TEX0 TEXCLUT in
  (d, if d then s else set_m_write s (WriteState.mk TEX0 TEXCLUT false)).
Proof.
  unfold WriteTest_check. rewrite WriteState_IsDirty_eq. cbv zeta.
  destruct (WriteState.dirty (m_write s) || WriteState_differs (m_write s) TEX0 TEXCLUT);
    [|reflexivity].
  now destruct s.
Qed.

(** The incoming registers never differ from a snapshot that holds them. *)
Lemma WriteState_differs_same (TEX0 TEXCLUT : Z) (d : bool) :
  WriteState_differs (WriteState.mk TEX0 TEXCLUT d) TEX0 TEXCLUT = false.
Proof.
  unfold WriteState_differs. cbn [WriteState.TEX0 WriteState.TEXCLUT].
  rewrite !Z.lxor_nilpotent, Z.land_0_l, !Z.eqb_refl. cbn.
  now rewrite andb_false_r.
Qed.

(** X1.  Asking again with the registers of the last load never reloads:
    whatever the format and the load mode, [WriteTest] after [Write] of the
    same registers answers "no reload", and the snapshot and the palette stay
    those of the load. *)
Theorem WriteTest_after_Write (s : GSClut) (TEX0 TEXCLUT : Z) :
  let s1 := Write s TEX0 TEXCLUT in
  let r := WriteTest s1 TEX0 TEXCLUT in
  fst r = false
  /\ m_write (snd r) = WriteState.mk TEX0 TEXCLUT false
  /\ m_clut (snd r) = m_clut s1
  /\ m_read (snd r) = m_read s1.
Proof.
  cbv zeta. rewrite Write_eq.
  set (s1 := mkGSClut _ _ _ _ _ _ _).
  assert (Hcheck : forall s2, m_write s2 = WriteState.mk TEX0 TEXCLUT false ->
                   WriteTest_check s2 TEX0 TEXCLUT = (false, s2)).
  { intros s2 Hw. rewrite WriteTest_check_eq, Hw, WriteState_differs_same. cbn.
    rewrite <- Hw. now destruct s2. }
  unfold WriteTest.
  destruct (Z.land (PSM TEX0) 7 <? 3); [now cbn|].
  destruct (CLD_cases TEX0) as [H|[H|[H|[H|[H|[H|[H|H]]]]]]]; rewrite H; cbv iota;
    try (now cbn);
    try (rewrite Hcheck by reflexivity; now cbn).
  - destruct (m_CBP_0 s1 =? CBP TEX0); [now cbn|].
    rewrite Hcheck by reflexivity. now cbn.
  - destruct (m_CBP_1 s1 =? CBP TEX0); [now cbn|].
    rewrite Hcheck by reflexivity. now cbn.
Qed.

(** X2.  When [WriteTest] asks for a reload: exactly when the pixel format is
    an indexed one, the load mode is 1, 2 or 3, or it is 4 (5) and the
    incoming base pointer differs from slot A (B), and the write-side dirty
    flag is set or a tracked field differs from the snapshot. *)
Theorem WriteTest_reload_iff (s : GSClut) (TEX0 TEXCLUT : Z) :
  fst (WriteTest s TEX0 TEXCLUT) = true <->
  3 <= Z.land (PSM TEX0) 7
  /\ (CLD TEX0 = 1 \/ CLD TEX0 = 2 \/ CLD TEX0 = 3
      \/ (CLD TEX0 = 4 /\ m_CBP_0 s <> CBP TEX0)
      \/ (CLD TEX0 = 5 /\ m_CBP_1 s <> CBP TEX0))
  /\ (WriteState.dirty (m_write s) = true
      \/ WriteState_differs (m_write s) TEX0 TEXCLUT = true).
Proof.
  unfold WriteTest.
  destruct (Z.ltb_spec (Z.land (PSM TEX0) 7) 3) as [Hlt | Hge].
  { cbn. split; [discriminate | lia]. }
  destruct (CLD_cases TEX0) as [H|[H|[H|[H|[H|[H|[H|H]]]]]]]; rewrite H; cbv iota;
    try (cbn [fst]; split; [discriminate | intros (_ & Hc & _); lia]);
    try (destruct (Z.eqb_spec (m_CBP_0 s) (CBP TEX0)) as [He | Hne];
         [cbn [fst]; split; [discriminate | intros (_ & Hc & _); lia]|]);
    try (destruct (Z.eqb_spec (m_CBP_1 s) (CBP TEX0)) as [He | Hne];
         [cbn [fst]; split; [discriminate | intros (_ & Hc & _); lia]|]);
    rewrite WriteTest_check_eq; cbv zeta; cbn [fst m_write set_m_CBP_0 set_m_CBP_1];
    rewrite orb_true_iff; split;
    try (intros Hd; split; [assumption | split; [lia | assumption]]);
    try (intros (_ & _ & Hd); assumption).
Qed.

(** X3.  [WriteTest] never touches the palette buffer, the expanded buffers
    or the read side.  Of the two base-pointer slots, slot A afterwards holds
    the incoming base pointer when the format is indexed and the load mode is
    2 or 4, and its old value otherwise; slot B likewise for the load modes 3
    and 5.  The slots are updated whether or not a reload is asked for. *)
Theorem WriteTest_frame (s : GSClut) (TEX0 TEXCLUT : Z) :
  let s' := snd (WriteTest s TEX0 TEXCLUT) in
  m_clut s' = m_clut s /\ m_buff32 s' = m_buff32 s /\ m_buff64 s' = m_buff64 s
  /\ m_read s' = m_read s
  /\ m_CBP_0 s' =
     (if (3 <=? Z.land (PSM TEX0) 7) && ((CLD TEX0 =? 2) || (CLD TEX0 =? 4))
      then CBP TEX0 else m_CBP_0 s)
  /\ m_CBP_1 s' =
     (if (3 <=? Z.land (PSM TEX0) 7) && ((CLD TEX0 =? 3) || (CLD TEX0 =? 5))
      then CBP TEX0 else m_CBP_1 s).
Proof.
  cbv zeta. unfold WriteTest.
  assert (Hcheck : forall s2,
            let s3 := snd (WriteTest_check s2 TEX0 TEXCLUT) in
            m_clut s3 = m_clut s2 /\ m_buff32 s3 = m_buff32 s2 /\ m_buff64 s3 = m_buff64 s2
            /\ m_read s3 = m_read s2 /\ m_CBP_0 s3 = m_CBP_0 s2 /\ m_CBP_1 s3 = m_CBP_1 s2).
  { intros s2. cbv zeta. rewrite WriteTest_check_eq. cbv zeta.
    destruct (_ || _); cbn; repeat split. }
  destruct (Z.ltb_spec (Z.land (PSM TEX0) 7) 3) as [Hlt | Hge].
  { destruct (Z.leb_spec 3 (Z.land (PSM TEX0) 7)) as [Hle | _]; [lia|].
    cbn. repeat split. }
  destruct (Z.leb_spec 3 (Z.land (PSM TEX0) 7)) as [_ | Hlt]; [|lia]. cbn [andb].
  destruct (CLD_cases TEX0) as [H|[H|[H|[H|[H|[H|[H|H]]]]]]]; rewrite H; cbv iota;
    cbn [Z.eqb Pos.eqb orb snd];
    try (repeat split; fail).
  - destruct (Hcheck s) as (H1 & H2 & H3 & H4 & H5 & H6). repeat split; assumption.
  - destruct (Hcheck (set_m_CBP_0 s (CBP TEX0))) as (H1 & H2 & H3 & H4 & H5 & H6).
    repeat split; assumption.
  - destruct (Hcheck (set_m_CBP_1 s (CBP TEX0))) as (H1 & H2 & H3 & H4 & H5 & H6).
    repeat split; assumption.
  - destruct (Z.eqb_spec (m_CBP_0 s) (CBP TEX0)) as [He | Hne].
    + cbn [snd]. repeat split. exact He.
    + destruct (Hcheck (set_m_CBP_0 s (CBP TEX0))) as (H1 & H2 & H3 & H4 & H5 & H6).
      repeat split; assumption.
  - destruct (Z.eqb_spec (m_CBP_1 s) (CBP TEX0)) as [He | Hne].
    + cbn [snd]. repeat split. exact He.
    + destruct (Hcheck (set_m_CBP_1 s (CBP TEX0))) as (H1 & H2 & H3 & H4 & H5 & H6).
      repeat split; assumption.
Qed.

(** X7.  An invalidation forces the next reload: after [Invalidate], and so
    after a hit of [InvalidateRange] or of [Invalidate(block)], [WriteTest]
    of an indexed format with load mode 1, 2 or 3 asks for a reload whatever
    the registers are, and leaves the snapshot for the load to set. *)
Theorem WriteTest_after_Invalidate (s : GSClut) (TEX0 TEXCLUT : Z) :
  3 <= Z.land (PSM TEX0) 7 -> CLD TEX0 = 1 \/ CLD TEX0 = 2 \/ CLD TEX0 = 3 ->
  let r := WriteTest (Invalidate s) TEX0 TEXCLUT in
  fst r = true
  /\ m_write (snd r) =
     WriteState.mk (WriteState.TEX0 (m_write s)) (WriteState.TEXCLUT (m_write s)) true.
Proof.
  intros Hpsm Hcld. cbv zeta. unfold WriteTest.
  destruct (Z.ltb_spec (Z.land (PSM TEX0) 7) 3) as [Hlt | _]; [lia|].
  destruct Hcld as [H | [H | H]]; rewrite H; cbv iota;
    rewrite WriteTest_check_eq; cbn; split; reflexivity.
Qed.

(** ** The dispatch table *)

(** What a load routine writes depends on the registers through the base
    pointer, the column-select and TEXCLUT only. *)
Lemma call_WriteRoutine_fields (r : WriteRoutine) (s : GSClut) (TEX0 TEX0' TEXCLUT : Z) :
  CBP TEX0 = CBP TEX0' -> CSA TEX0 = CSA TEX0' ->
  m_clut (call_WriteRoutine r s TEX0 TEXCLUT) = m_clut (call_WriteRoutine r s TEX0' TEXCLUT).
Proof.
  intros Hcbp Hcsa.
  destruct r; cbn [call_WriteRoutine set_m_clut m_clut];
    unfold WriteCLUT32_I8_CSM1, WriteCLUT32_I4_CSM1, WriteCLUT16_I8_CSM1, WriteCLUT16_I4_CSM1,
      WriteCLUT16S_I8_CSM1, WriteCLUT16S_I4_CSM1, WriteCLUT32_CSM2, WriteCLUT16_CSM2,
      WriteCLUT16S_CSM2, WriteCLUT_NULL;
    now rewrite ?Hcbp, ?Hcsa.
Qed.

(** X4.  A load for which the dispatch table holds no routine writes nothing
    into the palette buffer, and still sets the snapshot and the flags: this
    is so for the index-table style when the low three bits of PSM are neither
    3 nor 4, for the coordinate-streamed style when PSM is none of PSMT8,
    PSMT8H, PSMT4, PSMT4HL, PSMT4HH, and for both when CPSM is none of
    PSMCT32, PSMCT24, PSMCT16, PSMCT16S. *)
Theorem Write_no_routine (s : GSClut) (TEX0 TEXCLUT : Z) :
  (CSM TEX0 = 0 /\ Z.land (PSM TEX0) 7 <> 3 /\ Z.land (PSM TEX0) 7 <> 4)
  \/ (CSM TEX0 = 1 /\ PSM TEX0 <> PSM_PSMT8 /\ PSM TEX0 <> PSM_PSMT8H
      /\ PSM TEX0 <> PSM_PSMT4 /\ PSM TEX0 <> PSM_PSMT4HL /\ PSM TEX0 <> PSM_PSMT4HH)
  \/ (CPSM TEX0 <> PSM_PSMCT32 /\ CPSM TEX0 <> PSM_PSMCT24
      /\ CPSM TEX0 <> PSM_PSMCT16 /\ CPSM TEX0 <> PSM_PSMCT16S) ->
  m_wc (CSM TEX0) (CPSM TEX0) (PSM TEX0) = R_WriteCLUT_NULL
  /\ m_clut (Write s TEX0 TEXCLUT) = m_clut s
  /\ m_write (Write s TEX0 TEXCLUT) = WriteState.mk TEX0 TEXCLUT false
  /\ ReadState.dirty (m_read (Write s TEX0 TEXCLUT)) = true.
Proof.
  intros H.
  assert (Hwc : m_wc (CSM TEX0) (CPSM TEX0) (PSM TEX0) = R_WriteCLUT_NULL).
  { unfold m_wc. cbv zeta.
    destruct H as [(Hcsm & H3 & H4) | [(Hcsm & H8 & H8H & H4 & H4L & H4H) | (H32 & H24 & H16 & H16S)]].
    - rewrite Hcsm. apply Z.eqb_neq in H3, H4. rewrite H3, H4. cbn [Z.eqb].
      now destruct (_ || _), (CPSM TEX0 =? PSM_PSMCT16), (CPSM TEX0 =? PSM_PSMCT16S).
    - rewrite Hcsm. apply Z.eqb_neq in H8, H8H, H4, H4L, H4H.
      rewrite H8, H8H, H4, H4L, H4H. reflexivity.
    - apply Z.eqb_neq in H32, H24, H16, H16S. rewrite H32, H24, H16, H16S. cbn [orb].
      destruct (CSM TEX0 =? 0); [reflexivity|].
      destruct ((PSM TEX0 =? PSM_PSMT8) || (PSM TEX0 =? PSM_PSMT8H)); [reflexivity|].
      now destruct ((PSM TEX0 =? PSM_PSMT4) || (PSM TEX0 =? PSM_PSMT4HL) || (PSM TEX0 =? PSM_PSMT4HH)). }
  split; [exact Hwc|]. rewrite Write_eq, Hwc. cbn. repeat split.
Qed.

(** X5.  The 24-bit color storage format is loaded as the 32-bit one: two
    register values that differ in CPSM only, PSMCT32 against PSMCT24, load
    the same palette. *)
Theorem Write_PSMCT24_as_PSMCT32 (s : GSClut) (TEX0 TEX0' TEXCLUT : Z) :
  CPSM TEX0 = PSM_PSMCT32 -> CPSM TEX0' = PSM_PSMCT24 ->
  PSM TEX0 = PSM TEX0' -> CSM TEX0 = CSM TEX0' ->
  CBP TEX0 = CBP TEX0' -> CSA TEX0 = CSA TEX0' ->
  m_clut (Write s TEX0 TEXCLUT) = m_clut (Write s TEX0' TEXCLUT).
Proof.
  intros H32 H24 Hpsm Hcsm Hcbp Hcsa. rewrite !Write_eq. cbn [m_clut].
  rewrite H32, H24, <- Hpsm, <- Hcsm.
  replace (m_wc (CSM TEX0) PSM_PSMCT24 (PSM TEX0))
    with (m_wc (CSM TEX0) PSM_PSMCT32 (PSM TEX0)) by reflexivity.
  now apply call_WriteRoutine_fields.
Qed.

(** ** Invalidation of one block *)



(** ** The expansion through the object *)

Lemma ReadState_IsDirty_clean (r : ReadState.t) (TEX0 TEXA : Z) :
  fst (ReadState_IsDirty r TEX0 TEXA) = false ->
  ReadState.dirty r = false
  /\ ReadState_IsDirty r TEX0 TEXA =
     (false, ReadState.mk TEX0 TEXA false (ReadState.adirty r) (ReadState.amin r)
               (ReadState.amax r)).
Proof.
  unfold ReadState_IsDirty. cbv zeta.
  destruct (ReadState.dirty r); cbn [orb].
  - destruct (_ || _); [cbn; discriminate|].
    destruct (_ && _); [cbn; discriminate|].
    destruct (_ && _); cbn; discriminate.
  - destruct (_ || _); [cbn; discriminate|].
    destruct (_ && _); [cbn; discriminate|].
    destruct (_ && _); [cbn; discriminate|]. cbn. intros _. split; reflexivity.
Qed.

Lemma ReadState_IsDirty_true (r : ReadState.t) (TEX0 TEXA : Z) :
  fst (ReadState_IsDirty r TEX0 TEXA) = true ->
  ReadState_IsDirty r TEX0 TEXA = (true, r).
Proof.
  unfold ReadState_IsDirty. cbv zeta.
  destruct (ReadState.dirty r); cbn [orb].
  - destruct (_ || _); [reflexivity|].
    destruct (_ && _); [reflexivity|].
    destruct (_ && _); reflexivity.
  - destruct (_ || _); [reflexivity|].
    destruct (_ && _); [reflexivity|].
    destruct (_ && _); [reflexivity|]. cbn. discriminate.
Qed.

Lemma ReadState_IsDirty_same (TEX0 TEXA : Z) (ad : bool) (amin amax : Z) :
  ReadState_IsDirty (ReadState.mk TEX0 TEXA false ad amin amax) TEX0 TEXA =
  (false, ReadState.mk TEX0 TEXA false ad amin amax).
Proof.
  unfold ReadState_IsDirty. cbn [ReadState.TEX0 ReadState.TEXA ReadState.dirty
    ReadState.adirty ReadState.amin ReadState.amax].
  rewrite !Z.lxor_nilpotent, !Z.land_0_l, !Z.eqb_refl. cbn [negb orb].
  rewrite !andb_false_r. reflexivity.
Qed.

(** The read side after [Read32], by the answer of the dirty-check. *)
Lemma Read32_m_read (s : GSClut) (TEX0 TEXA : Z) :
  m_read (Read32 s TEX0 TEXA) =
  ReadState.mk TEX0 TEXA false
    (fst (ReadState_IsDirty (m_read s) TEX0 TEXA) || ReadState.adirty (m_read s))
    (ReadState.amin (m_read s)) (ReadState.amax (m_read s)).
Proof.
  unfold Read32.
  destruct (fst (ReadState_IsDirty (m_read s) TEX0 TEXA)) eqn:Hd.
  - rewrite (ReadState_IsDirty_true _ _ _ Hd). cbn [orb].
    cbn [set_m_read m_read m_clut m_buff32].
    destruct (_ || _).
    + destruct (is_T8 _); [reflexivity|]. destruct (is_T4 _); reflexivity.
    + destruct (_ || _); [|reflexivity].
      destruct (is_T8 _); [reflexivity|]. destruct (is_T4 _); reflexivity.
  - destruct (ReadState_IsDirty_clean _ _ _ Hd) as [_ ->]. reflexivity.
Qed.

(** X8.  [Read32] never touches the palette buffer, the write side or the two
    base-pointer slots; whatever it found, it leaves the incoming registers in
    the read-side snapshot and the read-side dirty flag clear; it marks the
    alpha range stale exactly when its dirty-check answered "dirty" (a flag
    already set stays set) and keeps the stored range; and asking again with
    the same registers changes nothing: the second call is a cache hit. *)
Theorem Read32_idempotent (s : GSClut) (TEX0 TEXA : Z) :
  let s' := Read32 s TEX0 TEXA in
  m_clut s' = m_clut s /\ m_write s' = m_write s
  /\ m_CBP_0 s' = m_CBP_0 s /\ m_CBP_1 s' = m_CBP_1 s
  /\ ReadState.TEX0 (m_read s') = TEX0 /\ ReadState.TEXA (m_read s') = TEXA
  /\ ReadState.dirty (m_read s') = false
  /\ ReadState.adirty (m_read s') =
     fst (ReadState_IsDirty (m_read s) TEX0 TEXA) || ReadState.adirty (m_read s)
  /\ ReadState.amin (m_read s') = ReadState.amin (m_read s)
  /\ ReadState.amax (m_read s') = ReadState.amax (m_read s)
  /\ Read32 s' TEX0 TEXA = s'.
Proof.
  cbv zeta.
  assert (Hframe : m_clut (Read32 s TEX0 TEXA) = m_clut s
                   /\ m_write (Read32 s TEX0 TEXA) = m_write s
                   /\ m_CBP_0 (Read32 s TEX0 TEXA) = m_CBP_0 s
                   /\ m_CBP_1 (Read32 s TEX0 TEXA) = m_CBP_1 s).
  { unfold Read32. destruct (ReadState_IsDirty (m_read s) TEX0 TEXA) as [[|] r];
      [|repeat split].
    cbn [set_m_read m_read m_clut m_buff32].
    destruct (_ || _).
    - destruct (is_T8 _); [repeat split|]. destruct (is_T4 _); repeat split.
    - destruct (_ || _); [|repeat split].
      destruct (is_T8 _); [repeat split|]. destruct (is_T4 _); repeat split. }
  destruct Hframe as (H1 & H2 & H3 & H4).
  pose proof (Read32_m_read s TEX0 TEXA) as Hr.
  repeat (split; [first [assumption | now rewrite Hr]|]).
  generalize dependent (Read32 s TEX0 TEXA). intros s' _ _ _ _ Hr.
  unfold Read32. rewrite Hr, ReadState_IsDirty_same.
  destruct s'. cbn in Hr |- *. now rewrite Hr.
Qed.

(** X9.  For a combination of formats the expansion has no case for (a color
    storage format other than PSMCT32, PSMCT24, PSMCT16, PSMCT16S, or a pixel
    format other than PSMT8, PSMT8H, PSMT4, PSMT4HL, PSMT4HH), [Read32]
    expands nothing: both expanded buffers stay as they were, and yet
    the read-side dirty flag is cleared and the snapshot taken. *)
Theorem Read32_no_case (s : GSClut) (TEX0 TEXA : Z) :
  (CPSM TEX0 <> PSM_PSMCT32 /\ CPSM TEX0 <> PSM_PSMCT24
   /\ CPSM TEX0 <> PSM_PSMCT16 /\ CPSM TEX0 <> PSM_PSMCT16S)
  \/ (PSM TEX0 <> PSM_PSMT8 /\ PSM TEX0 <> PSM_PSMT8H
      /\ PSM TEX0 <> PSM_PSMT4 /\ PSM TEX0 <> PSM_PSMT4HL /\ PSM TEX0 <> PSM_PSMT4HH) ->
  let s' := Read32 s TEX0 TEXA in
  m_buff32 s' = m_buff32 s /\ m_buff64 s' = m_buff64 s
  /\ ReadState.dirty (m_read s') = false
  /\ ReadState.TEX0 (m_read s') = TEX0 /\ ReadState.TEXA (m_read s') = TEXA.
Proof.
  intros H. cbv zeta.
  assert (Hb : m_buff32 (Read32 s TEX0 TEXA) = m_buff32 s
               /\ m_buff64 (Read32 s TEX0 TEXA) = m_buff64 s).
  { unfold Read32. destruct (ReadState_IsDirty (m_read s) TEX0 TEXA) as [[|] r];
      [|split; reflexivity].
    cbn [set_m_read m_read m_clut m_buff32]. unfold is_T8, is_T4.
    destruct H as [(H32 & H24 & H16 & H16S) | (H8 & H8H & H4 & H4L & H4H)].
    - apply Z.eqb_neq in H32, H24, H16, H16S. rewrite H32, H24, H16, H16S.
      split; reflexivity.
    - apply Z.eqb_neq in H8, H8H, H4, H4L, H4H. rewrite H8, H8H, H4, H4L, H4H.
      cbn [orb]. destruct (_ || _); [split; reflexivity|].
      destruct (_ || _); split; reflexivity. }
  destruct Hb as [Hb1 Hb2]. rewrite Read32_m_read. repeat split; assumption.
Qed.

(** ** The table of color pairs *)

Lemma rd_store64_at p b k v j :
  (b + 2 * k <= j < b + 2 * k + 2)%nat -> (b + 2 * k + 2 <= length p)%nat ->
  rd (GSVector4i.store64 p b k v) j = nth (j - (b + 2 * k)) (GSVector4i.u64s v) 0.
Proof.
  intros Hj Hp. unfold GSVector4i.store64.
  rewrite rd_inserts_in by (cbn [length GSVector4i.u64s]; lia).
  remember (j - (b + 2 * k))%nat as i eqn:Hi.
  assert (i < 2)%nat as Hlt by lia. clear -Hlt.
  do 2 (destruct i as [|i]; [reflexivity|]). lia.
Qed.

Lemma rd_store64_out p b k v j :
  (j < b + 2 * k \/ b + 2 * k + 2 <= j)%nat ->
  rd (GSVector4i.store64 p b k v) j = rd p j.
Proof.
  intros Hj. unfold GSVector4i.store64. apply rd_inserts_out.
  cbn [length GSVector4i.u64s]. lia.
Qed.

Lemma length_ExpandCLUT64_T32_lo hi lo dst k :
  length (ExpandCLUT64_T32_lo hi lo dst k) = length dst.
Proof. unfold ExpandCLUT64_T32_lo. now rewrite !length_store64. Qed.

Lemma ExpandCLUT64_T32_lo_at hi lo dst k e :
  (2 * k + 4 <= length dst)%nat -> (e < 4)%nat ->
  rd (ExpandCLUT64_T32_lo hi lo dst k) (2 * k + e) =
  merge32 (nth e (GSVector4i.u32s lo) 0) (nth e (GSVector4i.u32s hi) 0).
Proof.
  intros Hlen He. unfold ExpandCLUT64_T32_lo.
  do 4 (destruct e as [|e];
        [ repeat first [ rewrite rd_store64_out by lia
                       | rewrite rd_store64_at by (rewrite ?length_store64; lia) ];
          match goal with
          | |- context [nth ?i (GSVector4i.u64s _) _] =>
              first [ replace i with 0%nat by lia | replace i with 1%nat by lia ]
          end; reflexivity | ]).
  lia.
Qed.

Lemma ExpandCLUT64_T32_lo_other hi lo dst k j :
  (j < 2 * k \/ 2 * k + 4 <= j)%nat ->
  rd (ExpandCLUT64_T32_lo hi lo dst k) j = rd dst j.
Proof.
  intros Hj. unfold ExpandCLUT64_T32_lo. now rewrite !rd_store64_out by lia.
Qed.

Lemma length_ExpandCLUT64_T32 hi lo0 lo1 lo2 lo3 dst k :
  length (ExpandCLUT64_T32 hi lo0 lo1 lo2 lo3 dst k) = length dst.
Proof. unfold ExpandCLUT64_T32. now rewrite !length_ExpandCLUT64_T32_lo. Qed.

Lemma ExpandCLUT64_T32_other hi lo0 lo1 lo2 lo3 dst k j :
  (j < 2 * k \/ 2 * k + 64 <= j)%nat ->
  rd (ExpandCLUT64_T32 hi lo0 lo1 lo2 lo3 dst k) j = rd dst j.
Proof.
  intros Hj. unfold ExpandCLUT64_T32. now rewrite !ExpandCLUT64_T32_lo_other by lia.
Qed.

Ltac ExpandCLUT64_T32_los j :=
  repeat rewrite ExpandCLUT64_T32_lo_other by lia;
  match goal with
  | |- rd (ExpandCLUT64_T32_lo _ _ _ ?k) _ = _ =>
      replace j with (2 * k + (j - 2 * k))%nat at 1 by lia;
      rewrite ExpandCLUT64_T32_lo_at by (rewrite ?length_ExpandCLUT64_T32_lo; lia)
  end.

(** One call of the 16-line helper: the 64 pairs of one vector [hi] of four
    colors with the sixteen colors of [lo0 .. lo3]. *)
Lemma ExpandCLUT64_T32_at hi lo0 lo1 lo2 lo3 dst k c b e :
  (2 * k + 64 <= length dst)%nat -> (c < 4)%nat -> (b < 4)%nat -> (e < 4)%nat ->
  rd (ExpandCLUT64_T32 hi lo0 lo1 lo2 lo3 dst k) (2 * k + 16 * c + 4 * b + e) =
  merge32 (nth e (GSVector4i.u32s (nth b [lo0; lo1; lo2; lo3] GSVector4i.zero)) 0)
          (nth c (GSVector4i.u32s hi) 0).
Proof.
  intros Hlen Hc Hb He. unfold ExpandCLUT64_T32.
  destruct c as [|[|[|[|c]]]]; [| | | |exfalso; lia];
    (destruct b as [|[|[|[|b]]]]; [| | | |exfalso; lia]);
    match goal with
    | |- rd _ ?j = _ => ExpandCLUT64_T32_los j
    end;
    match goal with
    | |- context [nth ?i (GSVector4i.u32s _) _] => replace i with e by lia
    end;
    (do 4 (destruct e as [|e]; [reflexivity|]); lia).
Qed.

Lemma length_ExpandCLUT64_T32_I8 src dst :
  length (ExpandCLUT64_T32_I8 src dst) = length dst.
Proof. unfold ExpandCLUT64_T32_I8. cbv zeta. now rewrite !length_ExpandCLUT64_T32. Qed.

Lemma u32s_load32 (src : list Z) (a c : nat) :
  (c < 4)%nat ->
  nth c (GSVector4i.u32s (GSVector4i.load32 src 0 a)) 0 = wrap32 (rd src (4 * a + c)).
Proof.
  intros Hc. unfold GSVector4i.load32, GSVector4i.u32s. cbv zeta.
  cbn [GSVector4i.u0 GSVector4i.u1 GSVector4i.u2 GSVector4i.u3
       GSVector4i.u4 GSVector4i.u5 GSVector4i.u6 GSVector4i.u7].
  do 4 (destruct c as [|c];
        [cbn [nth]; rewrite merge16_split_wrap; do 2 f_equal; lia|]).
  lia.
Qed.

Lemma ExpandCLUT64_T32_I8_at (src dst : list Z) (a c b e : nat) :
  (256 <= length dst)%nat -> (a < 4)%nat -> (c < 4)%nat -> (b < 4)%nat -> (e < 4)%nat ->
  rd (ExpandCLUT64_T32_I8 src dst) (64 * a + 16 * c + 4 * b + e) =
  merge32 (wrap32 (rd src (4 * b + e))) (wrap32 (rd src (4 * a + c))).
Proof.
  intros Hlen Ha Hc Hb He. unfold ExpandCLUT64_T32_I8. cbv zeta.
  assert (Hlo : nth e (GSVector4i.u32s
                  (nth b [GSVector4i.load32 src 0 0; GSVector4i.load32 src 0 1;
                          GSVector4i.load32 src 0 2; GSVector4i.load32 src 0 3]
                     GSVector4i.zero)) 0 = wrap32 (rd src (4 * b + e))).
  { do 4 (destruct b as [|b]; [cbn [nth]; now apply u32s_load32|]). lia. }
  destruct a as [|[|[|[|a]]]]; [| | | |exfalso; lia];
    rewrite ?ExpandCLUT64_T32_other by lia;
    match goal with
    | |- rd (ExpandCLUT64_T32 _ _ _ _ _ _ ?k) ?j = _ =>
        replace j with (2 * k + 16 * c + 4 * b + e)%nat by lia;
        rewrite ExpandCLUT64_T32_at by (rewrite ?length_ExpandCLUT64_T32; lia)
    end;
    rewrite Hlo, u32s_load32 by assumption; reflexivity.
Qed.

Lemma ExpandCLUT64_T32_I8_pairs_aux (src dst : list Z) (i j : nat) :
  (256 <= length dst)%nat -> (i < 16)%nat -> (j < 16)%nat ->
  rd (ExpandCLUT64_T32_I8 src dst) (16 * i + j) =
  merge32 (wrap32 (rd src j)) (wrap32 (rd src i)).
Proof.
  intros Hlen Hi Hj.
  pose proof (Nat.div_mod_eq i 4) as Ei. pose proof (Nat.div_mod_eq j 4) as Ej.
  pose proof (Nat.mod_upper_bound i 4) as Bi. pose proof (Nat.mod_upper_bound j 4) as Bj.
  assert (Di : (i / 4 < 4)%nat) by (apply Nat.Div0.div_lt_upper_bound; lia).
  assert (Dj : (j / 4 < 4)%nat) by (apply Nat.Div0.div_lt_upper_bound; lia).
  replace (16 * i + j)%nat
    with (64 * (i / 4) + 16 * (i mod 4) + 4 * (j / 4) + j mod 4)%nat by lia.
  rewrite ExpandCLUT64_T32_I8_at by lia.
  do 2 f_equal; f_equal; lia.
Qed.

(** X10.  [ExpandCLUT64_T32_I8] builds the table of all pairs of the first
    sixteen 32-bit colors: entry [16 i + j] of the 64-bit buffer holds color
    [j] in its low word and color [i] in its high word, so that one byte of
    two 4-bit indices (low nibble [j], high nibble [i]) fetches both colors.
    It writes the first 256 entries and nothing else. *)
Theorem ExpandCLUT64_T32_I8_pairs (src dst : list Z) :
  (256 <= length dst)%nat ->
  length (ExpandCLUT64_T32_I8 src dst) = length dst
  /\ (forall i j : nat, (i < 16)%nat -> (j < 16)%nat ->
        rd (ExpandCLUT64_T32_I8 src dst) (16 * i + j) =
        merge32 (wrap32 (rd src j)) (wrap32 (rd src i)))
  /\ (forall n : nat, (256 <= n)%nat -> rd (ExpandCLUT64_T32_I8 src dst) n = rd dst n).
Proof.
  intros Hlen. split; [apply length_ExpandCLUT64_T32_I8|]. split.
  - intros i j Hi Hj. now apply ExpandCLUT64_T32_I8_pairs_aux.
  - intros n Hn. unfold ExpandCLUT64_T32_I8. cbv zeta.
    now rewrite !ExpandCLUT64_T32_other by lia.
Qed.

(** ** The load and the expansion of a 16-entry 32-bit palette *)

Lemma m_wc_T32_I4 (TEX0 : Z) :
  CSM TEX0 = 0 -> CPSM TEX0 = PSM_PSMCT32 \/ CPSM TEX0 = PSM_PSMCT24 ->
  PSM TEX0 = PSM_PSMT4 \/ PSM TEX0 = PSM_PSMT4HL \/ PSM TEX0 = PSM_PSMT4HH ->
  m_wc (CSM TEX0) (CPSM TEX0) (PSM TEX0) = R_WriteCLUT32_I4_CSM1
  /\ (CPSM TEX0 =? PSM_PSMCT32) || (CPSM TEX0 =? PSM_PSMCT24) = true
  /\ is_T8 (PSM TEX0) = false /\ is_T4 (PSM TEX0) = true.
Proof.
  intros -> [-> | ->] [-> | [-> | ->]]; repeat split.
Qed.

(** X11.  A 16-entry palette of 32-bit colors, loaded by [Write] with the
    index-table style and expanded by [Read32], at any column-select: color
    [k] of the expanded buffer is the word of video memory at the base
    pointer that the load order names, unchanged, and the 64-bit buffer holds
    all pairs of these sixteen colors.  The same holds for the color storage
    format PSMCT24 and for the three 4-bit pixel formats. *)
Theorem Write_Read32_T32_I4 (s : GSClut) (TEX0 TEXCLUT TEXA : Z) :
  CSM TEX0 = 0 -> CPSM TEX0 = PSM_PSMCT32 \/ CPSM TEX0 = PSM_PSMCT24 ->
  PSM TEX0 = PSM_PSMT4 \/ PSM TEX0 = PSM_PSMT4HL \/ PSM TEX0 = PSM_PSMT4HH ->
  List.Forall u32 (BlockPtr32 (CBP TEX0)) ->
  (512 <= length (m_clut s))%nat -> (16 <= length (m_buff32 s))%nat ->
  (256 <= length (m_buff64 s))%nat ->
  let s' := Read32 (Write s TEX0 TEXCLUT) TEX0 TEXA in
  let color k := rd (BlockPtr32 (CBP TEX0)) (T32_I4_order k) in
  (forall k : nat, (k < 16)%nat -> rd (m_buff32 s') k = color k)
  /\ (forall i j : nat, (i < 16)%nat -> (j < 16)%nat ->
        rd (m_buff64 s') (16 * i + j) = merge32 (color j) (color i)).
Proof.
  intros Hcsm Hcpsm Hpsm Hsrc Hclut Hb32 Hb64. cbv zeta.
  destruct (m_wc_T32_I4 TEX0 Hcsm Hcpsm Hpsm) as (Hwc & Hc & H8 & H4).
  rewrite Write_eq. unfold Read32. cbn [m_read].
  rewrite ReadState_IsDirty_dirty by reflexivity.
  rewrite Hwc, Hc, H8, H4. cbv iota.
  cbn [set_m_read set_m_buff32 set_m_buff64 m_buff32 m_buff64 m_clut
       call_WriteRoutine set_m_clut].
  unfold WriteCLUT32_I4_CSM1.
  pose proof (land15_range (CSA TEX0)) as Hcsa.
  set (cb := Z.to_nat (Z.shiftl (Z.land (CSA TEX0) 15) 4)).
  assert (Hcb : (cb <= 240)%nat) by (subst cb; rewrite shiftl4_mul; lia).
  assert (Hcolor : forall k : nat, (k < 16)%nat ->
            rd (ReadCLUT_T32_I4
                  (WriteCLUT_T32_I4_CSM1 (BlockPtr32 (CBP TEX0)) 0 (m_clut s) cb) cb
                  (m_buff32 s) 0) k = rd (BlockPtr32 (CBP TEX0)) (T32_I4_order k)).
  { intros k Hk.
    replace k with (0 + k)%nat at 1 by lia.
    rewrite ReadCLUT_T32_I4_at by lia. unfold clut_entry32.
    rewrite WriteCLUT_T32_I4_CSM1_lo by lia.
    replace (cb + k + 256)%nat with (cb + 256 + k)%nat by lia.
    rewrite WriteCLUT_T32_I4_CSM1_hi by lia.
    apply merge16_split. now apply rd_u32. }
  split; [exact Hcolor|].
  intros i j Hi Hj.
  rewrite ExpandCLUT64_T32_I8_pairs_aux by assumption.
  rewrite !Hcolor by assumption.
  rewrite !wrap32_u32 by now apply rd_u32. reflexivity.
Qed.

(** ** The colors of the 16-bit expansion *)

Lemma Expand16_rgb_word (c : Z) :
  u16 c ->
  merge16 (GSVector4i.u0 (Expand16_rgb (GSVector4i.V c c c c c c c c)))
          (GSVector4i.u1 (Expand16_rgb (GSVector4i.V c c c c c c c c))) =
  Z.lor (Z.lor (Z.shiftl (Z.land c 0x1f) 3) (Z.shiftl (Z.land c 0x3e0) 6))
        (Z.shiftl (Z.land c 0x7c00) 9).
Proof.
  intros Hc. apply Z.eqb_eq. revert c Hc.
  apply (forall_u16 (fun c =>
    merge16 (GSVector4i.u0 (Expand16_rgb (GSVector4i.V c c c c c c c c)))
            (GSVector4i.u1 (Expand16_rgb (GSVector4i.V c c c c c c c c))) =?
    Z.lor (Z.lor (Z.shiftl (Z.land c 0x1f) 3) (Z.shiftl (Z.land c 0x3e0) 6))
          (Z.shiftl (Z.land c 0x7c00) 9))).
  vm_compute. reflexivity.
Qed.

Lemma lo16_shiftl24 (t : Z) : lo16 (Z.shiftl t 24) = 0.
Proof.
  unfold lo16. change 65535 with (Z.ones 16). rewrite Z.land_ones by lia.
  rewrite Z.shiftl_mul_pow2 by lia. change (2 ^ 24) with (256 * 2 ^ 16).
  rewrite Z.mul_assoc. apply Z_mod_mult.
Qed.

Lemma blend8_lane_zero (m : Z) : GSVector4i.blend8_lane 0 0 m = 0.
Proof. unfold GSVector4i.blend8_lane. now destruct (Z.testbit m 7), (Z.testbit m 15). Qed.

Lemma Expand16_alpha_u0 (aem : bool) (a b c : Z) :
  GSVector4i.u0 (Expand16_alpha aem (GSVector4i.splat32 (Z.shiftl a 24))
                   (GSVector4i.splat32 (Z.shiftl b 24))
                   (GSVector4i.V c c c c c c c c)) = 0.
Proof.
  destruct aem; cbn [Expand16_alpha GSVector4i.u0 GSVector4i.andnot GSVector4i.zip16
                      GSVector4i.blend8 GSVector4i.splat32 GSVector4i.sra16 GSVector4i.map16];
    rewrite !lo16_shiftl24, blend8_lane_zero; [apply Z.ldiff_0_l | reflexivity].
Qed.

Lemma blend8_hi_word (t : Z) :
  0 <= t < 256 ->
  Z.lor (Z.land (hi16 (Z.shiftl t 24)) 255) (Z.land (hi16 (Z.shiftl t 24)) 65280) =
  Z.shiftl t 8.
Proof.
  intros Ht. apply Z.eqb_eq. revert t Ht.
  apply (forall_u8 (fun t =>
    Z.lor (Z.land (hi16 (Z.shiftl t 24)) 255) (Z.land (hi16 (Z.shiftl t 24)) 65280) =?
    Z.shiftl t 8)).
  vm_compute. reflexivity.
Qed.

Lemma blend8_hi_andnot_word (t : Z) :
  0 <= t < 256 ->
  Z.ldiff (Z.lor (Z.land (hi16 (Z.shiftl t 24)) 255)
                 (Z.land (hi16 (Z.shiftl t 24)) 65280)) 65535 = 0.
Proof.
  intros Ht. apply Z.eqb_eq. revert t Ht.
  apply (forall_u8 (fun t =>
    Z.ldiff (Z.lor (Z.land (hi16 (Z.shiftl t 24)) 255)
                   (Z.land (hi16 (Z.shiftl t 24)) 65280)) 65535 =? 0)).
  vm_compute. reflexivity.
Qed.

Lemma Expand16_alpha_u1 (aem : bool) (ta0 ta1 c : Z) :
  u16 c -> 0 <= ta0 < 256 -> 0 <= ta1 < 256 ->
  GSVector4i.u1 (Expand16_alpha aem (GSVector4i.splat32 (Z.shiftl ta0 24))
                   (GSVector4i.splat32 (Z.shiftl ta1 24))
                   (GSVector4i.V c c c c c c c c)) =
  Z.shiftl (if aem && (c =? 0) then 0 else if Z.testbit c 15 then ta1 else ta0) 8.
Proof.
  intros Hc H0 H1.
  destruct aem; cbn [Expand16_alpha GSVector4i.u1 GSVector4i.andnot GSVector4i.zip16
                      GSVector4i.blend8 GSVector4i.splat32 GSVector4i.sra16 GSVector4i.map16
                      GSVector4i.eq32 GSVector4i.zip32 GSVector4i.zero
                      GSVector4i.u0 andb];
    rewrite sra16_15_lane by assumption.
  - rewrite eq32_zero_lane by assumption.
    destruct (Z.eqb_spec c 0) as [Hz | Hz].
    + rewrite (testbit15_zero c Hz). now apply blend8_hi_andnot_word.
    + change (hi16 0) with 0. rewrite Z.ldiff_0_r.
      destruct (Z.testbit c 15); now apply blend8_hi_word.
  - destruct (Z.testbit c 15); now apply blend8_hi_word.
Qed.

(** The 32-bit color of one 16-bit entry, channel by channel. *)
Lemma Expand16_color_word (aem : bool) (ta0 ta1 c : Z) :
  u16 c -> 0 <= ta0 < 256 -> 0 <= ta1 < 256 ->
  Expand16_color aem ta0 ta1 c =
  Z.lor (Z.lor (Z.lor (Z.shiftl (Z.land c 0x1f) 3) (Z.shiftl (Z.land c 0x3e0) 6))
               (Z.shiftl (Z.land c 0x7c00) 9))
        (Z.shiftl (if aem && (c =? 0) then 0 else if Z.testbit c 15 then ta1 else ta0) 24).
Proof.
  intros Hc H0 H1. rewrite Expand16_color_eq. cbv zeta.
  rewrite Expand16_alpha_u0, Expand16_alpha_u1 by assumption.
  rewrite <- Expand16_rgb_word by assumption.
  unfold merge16. rewrite Z.lor_0_r, Z.shiftl_lor, Z.shiftl_shiftl by lia.
  change (8 + 16) with 24. now rewrite Z.lor_assoc.
Qed.

Lemma Expand16_other (src : list Z) (sb : nat) (dst : list Z) (w TEXA : Z) (j : nat) :
  (8 * Z.to_nat (Z.shiftr w 3) <= j)%nat ->
  rd (Expand16 src sb dst w TEXA) j = rd dst j.
Proof.
  intros Hj. unfold Expand16, for_range. rewrite Nat.sub_0_r.
  apply (fold_blocks_other _ (fun i j => (8 * i <= j < 8 * i + 8)%nat)
           (fun i => (i < Z.to_nat (Z.shiftr w 3))%nat)).
  - intros i p j' Hi Hj'. rewrite !rd_store32_out by lia. reflexivity.
  - intros i Hi. apply in_seq in Hi. lia.
Qed.

Lemma Expand16_at_word (src : list Z) (sb : nat) (dst : list Z) (w TEXA : Z) (j : nat) :
  u16 (rd src (sb + j)) ->
  (j < 8 * Z.to_nat (Z.shiftr w 3))%nat ->
  (8 * Z.to_nat (Z.shiftr w 3) <= length dst)%nat ->
  rd (Expand16 src sb dst w TEXA) j = RGBA_of_16 TEXA (rd src (sb + j)).
Proof.
  intros Hc Hj Hlen. rewrite Expand16_at by assumption.
  apply Expand16_color_word.
  - assumption.
  - apply (bits_range TEXA 0 8). lia.
  - apply (bits_range TEXA 32 8). lia.
Qed.

(** X12.  [Expand16] turns each of the [w] 16-bit entries into a 32-bit color
    channel by channel ([RGBA_of_16]): the three 5-bit channels go to the top
    five bits of the bytes 0, 1 and 2 (the low three bits of each byte stay
    0), and the alpha byte is 0 for a zero entry under AEM, else TA1 or TA0 by
    bit 15 of the entry.  It writes [w] colors and leaves the rest of the
    buffer. *)
Theorem Expand16_colors (src dst : list Z) (sb : nat) (w TEXA : Z) :
  List.Forall u16 src -> 0 <= w -> Z.land w 7 = 0 -> (Z.to_nat w <= length dst)%nat ->
  length (Expand16 src sb dst w TEXA) = length dst
  /\ (forall j : nat, (j < Z.to_nat w)%nat ->
        rd (Expand16 src sb dst w TEXA) j = RGBA_of_16 TEXA (rd src (sb + j)))
  /\ (forall j : nat, (Z.to_nat w <= j)%nat -> rd (Expand16 src sb dst w TEXA) j = rd dst j).
Proof.
  intros Hsrc Hw H7 Hlen. split; [apply length_Expand16|].
  pose proof (shiftr3_count w Hw H7) as Hcount. split.
  - intros j Hj. apply Expand16_at_word; [now apply rd_u16|lia|lia].
  - intros j Hj. apply Expand16_other. lia.
Qed.

(** ** The load of a 256-entry 16-bit palette *)

(** One pass of the loop of [WriteCLUT_T16_I8_CSM1]: 32 entries. *)
Lemma WriteCLUT_T16_I8_CSM1_pass (src clut : list Z) (cb i k : nat) :
  (cb + 8 * i + 32 <= length clut)%nat -> (k < 32)%nat ->
  rd (let v0 := GSVector4i.load16 src 0 (i + 0) in
      let v1 := GSVector4i.load16 src 0 (i + 1) in
      let v2 := GSVector4i.load16 src 0 (i + 2) in
      let v3 := GSVector4i.load16 src 0 (i + 3) in
      let '(v0, v1, v2, v3) := GSVector4i.sw16 v0 v1 v2 v3 in
      let '(v0, v1, v2, v3) := GSVector4i.sw32 v0 v1 v2 v3 in
      let '(v0, v2, v1, v3) := GSVector4i.sw16 v0 v2 v1 v3 in
      let clut := GSVector4i.store16 clut cb (i + 0) v0 in
      let clut := GSVector4i.store16 clut cb (i + 1) v2 in
      let clut := GSVector4i.store16 clut cb (i + 2) v1 in
      GSVector4i.store16 clut cb (i + 3) v3) (cb + 8 * i + k) =
  rd src (8 * i + T16_I8_order k).
Proof.
  intros Hlen Hk. cbv [GSVector4i.sw16 GSVector4i.sw32].
  do 32 (destruct k as [|k];
         [ rd_store16s; nth_index;
           cbv [nth GSVector4i.u16s GSVector4i.upl16 GSVector4i.uph16
                GSVector4i.upl32 GSVector4i.uph32 GSVector4i.load16
                GSVector4i.u0 GSVector4i.u1 GSVector4i.u2 GSVector4i.u3
                GSVector4i.u4 GSVector4i.u5 GSVector4i.u6 GSVector4i.u7 T16_I8_order];
           f_equal; lia | ]).
  lia.
Qed.

Lemma T16_I8_order_perm (k : nat) :
  (k < 32)%nat ->
  (T16_I8_order k < 32)%nat
  /\ exists k', (k' < 32)%nat /\ T16_I8_order k' = k.
Proof.
  intros Hk.
  do 32 (destruct k as [|k];
         [split; [cbn; lia|];
          first [ exists 0%nat; split; [lia|reflexivity] | exists 1%nat; split; [lia|reflexivity]
                | exists 2%nat; split; [lia|reflexivity] | exists 3%nat; split; [lia|reflexivity]
                | exists 4%nat; split; [lia|reflexivity] | exists 5%nat; split; [lia|reflexivity]
                | exists 6%nat; split; [lia|reflexivity] | exists 7%nat; split; [lia|reflexivity]
                | exists 8%nat; split; [lia|reflexivity] | exists 9%nat; split; [lia|reflexivity]
                | exists 10%nat; split; [lia|reflexivity] | exists 11%nat; split; [lia|reflexivity]
                | exists 12%nat; split; [lia|reflexivity] | exists 13%nat; split; [lia|reflexivity]
                | exists 14%nat; split; [lia|reflexivity] | exists 15%nat; split; [lia|reflexivity]
                | exists 16%nat; split; [lia|reflexivity] | exists 17%nat; split; [lia|reflexivity]
                | exists 18%nat; split; [lia|reflexivity] | exists 19%nat; split; [lia|reflexivity]
                | exists 20%nat; split; [lia|reflexivity] | exists 21%nat; split; [lia|reflexivity]
                | exists 22%nat; split; [lia|reflexivity] | exists 23%nat; split; [lia|reflexivity]
                | exists 24%nat; split; [lia|reflexivity] | exists 25%nat; split; [lia|reflexivity]
                | exists 26%nat; split; [lia|reflexivity] | exists 27%nat; split; [lia|reflexivity]
                | exists 28%nat; split; [lia|reflexivity] | exists 29%nat; split; [lia|reflexivity]
                | exists 30%nat; split; [lia|reflexivity] | exists 31%nat; split; [lia|reflexivity] ]
         |]).
  lia.
Qed.

Lemma length_WriteCLUT_T16_I8_CSM1 src clut cb :
  length (WriteCLUT_T16_I8_CSM1 src clut cb) = length clut.
Proof.
  unfold WriteCLUT_T16_I8_CSM1, for_step. apply fold_blocks_length.
  intros i p. cbv [GSVector4i.sw16 GSVector4i.sw32]. now rewrite !length_store16.
Qed.

Lemma WriteCLUT_T16_I8_CSM1_at (src clut : list Z) (cb b k : nat) :
  (cb + 256 <= length clut)%nat -> (b < 8)%nat -> (k < 32)%nat ->
  rd (WriteCLUT_T16_I8_CSM1 src clut cb) (cb + 32 * b + k) =
  rd src (32 * b + T16_I8_order k).
Proof.
  intros Hlen Hb Hk. unfold WriteCLUT_T16_I8_CSM1, for_step.
  etransitivity.
  apply (fold_blocks_own _ (fun i j => (cb + 8 * i <= j < cb + 8 * i + 32)%nat)
           (fun i j => rd src (8 * i + T16_I8_order (j - (cb + 8 * i))))
           (fun i => (i <= 28 /\ Nat.divide 4 i)%nat) (cb + 256)%nat)
    with (i := (4 * b)%nat).
  - intros i p. cbv [GSVector4i.sw16 GSVector4i.sw32]. now rewrite !length_store16.
  - intros i p j [Hi _] Hp Hj.
    replace j with (cb + 8 * i + (j - (cb + 8 * i)))%nat at 1 by lia.
    apply WriteCLUT_T16_I8_CSM1_pass; lia.
  - intros i p j _ Hj. cbv [GSVector4i.sw16 GSVector4i.sw32].
    now rewrite !rd_store16_out by lia.
  - intros i i' j [_ [a ->]] [_ [a' ->]] Hne Hj. lia.
  - apply Injective_map_NoDup; [|apply seq_NoDup]. intros a a' Ha. lia.
  - intros i' Hi'. apply in_map_iff in Hi' as [a [<- Ha]]. apply in_seq in Ha.
    split; [lia|]. exists a. lia.
  - lia.
  - apply in_map_iff. exists b. split; [reflexivity|]. apply in_seq. lia.
  - lia.
  - cbv beta. f_equal. replace (cb + 32 * b + k - (cb + 8 * (4 * b)))%nat with k by lia. lia.
Qed.

Lemma WriteCLUT_T16_I8_CSM1_other (src clut : list Z) (cb j : nat) :
  (j < cb \/ cb + 256 <= j)%nat ->
  rd (WriteCLUT_T16_I8_CSM1 src clut cb) j = rd clut j.
Proof.
  intros Hj. unfold WriteCLUT_T16_I8_CSM1, for_step.
  apply (fold_blocks_other _ (fun i j => (cb + 8 * i <= j < cb + 8 * i + 32)%nat)
           (fun i => (i <= 28)%nat)).
  - intros i p j' _ Hj'. cbv [GSVector4i.sw16 GSVector4i.sw32].
    now rewrite !rd_store16_out by lia.
  - intros i Hi. apply in_map_iff in Hi as [a [<- Ha]]. apply in_seq in Ha. lia.
Qed.

(** X13.  [WriteCLUT_T16_I8_CSM1] moves the 256 source entries into the
    palette buffer 32 at a time, each pass in the fixed order [T16_I8_order]:
    entry [32 b + k] of the palette is source entry [32 b + T16_I8_order k].
    The order is a permutation of 0..31, so every source entry arrives exactly
    once; nothing outside the 256 entries is written. *)
Theorem WriteCLUT_T16_I8_CSM1_order (src clut : list Z) (cb : nat) :
  (cb + 256 <= length clut)%nat ->
  length (WriteCLUT_T16_I8_CSM1 src clut cb) = length clut
  /\ (forall b k : nat, (b < 8)%nat -> (k < 32)%nat ->
        rd (WriteCLUT_T16_I8_CSM1 src clut cb) (cb + 32 * b + k) =
        rd src (32 * b + T16_I8_order k))
  /\ (forall k : nat, (k < 32)%nat ->
        (T16_I8_order k < 32)%nat /\ exists k', (k' < 32)%nat /\ T16_I8_order k' = k)
  /\ (forall j : nat, (j < cb \/ cb + 256 <= j)%nat ->
        rd (WriteCLUT_T16_I8_CSM1 src clut cb) j = rd clut j).
Proof.
  intros Hlen. split; [apply length_WriteCLUT_T16_I8_CSM1|]. split; [|split].
  - intros b k Hb Hk. now apply WriteCLUT_T16_I8_CSM1_at.
  - exact T16_I8_order_perm.
  - intros j Hj. now apply WriteCLUT_T16_I8_CSM1_other.
Qed.

(** ** The coordinate-streamed load *)

Lemma rd_insert (p : list Z) (i j : nat) (x : Z) :
  rd (<[i:=x]> p) j = if (i =? j)%nat && (i <? length p)%nat then x else rd p j.
Proof.
  unfold rd. rewrite list_lookup_insert.
  destruct (Nat.eqb_spec i j), (Nat.ltb_spec i (length p)); cbn [andb];
    destruct (decide _) as [[? ?] | Hn]; try reflexivity; lia.
Qed.

Lemma length_WriteCLUT32_CSM2 n clut TEX0 TEXCLUT :
  length (WriteCLUT32_CSM2 n clut TEX0 TEXCLUT) = length clut.
Proof.
  unfold WriteCLUT32_CSM2, for_range. cbv zeta. apply fold_blocks_length.
  intros i p. now rewrite !length_insert.
Qed.

(** Entry [i] of the stream goes to the palette entry [cb + i], split into
    its halves. *)
Lemma WriteCLUT32_CSM2_at (n : nat) (clut : list Z) (TEX0 TEXCLUT : Z) (i : nat) :
  let pa := paMulti_value PSM_PSMCT32 (CBP TEX0) (CBW TEXCLUT)
              (Z.shiftl (COU TEXCLUT) 4) (COV TEXCLUT) in
  let cb := Z.to_nat (Z.shiftl (Z.land (CSA TEX0) 15) 4) in
  (n <= 256)%nat -> (i < n)%nat -> (cb + 512 <= length clut)%nat ->
  clut_entry32 (WriteCLUT32_CSM2 n clut TEX0 TEXCLUT) (cb + i) = wrap32 (pa i).
Proof.
  intros pa cb Hn Hi Hlen. unfold clut_entry32.
  assert (Hown : forall j : nat, (j = cb + i \/ j = cb + i + 256)%nat ->
            rd (WriteCLUT32_CSM2 n clut TEX0 TEXCLUT) j =
            if (j =? cb + i)%nat then lo16 (pa i) else lo16 (Z.shiftr (pa i) 16)).
  { intros j Hj. unfold WriteCLUT32_CSM2, for_range. cbv zeta. fold pa. fold cb.
    rewrite Nat.sub_0_r.
    apply (fold_blocks_own _ (fun i j => (j = cb + i \/ j = cb + i + 256)%nat)
             (fun i j => if (j =? cb + i)%nat then lo16 (pa i) else lo16 (Z.shiftr (pa i) 16))
             (fun i => (i < n)%nat) (cb + 512)%nat).
    - intros i' p. now rewrite !length_insert.
    - intros i' p j' Hi' Hp Hj'. rewrite !rd_insert, !length_insert.
      destruct Hj' as [-> | ->].
      + rewrite Nat.eqb_refl.
        destruct (Nat.eqb_spec (cb + i' + 256) (cb + i')); [lia|].
        destruct (Nat.ltb_spec (cb + i') (length p)); [reflexivity|lia].
      + destruct (Nat.eqb_spec (cb + i' + 256) (cb + i')); [lia|].
        rewrite Nat.eqb_refl.
        destruct (Nat.ltb_spec (cb + i' + 256) (length p)); [reflexivity|lia].
    - intros i' p j' Hi' Hj'. rewrite !rd_insert.
      destruct (Nat.eqb_spec (cb + i' + 256) j'); [lia|].
      destruct (Nat.eqb_spec (cb + i') j'); [lia|]. reflexivity.
    - intros. lia.
    - apply seq_NoDup.
    - intros i' Hi'. apply in_seq in Hi'. lia.
    - assumption.
    - apply in_seq. lia.
    - assumption. }
  rewrite !Hown by lia. rewrite Nat.eqb_refl.
  destruct (Nat.eqb_spec (cb + i + 256) (cb + i)); [lia|].
  apply merge16_split_wrap.
Qed.

Lemma m_wc_CSM2_32 (TEX0 : Z) :
  CSM TEX0 = 1 -> CPSM TEX0 = PSM_PSMCT32 \/ CPSM TEX0 = PSM_PSMCT24 ->
  (PSM TEX0 = PSM_PSMT8 \/ PSM TEX0 = PSM_PSMT8H ->
   m_wc (CSM TEX0) (CPSM TEX0) (PSM TEX0) = R_WriteCLUT32_CSM2 256
   /\ is_T8 (PSM TEX0) = true)
  /\ (PSM TEX0 = PSM_PSMT4 \/ PSM TEX0 = PSM_PSMT4HL \/ PSM TEX0 = PSM_PSMT4HH ->
      m_wc (CSM TEX0) (CPSM TEX0) (PSM TEX0) = R_WriteCLUT32_CSM2 16
      /\ is_T8 (PSM TEX0) = false /\ is_T4 (PSM TEX0) = true)
  /\ (CPSM TEX0 =? PSM_PSMCT32) || (CPSM TEX0 =? PSM_PSMCT24) = true.
Proof.
  intros -> [-> | ->]; (split; [|split]);
    first [ reflexivity
          | intros [-> | ->]; repeat split
          | intros [-> | [-> | ->]]; repeat split ].
Qed.

(** X14.  The coordinate-streamed load of 32-bit colors followed by the
    expansion.  For a 4-bit pixel format the sixteen expanded colors are the
    first sixteen words of the stream, at any column-select.  For an 8-bit
    pixel format, color [16 g + k] is word [16 g + k] of the stream as long as
    group [g] plus the column-select (its low four bits) does not pass 15;
    the groups beyond that all repeat the words of the last group that fits. *)
Theorem Write_Read32_CSM2_32 (s : GSClut) (TEX0 TEXCLUT TEXA : Z) :
  CSM TEX0 = 1 -> CPSM TEX0 = PSM_PSMCT32 \/ CPSM TEX0 = PSM_PSMCT24 ->
  (1024 <= length (m_clut s))%nat -> (256 <= length (m_buff32 s))%nat ->
  let s' := Read32 (Write s TEX0 TEXCLUT) TEX0 TEXA in
  let pa := paMulti_value PSM_PSMCT32 (CBP TEX0) (CBW TEXCLUT)
              (Z.shiftl (COU TEXCLUT) 4) (COV TEXCLUT) in
  let csa := Z.to_nat (Z.land (CSA TEX0) 15) in
  (PSM TEX0 = PSM_PSMT4 \/ PSM TEX0 = PSM_PSMT4HL \/ PSM TEX0 = PSM_PSMT4HH ->
   forall k : nat, (k < 16)%nat -> rd (m_buff32 s') k = wrap32 (pa k))
  /\ (PSM TEX0 = PSM_PSMT8 \/ PSM TEX0 = PSM_PSMT8H ->
      forall g k : nat, (g < 16)%nat -> (k < 16)%nat ->
        rd (m_buff32 s') (16 * g + k) =
        wrap32 (pa (if (g + csa <=? 15)%nat then 16 * g + k else 16 * (15 - csa) + k)%nat)).
Proof.
  intros Hcsm Hcpsm Hclut Hb32. cbv zeta.
  destruct (m_wc_CSM2_32 TEX0 Hcsm Hcpsm) as (H8 & H4 & Hc).
  pose proof (land15_range (CSA TEX0)) as Hcsa.
  assert (Hcb : Z.to_nat (Z.shiftl (Z.land (CSA TEX0) 15) 4) =
                (16 * Z.to_nat (Z.land (CSA TEX0) 15))%nat)
    by (rewrite shiftl4_mul; lia).
  split.
  - intros Hpsm k Hk. destruct (H4 Hpsm) as (Hwc & Ht8 & Ht4).
    rewrite Write_eq. unfold Read32. cbn [m_read].
    rewrite ReadState_IsDirty_dirty by reflexivity.
    rewrite Hwc, Hc, Ht8, Ht4. cbv iota.
    cbn [set_m_read set_m_buff32 set_m_buff64 m_buff32 m_buff64 m_clut
         call_WriteRoutine set_m_clut].
    replace k with (0 + k)%nat at 1 by lia.
    rewrite ReadCLUT_T32_I4_at by lia.
    apply (WriteCLUT32_CSM2_at 16 (m_clut s) TEX0 TEXCLUT k); lia.
  - intros Hpsm g k Hg Hk. destruct (H8 Hpsm) as (Hwc & Ht8).
    rewrite Write_eq. unfold Read32. cbn [m_read].
    rewrite ReadState_IsDirty_dirty by reflexivity.
    rewrite Hwc, Hc, Ht8. cbv iota.
    cbn [set_m_read set_m_buff32 set_m_buff64 m_buff32 m_buff64 m_clut
         call_WriteRoutine set_m_clut].
    rewrite ReadCLUT_T32_I8_at by lia. unfold ReadCLUT_T32_I8_base.
    rewrite shiftl4_mul.
    destruct (Nat.leb_spec (g + Z.to_nat (Z.land (CSA TEX0) 15)) 15) as [Hfit | Hpast].
    + replace (Z.to_nat (Z.min (Z.of_nat (16 * g) + 16 * Z.land (CSA TEX0) 15) 240) + k)%nat
        with (Z.to_nat (Z.shiftl (Z.land (CSA TEX0) 15) 4) + (16 * g + k))%nat by lia.
      apply (WriteCLUT32_CSM2_at 256 (m_clut s) TEX0 TEXCLUT (16 * g + k)); lia.
    + replace (Z.to_nat (Z.min (Z.of_nat (16 * g) + 16 * Z.land (CSA TEX0) 15) 240) + k)%nat
        with (Z.to_nat (Z.shiftl (Z.land (CSA TEX0) 15) 4)
              + (16 * (15 - Z.to_nat (Z.land (CSA TEX0) 15)) + k))%nat by lia.
      apply (WriteCLUT32_CSM2_at 256 (m_clut s) TEX0 TEXCLUT
               (16 * (15 - Z.to_nat (Z.land (CSA TEX0) 15)) + k)); lia.
Qed.

(** ** The load and the expansion of a 16-bit palette *)

Lemma for_range_insert_length (f : nat -> Z) (cb n : nat) (clut : list Z) :
  length (for_range 0 n (fun i clut => <[(cb + i)%nat := f i]> clut) clut) = length clut.
Proof.
  unfold for_range. apply fold_blocks_length. intros i p. apply length_insert.
Qed.

Lemma for_range_insert_at (f : nat -> Z) (cb n : nat) (clut : list Z) (i : nat) :
  (i < n)%nat -> (cb + n <= length clut)%nat ->
  rd (for_range 0 n (fun i clut => <[(cb + i)%nat := f i]> clut) clut) (cb + i) = f i.
Proof.
  intros Hi Hlen. unfold for_range. rewrite Nat.sub_0_r.
  apply (fold_blocks_own _ (fun i j => j = (cb + i)%nat) (fun i j => f i)
           (fun i => (i < n)%nat) (cb + n)%nat).
  - intros i' p. apply length_insert.
  - intros i' p j Hi' Hp ->. rewrite rd_insert, Nat.eqb_refl.
    destruct (Nat.ltb_spec (cb + i') (length p)); [reflexivity|lia].
  - intros i' p j Hi' Hj. rewrite rd_insert.
    destruct (Nat.eqb_spec (cb + i') j); [congruence|reflexivity].
  - intros. lia.
  - apply seq_NoDup.
  - intros i' Hi'. apply in_seq in Hi'. lia.
  - assumption.
  - apply in_seq. lia.
  - reflexivity.
Qed.

Lemma for_range_insert_other (f : nat -> Z) (cb n : nat) (clut : list Z) (j : nat) :
  (j < cb \/ cb + n <= j)%nat ->
  rd (for_range 0 n (fun i clut => <[(cb + i)%nat := f i]> clut) clut) j = rd clut j.
Proof.
  intros Hj. unfold for_range. rewrite Nat.sub_0_r.
  apply (fold_blocks_other _ (fun i j => j = (cb + i)%nat) (fun i => (i < n)%nat)).
  - intros i' p j' Hi' Hj'. rewrite rd_insert.
    destruct (Nat.eqb_spec (cb + i') j'); [congruence|reflexivity].
  - intros i' Hi'. apply in_seq in Hi'. lia.
Qed.

Lemma CSA_range (TEX0 : Z) : 0 <= CSA TEX0 < 32.
Proof. apply (bits_range TEX0 56 5). lia. Qed.

(** The expansion of a dirty 16-bit palette, entry by entry. *)
Lemma Read32_16_at (s : GSClut) (TEX0 TEXA : Z) (j : nat) :
  ReadState.dirty (m_read s) = true ->
  CPSM TEX0 = PSM_PSMCT16 \/ CPSM TEX0 = PSM_PSMCT16S ->
  (256 <= length (m_buff32 s))%nat ->
  u16 (rd (m_clut s) (Z.to_nat (Z.shiftl (CSA TEX0) 4) + j)) ->
  ((PSM TEX0 = PSM_PSMT8 \/ PSM TEX0 = PSM_PSMT8H) /\ (j < 256)%nat)
  \/ ((PSM TEX0 = PSM_PSMT4 \/ PSM TEX0 = PSM_PSMT4HL \/ PSM TEX0 = PSM_PSMT4HH)
      /\ (j < 16)%nat) ->
  rd (m_buff32 (Read32 s TEX0 TEXA)) j =
  RGBA_of_16 TEXA (rd (m_clut s) (Z.to_nat (Z.shiftl (CSA TEX0) 4) + j)).
Proof.
  intros Hd Hcpsm Hb32 Hc Hpsm. unfold Read32.
  rewrite ReadState_IsDirty_dirty by assumption.
  assert (Hc1 : (CPSM TEX0 =? PSM_PSMCT32) || (CPSM TEX0 =? PSM_PSMCT24) = false)
    by (destruct Hcpsm as [-> | ->]; reflexivity).
  assert (Hc2 : (CPSM TEX0 =? PSM_PSMCT16) || (CPSM TEX0 =? PSM_PSMCT16S) = true)
    by (destruct Hcpsm as [-> | ->]; reflexivity).
  rewrite Hc1, Hc2. cbv iota.
  destruct Hpsm as [[Hpsm Hj] | [Hpsm Hj]].
  - assert (H8 : is_T8 (PSM TEX0) = true) by (destruct Hpsm as [-> | ->]; reflexivity).
    rewrite H8. cbn [set_m_read set_m_buff32 m_buff32 m_clut].
    apply Expand16_at_word; [assumption| |];
      change (Z.to_nat (Z.shiftr 256 3)) with 32%nat; lia.
  - assert (H8 : is_T8 (PSM TEX0) = false)
      by (destruct Hpsm as [-> | [-> | ->]]; reflexivity).
    assert (H4 : is_T4 (PSM TEX0) = true)
      by (destruct Hpsm as [-> | [-> | ->]]; reflexivity).
    rewrite H8, H4. cbn [set_m_read set_m_buff32 set_m_buff64 m_buff32 m_clut].
    apply Expand16_at_word; [assumption| |];
      change (Z.to_nat (Z.shiftr 16 3)) with 2%nat; lia.
Qed.

(** X15.  The coordinate-streamed load of 16-bit colors followed by the
    expansion, at any column-select (all five bits of it): expanded color [j]
    is the 32-bit color of word [j] of the stream, for the 256 colors of an
    8-bit pixel format and the 16 colors of a 4-bit one. *)
Theorem Write_Read32_CSM2_16 (s : GSClut) (TEX0 TEXCLUT TEXA : Z) (j : nat) :
  CSM TEX0 = 1 -> CPSM TEX0 = PSM_PSMCT16 \/ CPSM TEX0 = PSM_PSMCT16S ->
  (1024 <= length (m_clut s))%nat -> (256 <= length (m_buff32 s))%nat ->
  let pa := paMulti_value (CPSM TEX0) (CBP TEX0) (CBW TEXCLUT)
              (Z.shiftl (COU TEXCLUT) 4) (COV TEXCLUT) in
  u16 (pa j) ->
  ((PSM TEX0 = PSM_PSMT8 \/ PSM TEX0 = PSM_PSMT8H) /\ (j < 256)%nat)
  \/ ((PSM TEX0 = PSM_PSMT4 \/ PSM TEX0 = PSM_PSMT4HL \/ PSM TEX0 = PSM_PSMT4HH)
      /\ (j < 16)%nat) ->
  rd (m_buff32 (Read32 (Write s TEX0 TEXCLUT) TEX0 TEXA)) j = RGBA_of_16 TEXA (pa j).
Proof.
  intros Hcsm Hcpsm Hclut Hb32 pa Hpa Hpsm.
  pose proof (CSA_range TEX0) as Hcsa.
  assert (Hcb : (Z.to_nat (Z.shiftl (CSA TEX0) 4) <= 496)%nat)
    by (rewrite shiftl4_mul; lia).
  assert (Hentry : rd (m_clut (Write s TEX0 TEXCLUT))
                     (Z.to_nat (Z.shiftl (CSA TEX0) 4) + j) = pa j).
  { rewrite Write_eq. cbn [m_clut]. subst pa. rewrite Hcsm.
    destruct Hcpsm as [-> | ->];
      destruct Hpsm as [[[-> | ->] Hj] | [[-> | [-> | ->]] Hj]];
      cbn [m_wc Z.eqb Pos.eqb orb Z.land Pos.land call_WriteRoutine set_m_clut m_clut];
      apply for_range_insert_at; lia. }
  rewrite Read32_16_at.
  - now rewrite Hentry.
  - rewrite Write_eq. reflexivity.
  - assumption.
  - rewrite Write_eq. cbn [m_buff32]. assumption.
  - now rewrite Hentry.
  - assumption.
Qed.

(** X16.  The index-table load of 16-bit colors followed by the expansion,
    at any column-select.  For an 8-bit pixel format, expanded color
    [32 b + k] is the 32-bit color of the source entry
    [32 b + T16_I8_order k]; for a 4-bit pixel format, expanded color [k] is
    the 32-bit color of the source entry [clutTableT16I4[k]].  The source is
    the block at the base pointer, in the layout of the color storage
    format. *)
Theorem Write_Read32_CSM1_16 (s : GSClut) (TEX0 TEXCLUT TEXA : Z) :
  CSM TEX0 = 0 -> CPSM TEX0 = PSM_PSMCT16 \/ CPSM TEX0 = PSM_PSMCT16S ->
  (1024 <= length (m_clut s))%nat -> (256 <= length (m_buff32 s))%nat ->
  let src := if CPSM TEX0 =? PSM_PSMCT16 then BlockPtr16 (CBP TEX0)
             else BlockPtr16S (CBP TEX0) in
  List.Forall u16 src ->
  let s' := Read32 (Write s TEX0 TEXCLUT) TEX0 TEXA in
  (PSM TEX0 = PSM_PSMT8 \/ PSM TEX0 = PSM_PSMT8H ->
   forall b k : nat, (b < 8)%nat -> (k < 32)%nat ->
     rd (m_buff32 s') (32 * b + k) = RGBA_of_16 TEXA (rd src (32 * b + T16_I8_order k)))
  /\ (PSM TEX0 = PSM_PSMT4 \/ PSM TEX0 = PSM_PSMT4HL \/ PSM TEX0 = PSM_PSMT4HH ->
      forall k : nat, (k < 16)%nat ->
        rd (m_buff32 s') k =
        RGBA_of_16 TEXA (rd src (Z.to_nat (clutTableT16I4 (Z.of_nat k))))).
Proof.
  intros Hcsm Hcpsm Hclut Hb32 src Hsrc. cbv zeta.
  pose proof (CSA_range TEX0) as Hcsa.
  assert (Hcb : (Z.to_nat (Z.shiftl (CSA TEX0) 4) <= 496)%nat)
    by (rewrite shiftl4_mul; lia).
  split.
  - intros Hpsm b k Hb Hk.
    assert (Hentry : rd (m_clut (Write s TEX0 TEXCLUT))
                       (Z.to_nat (Z.shiftl (CSA TEX0) 4) + (32 * b + k)) =
                     rd src (32 * b + T16_I8_order k)).
    { rewrite Write_eq. cbn [m_clut]. subst src. rewrite Hcsm.
      destruct Hcpsm as [-> | ->]; destruct Hpsm as [-> | ->];
        cbn [m_wc Z.eqb Pos.eqb orb Z.land Pos.land call_WriteRoutine set_m_clut m_clut];
        unfold WriteCLUT16_I8_CSM1, WriteCLUT16S_I8_CSM1;
        rewrite Nat.add_assoc; apply WriteCLUT_T16_I8_CSM1_at; lia. }
    rewrite Read32_16_at.
    + now rewrite Hentry.
    + rewrite Write_eq. reflexivity.
    + assumption.
    + rewrite Write_eq. cbn [m_buff32]. assumption.
    + rewrite Hentry. now apply rd_u16.
    + left. split; [assumption|lia].
  - intros Hpsm k Hk.
    assert (Hentry : rd (m_clut (Write s TEX0 TEXCLUT))
                       (Z.to_nat (Z.shiftl (CSA TEX0) 4) + k) =
                     rd src (Z.to_nat (clutTableT16I4 (Z.of_nat k)))).
    { rewrite Write_eq. cbn [m_clut]. subst src. rewrite Hcsm.
      destruct Hcpsm as [-> | ->]; destruct Hpsm as [-> | [-> | ->]];
        cbn [m_wc Z.eqb Pos.eqb orb Z.land Pos.land call_WriteRoutine set_m_clut m_clut];
        unfold WriteCLUT16_I4_CSM1, WriteCLUT16S_I4_CSM1, WriteCLUT_T16_I4_CSM1;
        apply (for_range_insert_at
                 (fun i => rd _ (Z.to_nat (clutTableT16I4 (Z.of_nat i))))); lia. }
    rewrite Read32_16_at.
    + now rewrite Hentry.
    + rewrite Write_eq. reflexivity.
    + assumption.
    + rewrite Write_eq. cbn [m_buff32]. assumption.
    + rewrite Hentry. now apply rd_u16.
    + right. split; assumption.
Qed.

(** ** The dirty-checks, field by field *)

Lemma testbit_bits (x pos len n : Z) :
  0 <= pos -> 0 <= len -> 0 <= n ->
  Z.testbit (bits x pos len) n = Z.testbit x (n + pos) && (n <? len).
Proof.
  intros Hpos Hlen Hn. unfold bits. rewrite Z.land_spec, Z.shiftr_spec by assumption.
  destruct (Z.ltb_spec n len).
  - rewrite Z.ones_spec_low by lia. reflexivity.
  - rewrite Z.ones_spec_high by lia. reflexivity.
Qed.

Lemma bits_eq_iff (a b pos len : Z) :
  0 <= pos -> 0 <= len ->
  bits a pos len = bits b pos len <->
  (forall n, pos <= n < pos + len -> Z.testbit a n = Z.testbit b n).
Proof.
  intros Hpos Hlen. split.
  - intros He n Hn. apply (f_equal (fun x => Z.testbit x (n - pos))) in He.
    rewrite !testbit_bits in He by lia.
    replace (n - pos + pos) with n in He by lia.
    destruct (Z.ltb_spec (n - pos) len); [|lia]. now rewrite !andb_true_r in He.
  - intros H. apply Z.bits_inj'. intros n Hn. rewrite !testbit_bits by lia.
    destruct (Z.ltb_spec n len); [|now rewrite !andb_false_r].
    rewrite !andb_true_r. apply H. lia.
Qed.

Lemma mask_eq_iff (a b pos len : Z) :
  0 <= pos -> 0 <= len ->
  Z.land (Z.lxor a b) (Z.shiftl (Z.ones len) pos) = 0 <->
  (forall n, pos <= n < pos + len -> Z.testbit a n = Z.testbit b n).
Proof.
  intros Hpos Hlen. split.
  - intros He n Hn. apply (f_equal (fun x => Z.testbit x n)) in He.
    rewrite Z.land_spec, Z.lxor_spec, Z.shiftl_spec, Z.testbit_0_l in He by lia.
    rewrite Z.ones_spec_low, andb_true_r in He by lia.
    now apply xorb_eq.
  - intros H. apply Z.bits_inj'. intros n Hn.
    rewrite Z.land_spec, Z.lxor_spec, Z.testbit_0_l.
    destruct (Z.lt_ge_cases n pos).
    + rewrite Z.shiftl_spec_low by assumption. apply andb_false_r.
    + rewrite Z.shiftl_spec by lia.
      destruct (Z.lt_ge_cases (n - pos) len).
      * rewrite H by lia. now rewrite xorb_nilpotent.
      * rewrite Z.ones_spec_high by lia. apply andb_false_r.
Qed.

(** The mask that the source comments "CSA CSM CPSM CBP" covers exactly these
    four fields of TEX0. *)
Lemma tex0_mask_fields (a b : Z) :
  Z.land (Z.lxor a b) 0x1FFFFFE000000000 = 0 <->
  CBP a = CBP b /\ CPSM a = CPSM b /\ CSM a = CSM b /\ CSA a = CSA b.
Proof.
  change 0x1FFFFFE000000000 with (Z.shiftl (Z.ones 24) 37).
  rewrite mask_eq_iff by lia. unfold CBP, CPSM, CSM, CSA.
  rewrite !bits_eq_iff by lia. split.
  - intros H. repeat split; intros n Hn; apply H; lia.
  - intros (H1 & H2 & H3 & H4) n Hn.
    destruct (Z.lt_ge_cases n 51); [apply H1; lia|].
    destruct (Z.lt_ge_cases n 55); [apply H2; lia|].
    destruct (Z.lt_ge_cases n 56); [apply H3; lia|].
    apply H4; lia.
Qed.

Lemma land_lor_eq_0 (x m1 m2 : Z) :
  Z.land x (Z.lor m1 m2) = 0 <-> Z.land x m1 = 0 /\ Z.land x m2 = 0.
Proof. rewrite Z.land_lor_distr_r. apply Z.lor_eq_0_iff. Qed.

(** The masks commented "AEM TA0" and "TA1 AEM TA0" cover these fields of
    TEXA. *)
Lemma texa24_mask_fields (a b : Z) :
  Z.land (Z.lxor a b) 0x80FF = 0 <-> TA0 a = TA0 b /\ AEM a = AEM b.
Proof.
  change 0x80FF with (Z.lor (Z.shiftl (Z.ones 8) 0) (Z.shiftl (Z.ones 1) 15)).
  rewrite land_lor_eq_0, !mask_eq_iff by lia. unfold TA0, AEM.
  rewrite !bits_eq_iff by lia. reflexivity.
Qed.

Lemma texa16_mask_fields (a b : Z) :
  Z.land (Z.lxor a b) 0xFF000080FF = 0 <->
  TA0 a = TA0 b /\ AEM a = AEM b /\ TA1 a = TA1 b.
Proof.
  change 0xFF000080FF
    with (Z.lor (Z.shiftl (Z.ones 8) 0)
            (Z.lor (Z.shiftl (Z.ones 1) 15) (Z.shiftl (Z.ones 8) 32))).
  rewrite !land_lor_eq_0, !mask_eq_iff by lia. unfold TA0, AEM, TA1.
  rewrite !bits_eq_iff by lia. reflexivity.
Qed.

Lemma eqb_0_false_iff (x : Z) (P : Prop) :
  (x = 0 <-> P) -> (negb (x =? 0) = false <-> P).
Proof.
  intros H. rewrite negb_false_iff, Z.eqb_eq. exact H.
Qed.

(** X17.  The reload decision in terms of the register fields: the write-side
    dirty-check answers "not dirty" exactly when the dirty flag is clear, the
    fields CBP, CPSM, CSM and CSA of the incoming TEX0 equal those of the
    snapshot, the pixel formats have the same bits per pixel, and, for the
    coordinate-streamed style only, the low word of TEXCLUT equals that of the
    snapshot.  No other bit of either register matters. *)
Theorem WriteState_IsDirty_fields (w : WriteState.t) (TEX0 TEXCLUT : Z) :
  fst (WriteState_IsDirty w TEX0 TEXCLUT) = false <->
  WriteState.dirty w = false
  /\ CBP (WriteState.TEX0 w) = CBP TEX0 /\ CPSM (WriteState.TEX0 w) = CPSM TEX0
  /\ CSM (WriteState.TEX0 w) = CSM TEX0 /\ CSA (WriteState.TEX0 w) = CSA TEX0
  /\ m_psm_bpp (PSM (WriteState.TEX0 w)) = m_psm_bpp (PSM TEX0)
  /\ (CSM TEX0 = 1 -> U32_0 TEXCLUT = U32_0 (WriteState.TEXCLUT w)).
Proof.
  rewrite WriteState_IsDirty_eq. cbv zeta. cbn [fst].
  rewrite orb_false_iff. unfold WriteState_differs.
  rewrite !orb_false_iff, andb_false_iff.
  rewrite (eqb_0_false_iff _ _ (tex0_mask_fields (WriteState.TEX0 w) TEX0)).
  rewrite negb_false_iff, Z.eqb_eq.
  rewrite negb_false_iff, Z.eqb_eq, Z.eqb_neq.
  split.
  - intros (Hd & ((H1 & H2 & H3 & H4) & Hb) & Hc). repeat split; try assumption.
    intros Hcsm. destruct Hc as [Hc | Hc]; [contradiction|]. now apply Z.lxor_eq.
  - intros (Hd & H1 & H2 & H3 & H4 & Hb & Hc). repeat split; try assumption.
    destruct (Z.eq_dec (CSM TEX0) 1) as [Hcsm | Hcsm]; [right|now left].
    rewrite (Hc Hcsm). apply Z.lxor_nilpotent.
Qed.

Lemma ReadState_IsDirty_fst (r : ReadState.t) (TEX0 TEXA : Z) :
  fst (ReadState_IsDirty r TEX0 TEXA) =
  ReadState.dirty r
  || (negb (Z.land (Z.lxor (ReadState.TEX0 r) TEX0) 0x1FFFFFE000000000 =? 0)
      || negb (m_psm_bpp (PSM (ReadState.TEX0 r)) =? m_psm_bpp (PSM TEX0)))
  || ((CPSM TEX0 =? PSM_PSMCT24)
      && negb (Z.land (Z.lxor (ReadState.TEXA r) TEXA) 0x80FF =? 0))
  || ((PSM_PSMCT16 <=? CPSM TEX0)
      && negb (Z.land (Z.lxor (ReadState.TEXA r) TEXA) 0xFF000080FF =? 0)).
Proof.
  unfold ReadState_IsDirty. cbv zeta.
  destruct (ReadState.dirty r);
    destruct (negb (Z.land (Z.lxor (ReadState.TEX0 r) TEX0) 0x1FFFFFE000000000 =? 0)
              || negb (m_psm_bpp (PSM (ReadState.TEX0 r)) =? m_psm_bpp (PSM TEX0)));
    destruct ((CPSM TEX0 =? PSM_PSMCT24)
              && negb (Z.land (Z.lxor (ReadState.TEXA r) TEXA) 0x80FF =? 0));
    destruct ((PSM_PSMCT16 <=? CPSM TEX0)
              && negb (Z.land (Z.lxor (ReadState.TEXA r) TEXA) 0xFF000080FF =? 0));
    reflexivity.
Qed.

(** X18.  The expansion's dirty-check in terms of the register fields: it
    answers "not dirty" exactly when the read-side dirty flag is clear, the
    fields CBP, CPSM, CSM and CSA of the incoming TEX0 equal those of the
    snapshot, the pixel formats have the same bits per pixel, and the alpha
    register agrees with the snapshot as far as the color storage format
    looks at it: TA0 and AEM for PSMCT24; TA0, AEM and TA1 for every format
    code from PSMCT16 up; nothing for PSMCT32. *)
Theorem ReadState_IsDirty_fields (r : ReadState.t) (TEX0 TEXA : Z) :
  fst (ReadState_IsDirty r TEX0 TEXA) = false <->
  ReadState.dirty r = false
  /\ CBP (ReadState.TEX0 r) = CBP TEX0 /\ CPSM (ReadState.TEX0 r) = CPSM TEX0
  /\ CSM (ReadState.TEX0 r) = CSM TEX0 /\ CSA (ReadState.TEX0 r) = CSA TEX0
  /\ m_psm_bpp (PSM (ReadState.TEX0 r)) = m_psm_bpp (PSM TEX0)
  /\ (CPSM TEX0 = PSM_PSMCT24 ->
      TA0 (ReadState.TEXA r) = TA0 TEXA /\ AEM (ReadState.TEXA r) = AEM TEXA)
  /\ (PSM_PSMCT16 <= CPSM TEX0 ->
      TA0 (ReadState.TEXA r) = TA0 TEXA /\ AEM (ReadState.TEXA r) = AEM TEXA
      /\ TA1 (ReadState.TEXA r) = TA1 TEXA).
Proof.
  rewrite ReadState_IsDirty_fst. rewrite !orb_false_iff, !andb_false_iff.
  rewrite (eqb_0_false_iff _ _ (tex0_mask_fields (ReadState.TEX0 r) TEX0)).
  rewrite (eqb_0_false_iff _ _ (texa24_mask_fields (ReadState.TEXA r) TEXA)).
  rewrite (eqb_0_false_iff _ _ (texa16_mask_fields (ReadState.TEXA r) TEXA)).
  rewrite negb_false_iff, Z.eqb_eq, Z.eqb_neq, Z.leb_gt.
  split.
  - intros (((Hd & ((H1 & H2 & H3 & H4) & Hb)) & H24) & H16).
    repeat split; try assumption.
    + destruct H24 as [Hn | [? ?]]; [contradiction|assumption].
    + destruct H24 as [Hn | [? ?]]; [contradiction|assumption].
    + destruct H16 as [Hn | (? & ? & ?)]; [lia|assumption].
    + destruct H16 as [Hn | (? & ? & ?)]; [lia|assumption].
    + destruct H16 as [Hn | (? & ? & ?)]; [lia|assumption].
  - intros (Hd & H1 & H2 & H3 & H4 & Hb & H24 & H16). repeat split; try assumption.
    + destruct (Z.eq_dec (CPSM TEX0) PSM_PSMCT24) as [He | Hne]; [right; auto|now left].
    + destruct (Z.lt_ge_cases (CPSM TEX0) PSM_PSMCT16) as [Hlt | Hge];
        [now left|right; auto].
Qed.

(** X19.  The two dirty-checks of the read side agree where they can: the
    check without TEXA answers "dirty" only if the check with TEXA does, for
    every TEXA, and for the color storage format PSMCT32 the two give the
    same answer. *)
Theorem ReadState_IsDirty_TEX0_agrees (r : ReadState.t) (TEX0 TEXA : Z) :
  (fst (ReadState_IsDirty_TEX0 r TEX0) = true -> fst (ReadState_IsDirty r TEX0 TEXA) = true)
  /\ (CPSM TEX0 = PSM_PSMCT32 ->
      fst (ReadState_IsDirty r TEX0 TEXA) = fst (ReadState_IsDirty_TEX0 r TEX0)).
Proof.
  rewrite ReadState_IsDirty_fst.
  assert (H1 : fst (ReadState_IsDirty_TEX0 r TEX0) =
               ReadState.dirty r
               || (negb (Z.land (Z.lxor (ReadState.TEX0 r) TEX0) 0x1FFFFFE000000000 =? 0)
                   || negb (m_psm_bpp (PSM (ReadState.TEX0 r)) =? m_psm_bpp (PSM TEX0)))).
  { unfold ReadState_IsDirty_TEX0. cbv zeta.
    destruct (ReadState.dirty r); destruct (_ || _); reflexivity. }
  rewrite H1. split.
  - intros ->. reflexivity.
  - intros ->. cbn [Z.eqb Z.leb Z.compare andb]. now rewrite !orb_false_r.
Qed.

(** ** The alpha range *)

Lemma lo8_range (x : Z) : 0 <= lo8 x < 256.
Proof.
  unfold lo8. change 255 with (Z.ones 8). rewrite Z.land_ones by lia.
  apply Z.mod_pos_bound. lia.
Qed.

Lemma hi8_range (x : Z) : 0 <= hi8 x < 256.
Proof.
  unfold hi8. change 255 with (Z.ones 8). rewrite Z.land_ones by lia.
  apply Z.mod_pos_bound. lia.
Qed.

Lemma min_u8_range (a b : Z) : 0 <= a < 256 -> 0 <= b < 256 -> 0 <= Z.min a b < 256.
Proof. lia. Qed.

Lemma max_u8_range (a b : Z) : 0 <= a < 256 -> 0 <= b < 256 -> 0 <= Z.max a b < 256.
Proof. lia. Qed.

Lemma lo8_merge8 (p q : Z) : 0 <= p < 256 -> 0 <= q < 256 -> lo8 (merge8 p q) = p.
Proof.
  intros Hp Hq. unfold lo8, merge8. rewrite Z.land_lor_distr_l.
  change 255 with (Z.ones 8). rewrite !Z.land_ones by lia.
  rewrite Z.shiftl_mul_pow2 by lia. rewrite Z_mod_mult, Z.lor_0_r.
  apply Z.mod_small. assumption.
Qed.

Lemma hi8_merge8 (p q : Z) : 0 <= p < 256 -> 0 <= q < 256 -> hi8 (merge8 p q) = q.
Proof.
  intros Hp Hq. unfold hi8, merge8. rewrite Z.shiftr_lor.
  rewrite Z.shiftr_shiftl_l by lia. change (8 - 8) with 0. rewrite Z.shiftl_0_r.
  rewrite Z.shiftr_div_pow2 by lia. rewrite Z.div_small by assumption.
  rewrite Z.lor_0_l. change 255 with (Z.ones 8). rewrite Z.land_ones by lia.
  apply Z.mod_small. assumption.
Qed.

Create HintDb u8.
#[local] Hint Resolve lo8_range hi8_range min_u8_range max_u8_range : u8.

Lemma signed16_u8 (x : Z) : 0 <= x < 256 -> signed16 x = x.
Proof.
  intros Hx. apply Z.eqb_eq. revert x Hx.
  apply (forall_u8 (fun x => signed16 x =? x)). vm_compute. reflexivity.
Qed.

Lemma leb_min (x y : Z) : (if x <=? y then x else y) = Z.min x y.
Proof. destruct (Z.leb_spec x y); lia. Qed.

Lemma leb_max (x y : Z) : (if x <=? y then y else x) = Z.max x y.
Proof. destruct (Z.leb_spec x y); lia. Qed.

Ltac min_tree :=
  repeat match goal with
         | |- In (Z.min ?x ?y) ?L => apply (Z.min_case x y (fun m => In m L))
         | |- In (Z.max ?x ?y) ?L => apply (Z.max_case x y (fun m => In m L))
         end;
  cbn [In]; repeat first [left; reflexivity | right].

(** The horizontal reduction gives the least byte of [amin] and the
    greatest byte of [amax]. *)
Lemma GetAlphaMinMax32_reduce_spec (A B : GSVector4i.t) :
  let lo := fst (GetAlphaMinMax32_reduce A B) in
  let hi := snd (GetAlphaMinMax32_reduce A B) in
  In lo (GSVector4i.u8s A) /\ List.Forall (fun x => lo <= x) (GSVector4i.u8s A)
  /\ In hi (GSVector4i.u8s B) /\ List.Forall (fun x => x <= hi) (GSVector4i.u8s B).
Proof.
  destruct A as [a0 a1 a2 a3 a4 a5 a6 a7], B as [b0 b1 b2 b3 b4 b5 b6 b7].
  cbv zeta. unfold GetAlphaMinMax32_reduce. cbv zeta.
  cbv [GSVector4i.min_u8 GSVector4i.max_u8 GSVector4i.zip8 GSVector4i.zip16
       GSVector4i.zwxy GSVector4i.zwxyl GSVector4i.yxwzl GSVector4i.yxwz
       GSVector4i.upl8 GSVector4i.u8to16 GSVector4i.min_i16 GSVector4i.max_i16
       GSVector4i.extract16 GSVector4i.u16s GSVector4i.u8s nth fst snd
       GSVector4i.u0 GSVector4i.u1 GSVector4i.u2 GSVector4i.u3
       GSVector4i.u4 GSVector4i.u5 GSVector4i.u6 GSVector4i.u7].
  repeat rewrite lo8_merge8 by auto 10 with u8.
  repeat rewrite hi8_merge8 by auto 10 with u8.
  rewrite !signed16_u8 by auto 10 with u8.
  rewrite leb_min, leb_max.
  split; [min_tree|]. split.
  - repeat constructor; rewrite !Z.min_le_iff; auto 10 using Z.le_refl.
  - split; [min_tree|].
    repeat constructor; rewrite !Z.max_le_iff; auto 10 using Z.le_refl.
Qed.

Lemma alpha_of_range (x : Z) : u32 x -> 0 <= alpha_of x < 256.
Proof.
  intros [H0 H1]. unfold alpha_of. rewrite Z.shiftr_div_pow2 by lia.
  change (2 ^ 24) with 16777216. split.
  - apply Z.div_pos; lia.
  - apply Z.div_lt_upper_bound; lia.
Qed.

(** One color on its way through [>> 24], [ps32] and [pu16]: its alpha byte. *)
Lemma alpha_sat (x : Z) :
  u32 x ->
  Z.max 0 (Z.min 255 (signed16 (lo16 (Z.max (-32768) (Z.min 32767
    (signed32 (merge16 (lo16 (Z.shiftr (merge16 (lo16 x) (hi16 x)) 24))
                       (hi16 (Z.shiftr (merge16 (lo16 x) (hi16 x)) 24))))))))) =
  alpha_of x.
Proof.
  intros Hx. rewrite (merge16_split x Hx). fold (alpha_of x).
  pose proof (alpha_of_range x Hx) as Ha. revert Ha. generalize (alpha_of x).
  intros a Ha. apply Z.eqb_eq. revert a Ha.
  apply (forall_u8 (fun a =>
    Z.max 0 (Z.min 255 (signed16 (lo16 (Z.max (-32768) (Z.min 32767
      (signed32 (merge16 (lo16 a) (hi16 a)))))))) =? a)).
  vm_compute. reflexivity.
Qed.

(** The sixteen bytes of [v2]: the alpha bytes of sixteen colors, in order. *)
Lemma byte_GetAlphaMinMax32_v2 (p : list Z) (i k : nat) :
  List.Forall u32 p -> (k < 16)%nat ->
  byte (GetAlphaMinMax32_v2 p (i * 4)) k = alpha_of (rd p (16 * i + k)).
Proof.
  intros Hp Hk. unfold byte, GetAlphaMinMax32_v2. cbv zeta.
  cbv [GSVector4i.pu16 GSVector4i.ps32 GSVector4i.srl32 GSVector4i.map32 GSVector4i.load32
       GSVector4i.u8s GSVector4i.u0 GSVector4i.u1 GSVector4i.u2 GSVector4i.u3
       GSVector4i.u4 GSVector4i.u5 GSVector4i.u6 GSVector4i.u7].
  rewrite !alpha_sat by now apply rd_u32.
  do 16 (destruct k as [|k];
         [ cbn [nth];
           first [ rewrite lo8_merge8 by (apply alpha_of_range; now apply rd_u32)
                 | rewrite hi8_merge8 by (apply alpha_of_range; now apply rd_u32) ];
           do 2 f_equal; lia | ]).
  lia.
Qed.

Lemma byte_min_u8 (a b : GSVector4i.t) (k : nat) :
  byte (GSVector4i.min_u8 a b) k = Z.min (byte a k) (byte b k).
Proof.
  destruct a, b. unfold byte.
  cbv [GSVector4i.min_u8 GSVector4i.zip8 GSVector4i.zip16 GSVector4i.u8s
       GSVector4i.u0 GSVector4i.u1 GSVector4i.u2 GSVector4i.u3
       GSVector4i.u4 GSVector4i.u5 GSVector4i.u6 GSVector4i.u7].
  do 16 (destruct k as [|k];
         [ cbn [nth];
           first [ apply lo8_merge8; auto with u8 | apply hi8_merge8; auto with u8 ] | ]).
  destruct k; reflexivity.
Qed.

Lemma byte_max_u8 (a b : GSVector4i.t) (k : nat) :
  byte (GSVector4i.max_u8 a b) k = Z.max (byte a k) (byte b k).
Proof.
  destruct a, b. unfold byte.
  cbv [GSVector4i.max_u8 GSVector4i.zip8 GSVector4i.zip16 GSVector4i.u8s
       GSVector4i.u0 GSVector4i.u1 GSVector4i.u2 GSVector4i.u3
       GSVector4i.u4 GSVector4i.u5 GSVector4i.u6 GSVector4i.u7].
  do 16 (destruct k as [|k];
         [ cbn [nth];
           first [ apply lo8_merge8; auto with u8 | apply hi8_merge8; auto with u8 ] | ]).
  destruct k; reflexivity.
Qed.

Lemma byte_xffffffff (k : nat) : (k < 16)%nat -> byte GSVector4i.xffffffff k = 255.
Proof. intros Hk. do 16 (destruct k as [|k]; [reflexivity|]). lia. Qed.

Lemma byte_zero (k : nat) : byte GSVector4i.zero k = 0.
Proof. do 16 (destruct k as [|k]; [reflexivity|]). destruct k; reflexivity. Qed.

Lemma for_range_S {A : Type} (n : nat) (body : nat -> A -> A) (a : A) :
  for_range 0 (S n) body a = body n (for_range 0 n body a).
Proof.
  unfold for_range. rewrite !Nat.sub_0_r, seq_S, fold_left_app. reflexivity.
Qed.

(** The scan of [n] groups: byte [k] of [amin] is below, and byte [k] of
    [amax] above, the alpha of color [k] of every group, and each is the
    start value or one of these alphas. *)
Lemma GetAlphaMinMax32_scan_groups (p : list Z) (n : nat) :
  List.Forall u32 p ->
  let acc := for_range 0 n (fun i '(amin, amax) =>
               let v2 := GetAlphaMinMax32_v2 p (i * 4) in
               (GSVector4i.min_u8 amin v2, GSVector4i.max_u8 amax v2))
               (GSVector4i.xffffffff, GSVector4i.zero) in
  forall k : nat, (k < 16)%nat ->
    (forall i : nat, (i < n)%nat ->
       byte (fst acc) k <= alpha_of (rd p (16 * i + k)) <= byte (snd acc) k)
    /\ (byte (fst acc) k = 255
        \/ exists i : nat, (i < n)%nat /\ byte (fst acc) k = alpha_of (rd p (16 * i + k)))
    /\ (byte (snd acc) k = 0
        \/ exists i : nat, (i < n)%nat /\ byte (snd acc) k = alpha_of (rd p (16 * i + k))).
Proof.
  intros Hp. cbv zeta. induction n as [|n IH]; intros k Hk.
  - unfold for_range. cbn [seq Nat.sub fold_left fst snd].
    rewrite byte_xffffffff, byte_zero by assumption.
    split; [intros i Hi; lia|]. split; now left.
  - rewrite for_range_S.
    destruct (for_range 0 n _ _) as [amin amax]. cbn [fst snd] in IH |- *.
    destruct (IH k Hk) as (Hle & Hmin & Hmax).
    rewrite byte_min_u8, byte_max_u8, byte_GetAlphaMinMax32_v2 by assumption.
    split; [|split].
    + intros i Hi. destruct (Nat.eq_dec i n) as [-> | Hne]; [lia|].
      assert (Hi' : (i < n)%nat) by lia. specialize (Hle i Hi'). lia.
    + destruct (Z.min_spec (byte amin k) (alpha_of (rd p (16 * n + k)))) as [[_ ->] | [_ ->]].
      * destruct Hmin as [Hmin | (i & Hi & Hmin)]; [now left|].
        right. exists i. split; [lia|assumption].
      * right. exists n. split; [lia|reflexivity].
    + destruct (Z.max_spec (byte amax k) (alpha_of (rd p (16 * n + k)))) as [[_ ->] | [_ ->]].
      * right. exists n. split; [lia|reflexivity].
      * destruct Hmax as [Hmax | (i & Hi & Hmax)]; [now left|].
        right. exists i. split; [lia|assumption].
Qed.

Lemma In_u8s (v : GSVector4i.t) (x : Z) :
  In x (GSVector4i.u8s v) -> exists k : nat, (k < 16)%nat /\ x = byte v k.
Proof.
  intros H. apply (In_nth _ _ 0) in H as (k & Hk & Hx).
  exists k. split; [exact Hk | now rewrite <- Hx].
Qed.

Lemma Forall_u8s (v : GSVector4i.t) (P : Z -> Prop) (k : nat) :
  List.Forall P (GSVector4i.u8s v) -> (k < 16)%nat -> P (byte v k).
Proof.
  intros H Hk. rewrite List.Forall_forall in H. apply H. apply nth_In. exact Hk.
Qed.

(** The bounds the scan and the reduction give together. *)
Lemma GetAlphaMinMax32_bounds (p : list Z) (pal : Z) :
  List.Forall u32 p ->
  let n := if pal =? 256 then 256%nat else 16%nat in
  let acc := GetAlphaMinMax32_scan p pal in
  let lo := fst (GetAlphaMinMax32_reduce (fst acc) (snd acc)) in
  let hi := snd (GetAlphaMinMax32_reduce (fst acc) (snd acc)) in
  (forall i : nat, (i < n)%nat -> lo <= alpha_of (rd p i) <= hi)
  /\ (exists i : nat, (i < n)%nat /\ alpha_of (rd p i) = lo)
  /\ (exists i : nat, (i < n)%nat /\ alpha_of (rd p i) = hi).
Proof.
  intros Hp. cbv zeta.
  assert (Hrange : forall j : nat, 0 <= alpha_of (rd p j) < 256)
    by (intros j; apply alpha_of_range; now apply rd_u32).
  unfold GetAlphaMinMax32_scan. destruct (pal =? 256).
  - pose proof (GetAlphaMinMax32_scan_groups p 16 Hp) as Hscan.
    cbv zeta in Hscan. cbv zeta.
    match type of Hscan with
    | context [byte (fst ?a) _] => set (acc := a) in Hscan |- *
    end.
    clearbody acc. destruct acc as [amin amax]. cbn [fst snd] in Hscan |- *.
    destruct (GetAlphaMinMax32_reduce_spec amin amax) as (Hlo_in & Hlo_le & Hhi_in & Hhi_le).
    apply In_u8s in Hlo_in as (kl & Hkl & Hlo). apply In_u8s in Hhi_in as (kh & Hkh & Hhi).
    split; [|split].
    + intros j Hj.
      pose proof (Nat.div_mod_eq j 16) as Ej.
      assert (Bj : (j mod 16 < 16)%nat) by (apply Nat.mod_upper_bound; lia).
      assert (Dj : (j / 16 < 16)%nat) by (apply Nat.Div0.div_lt_upper_bound; lia).
      destruct (Hscan (j mod 16)%nat Bj) as (Hle & _).
      specialize (Hle (j / 16)%nat Dj).
      replace (16 * (j / 16) + j mod 16)%nat with j in Hle by lia.
      pose proof (Forall_u8s amin _ (j mod 16) Hlo_le Bj) as H1.
      pose proof (Forall_u8s amax _ (j mod 16) Hhi_le Bj) as H2.
      cbv beta in H1, H2. lia.
    + destruct (Hscan kl Hkl) as (Hle & [H255 | (i & Hi & Hmin)] & _).
      * exists kl. split; [lia|].
        assert (H0 : (0 < 16)%nat) by lia. specialize (Hle 0%nat H0).
        replace (16 * 0 + kl)%nat with kl in Hle by lia.
        specialize (Hrange kl). lia.
      * exists (16 * i + kl)%nat. split; [lia|]. lia.
    + destruct (Hscan kh Hkh) as (Hle & _ & [H0 | (i & Hi & Hmax)]).
      * exists kh. split; [lia|].
        assert (H16 : (0 < 16)%nat) by lia. specialize (Hle 0%nat H16).
        replace (16 * 0 + kh)%nat with kh in Hle by lia.
        specialize (Hrange kh). lia.
      * exists (16 * i + kh)%nat. split; [lia|]. lia.
  - cbv zeta. cbn [fst snd].
    destruct (GetAlphaMinMax32_reduce_spec (GetAlphaMinMax32_v2 p 0) (GetAlphaMinMax32_v2 p 0))
      as (Hlo_in & Hlo_le & Hhi_in & Hhi_le).
    apply In_u8s in Hlo_in as (kl & Hkl & Hlo). apply In_u8s in Hhi_in as (kh & Hkh & Hhi).
    assert (Hb : forall k : nat, (k < 16)%nat ->
              byte (GetAlphaMinMax32_v2 p 0) k = alpha_of (rd p k)).
    { intros k Hk. apply (byte_GetAlphaMinMax32_v2 p 0 k Hp Hk). }
    split; [|split].
    + intros j Hj.
      pose proof (Forall_u8s _ _ j Hlo_le Hj) as H1.
      pose proof (Forall_u8s _ _ j Hhi_le Hj) as H2.
      cbv beta in H1, H2. rewrite Hb in H1, H2 by assumption. lia.
    + exists kl. split; [assumption|]. rewrite Hlo. symmetry. now apply Hb.
    + exists kh. split; [assumption|]. rewrite Hhi. symmetry. now apply Hb.
Qed.

Lemma GetAlphaMinMax32_eq (s : GSClut) :
  GetAlphaMinMax32 s =
  if ReadState.adirty (m_read s) then
    let r := m_read s in
    let out :=
      if (m_psm_trbpp (CPSM (ReadState.TEX0 r)) =? 24) && (AEM (ReadState.TEXA r) =? 0)
      then (TA0 (ReadState.TEXA r), TA0 (ReadState.TEXA r))
      else
        let acc := GetAlphaMinMax32_scan (m_buff32 s) (m_psm_pal (PSM (ReadState.TEX0 r))) in
        GetAlphaMinMax32_reduce (fst acc) (snd acc) in
    (fst out, snd out,
     set_m_read s (ReadState.mk (ReadState.TEX0 r) (ReadState.TEXA r) (ReadState.dirty r)
                     false (fst out) (snd out)))
  else (ReadState.amin (m_read s), ReadState.amax (m_read s), s).
Proof.
  unfold GetAlphaMinMax32. destruct (ReadState.adirty (m_read s)); [|reflexivity].
  cbn [set_m_read m_read m_buff32 ReadState.TEX0 ReadState.TEXA ReadState.dirty
       ReadState.adirty ReadState.amin ReadState.amax].
  cbv zeta. destruct (_ && _); [reflexivity|].
  destruct (GetAlphaMinMax32_scan _ _) as [amin amax]. cbn [fst snd].
  destruct (GetAlphaMinMax32_reduce amin amax) as [lo hi]. reflexivity.
Qed.

(** X21.  The alpha range that [GetAlphaMinMax32] computes when the cached
    one is stale and the palette is not the constant-alpha case: the two
    outputs are the least and the greatest alpha byte of the first [n]
    expanded colors, [n] being 256 when the pixel format has a 256-entry
    palette and 16 otherwise; both are attained by some color. *)
Theorem GetAlphaMinMax32_range (s : GSClut) :
  ReadState.adirty (m_read s) = true ->
  ~ (m_psm_trbpp (CPSM (ReadState.TEX0 (m_read s))) = 24
     /\ AEM (ReadState.TEXA (m_read s)) = 0) ->
  let n := if m_psm_pal (PSM (ReadState.TEX0 (m_read s))) =? 256 then 256%nat else 16%nat in
  (n <= length (m_buff32 s))%nat -> List.Forall u32 (m_buff32 s) ->
  let amin := fst (fst (GetAlphaMinMax32 s)) in
  let amax := snd (fst (GetAlphaMinMax32 s)) in
  (forall i : nat, (i < n)%nat -> amin <= alpha_of (rd (m_buff32 s) i) <= amax)
  /\ (exists i : nat, (i < n)%nat /\ alpha_of (rd (m_buff32 s) i) = amin)
  /\ (exists i : nat, (i < n)%nat /\ alpha_of (rd (m_buff32 s) i) = amax).
Proof.
  intros Had Hcase n Hlen Hu32. cbv zeta. rewrite GetAlphaMinMax32_eq, Had. cbv zeta.
  assert (Hc : (m_psm_trbpp (CPSM (ReadState.TEX0 (m_read s))) =? 24)
               && (AEM (ReadState.TEXA (m_read s)) =? 0) = false).
  { destruct (Z.eqb_spec (m_psm_trbpp (CPSM (ReadState.TEX0 (m_read s)))) 24) as [H1 | H1];
      [|reflexivity].
    destruct (Z.eqb_spec (AEM (ReadState.TEXA (m_read s))) 0) as [H2 | H2]; [|reflexivity].
    exfalso. apply Hcase. split; assumption. }
  rewrite Hc. cbn [fst snd].
  apply (GetAlphaMinMax32_bounds (m_buff32 s) (m_psm_pal (PSM (ReadState.TEX0 (m_read s)))) Hu32).
Qed.

(** X22.  The alpha range is cached.  While the stale flag is clear,
    [GetAlphaMinMax32] returns the stored pair and changes nothing.  In every
    case it leaves the stale flag clear and the returned pair stored, touches
    nothing but the stale flag and the stored pair, and a second call returns
    the same pair and the same state. *)
Theorem GetAlphaMinMax32_cached (s : GSClut) :
  let r := GetAlphaMinMax32 s in
  let s' := snd r in
  (ReadState.adirty (m_read s) = false ->
   r = (ReadState.amin (m_read s), ReadState.amax (m_read s), s))
  /\ ReadState.adirty (m_read s') = false
  /\ fst r = (ReadState.amin (m_read s'), ReadState.amax (m_read s'))
  /\ GetAlphaMinMax32 s' = r
  /\ m_clut s' = m_clut s /\ m_buff32 s' = m_buff32 s /\ m_buff64 s' = m_buff64 s
  /\ m_write s' = m_write s /\ m_CBP_0 s' = m_CBP_0 s /\ m_CBP_1 s' = m_CBP_1 s
  /\ ReadState.TEX0 (m_read s') = ReadState.TEX0 (m_read s)
  /\ ReadState.TEXA (m_read s') = ReadState.TEXA (m_read s)
  /\ ReadState.dirty (m_read s') = ReadState.dirty (m_read s).
Proof.
  cbv zeta. rewrite (GetAlphaMinMax32_eq s).
  destruct (ReadState.adirty (m_read s)) eqn:Had.
  - cbv zeta.
    match goal with
    | |- context [fst ?o] => generalize o
    end.
    intros [lo hi]. cbn [fst snd].
    split; [discriminate|]. rewrite GetAlphaMinMax32_eq. cbn. repeat split.
  - split; [reflexivity|]. cbn [fst snd]. rewrite GetAlphaMinMax32_eq, Had.
    repeat split.
Qed.

(** X23.  The constant-alpha case: when the stale flag is set, the color
    storage format of the read-side snapshot has 24 true bits per pixel and
    AEM of its TEXA is 0, both outputs are TA0, whatever the expanded buffer
    holds. *)
Theorem GetAlphaMinMax32_constant (s : GSClut) (buff32 : list Z) :
  ReadState.adirty (m_read s) = true ->
  m_psm_trbpp (CPSM (ReadState.TEX0 (m_read s))) = 24 ->
  AEM (ReadState.TEXA (m_read s)) = 0 ->
  fst (GetAlphaMinMax32 s) = (TA0 (ReadState.TEXA (m_read s)), TA0 (ReadState.TEXA (m_read s)))
  /\ fst (GetAlphaMinMax32 (set_m_buff32 s buff32)) = fst (GetAlphaMinMax32 s).
Proof.
  intros Had Htr Haem. rewrite !GetAlphaMinMax32_eq.
  cbn [set_m_buff32 m_read]. rewrite Had, Htr, Haem. cbn. split; reflexivity.
Qed.

(** ** The load and the expansion of a 256-entry 32-bit palette, at any
    column-select *)


End GSClut.















(** * The hat of a DirectInput controller *)

Lemma LOWORD_range (x : Z) : 0 <= DInputSource.LOWORD x < 65536.
Proof.
  unfold DInputSource.LOWORD. change 65535 with (Z.ones 16).
  rewrite Z.land_ones by lia. apply Z.mod_pos_bound. lia.
Qed.

(** X24.  [GetHatButtons] looks at the low word of the hat value only.  The
    centered hat (0xFFFF) presses nothing; every other value presses one
    direction or two adjacent ones, never two opposite ones.  Two directions
    are pressed exactly in the four sectors of 45 degrees around the
    diagonals: up and right in [4500, 9000), right and down in
    [13500, 18000), down and left in [22500, 27000), and left and up from
    31500 on. *)
Theorem GetHatButtons_directions (hat : Z) :
  let b := DInputSource.GetHatButtons hat in
  let hv := DInputSource.LOWORD hat in
  let up := DInputSource.HAT_DIRECTION_UP b in
  let right := DInputSource.HAT_DIRECTION_RIGHT b in
  let down := DInputSource.HAT_DIRECTION_DOWN b in
  let left := DInputSource.HAT_DIRECTION_LEFT b in
  (hv = 65535 -> b = DInputSource.mkHatButtons false false false false)
  /\ (hv <> 65535 -> up || right || down || left = true)
  /\ up && down = false /\ right && left = false
  /\ (up && right = true <-> 4500 <= hv < 9000)
  /\ (right && down = true <-> 13500 <= hv < 18000)
  /\ (down && left = true <-> 22500 <= hv < 27000)
  /\ (left && up = true <-> 31500 <= hv < 65535).
Proof.
  cbv zeta. unfold DInputSource.GetHatButtons. cbv zeta.
  pose proof (LOWORD_range hat) as Hr. revert Hr.
  generalize (DInputSource.LOWORD hat). intros hv Hr.
  destruct (Z.eqb_spec hv 65535) as [He | Hne]; cbn [negb].
  - cbn. repeat split; intros; try discriminate; try lia.
  - destruct (Z.leb_spec 0 hv); [|lia].
    destruct (Z.ltb_spec hv 9000); destruct (Z.leb_spec 31500 hv);
      destruct (Z.leb_spec 4500 hv); destruct (Z.ltb_spec hv 18000);
      destruct (Z.leb_spec 13500 hv); destruct (Z.ltb_spec hv 27000);
      destruct (Z.leb_spec 22500 hv); try lia;
      cbn; repeat split; intros; try discriminate; try reflexivity; lia.
Qed.

(** * The properties at concrete inputs *)

Lemma all_u16_Forall (p : list Z) : Examples.all_u16 p = true -> List.Forall u16 p.
Proof.
  unfold Examples.all_u16. rewrite forallb_forall, List.Forall_forall.
  intros H x Hx. apply H in Hx. unfold u16. lia.
Qed.

Lemma all_u32_Forall (p : list Z) : Examples.all_u32 p = true -> List.Forall u32 p.
Proof.
  unfold Examples.all_u32. rewrite forallb_forall, List.Forall_forall.
  intros H x Hx. apply H in Hx. unfold u32. lia.
Qed.



(** C2, at a 32-bit direct-color register (PSM = PSMCT32) whose load mode is
    2, "set slot A and check": slot A keeps 3, slot B keeps 4. *)
Lemma WriteTest_non_indexed_witness :
  WriteTest GSLocalMemory.m_psm_bpp
    (Examples.state 3 4 (Examples.tex0 PSM_PSMT8 0 0 0 0 0))
    (Examples.tex0 PSM_PSMCT32 9 0 0 0 2) 0 =
  (false, Examples.state 3 4 (Examples.tex0 PSM_PSMT8 0 0 0 0 0)).
Proof.
  destruct (WriteTest_non_indexed GSLocalMemory.m_psm_bpp
              (Examples.state 3 4 (Examples.tex0 PSM_PSMT8 0 0 0 0 0))
              (Examples.tex0 PSM_PSMCT32 9 0 0 0 2) 0) as (Hf & _ & _ & _ & Hs).
  - vm_compute. reflexivity.
  - rewrite (surjective_pairing (WriteTest _ _ _ _)). now rewrite Hf, Hs.
Defined.

(** C6, at an 8-bit-index register with load mode 6 whose base pointer and
    column-select differ from the snapshot. *)
Lemma WriteTest_CLD_6_7_witness :
  WriteTest GSLocalMemory.m_psm_bpp
    (Examples.state 3 4 (Examples.tex0 PSM_PSMT8 0 0 0 0 0))
    (Examples.tex0 PSM_PSMT8 9 2 0 5 6) 0 =
  (false, Examples.state 3 4 (Examples.tex0 PSM_PSMT8 0 0 0 0 0)).
Proof.
  apply (WriteTest_CLD_6_7 GSLocalMemory.m_psm_bpp).
  - vm_compute. discriminate.
  - left. vm_compute. reflexivity.
Defined.


(** C4, at column-select 1: the last group of 16 colors would start at entry
    256; its color 3 is read from entry 243. *)
Lemma ReadCLUT_T32_I8_clamps_witness :
  rd (ReadCLUT_T32_I8 (Examples.ramp 1024) (repeat 0 256)
        (Z.shiftl (Z.land (CSA (Examples.tex0 PSM_PSMT8 0 0 0 1 0)) 15) 4))
     (16 * 15 + 3) =
  clut_entry32 (Examples.ramp 1024)
    (Z.to_nat (Z.min (Z.of_nat (16 * 15)
                      + Z.shiftl (Z.land (CSA (Examples.tex0 PSM_PSMT8 0 0 0 1 0)) 15) 4) 240)
     + 3).
Proof.
  destruct (ReadCLUT_T32_I8_clamps (Examples.ramp 1024) (repeat 0 256)
              (Examples.tex0 PSM_PSMT8 0 0 0 1 0) 15 3) as (H & _).
  - rewrite repeat_length. lia.
  - lia.
  - lia.
  - exact H.
Defined.

(** C4 as stated fails: at column-select 15 the first group of the expansion
    starts at entry 240, and its color 5 addresses entry 245, one of the
    entries 241 to 255.  It is read from entry 245, not from entry 240: in
    the palette whose halves are 0, 1, 2, ... the two entries hold different
    colors, and the expanded color is the one of entry 245. *)
Lemma ReadCLUT_T32_I8_reads_entry_245 :
  let TEX0 := Examples.tex0 PSM_PSMT8 0 0 0 15 0 in
  let offset := Z.shiftl (Z.land (CSA TEX0) 15) 4 in
  let dst := ReadCLUT_T32_I8 (Examples.ramp 1024) (repeat 0 256) offset in
  offset = 240
  /\ rd dst 5 = clut_entry32 (Examples.ramp 1024) 245
  /\ rd dst 5 <> clut_entry32 (Examples.ramp 1024) 240.
Proof.
  cbv zeta. split; [vm_compute; reflexivity|]. split; [vm_compute; reflexivity|].
  vm_compute. discriminate.
Qed.

(** C5, at the entry 0x8000 with AEM set: its alpha is TA1. *)
Lemma Expand16_alpha_rule_witness :
  alpha_of (rd (Expand16 [0; 0x8000; 0x7fff; 0xffff; 1; 0x8001; 0x1f; 0x3e0] 0
                  (repeat 0 8) 8 (Examples.texa 0x80 1 0x40)) 1) =
  TA1 (Examples.texa 0x80 1 0x40).
Proof.
  destruct (Expand16_alpha_rule [0; 0x8000; 0x7fff; 0xffff; 1; 0x8001; 0x1f; 0x3e0]
              (repeat 0 8) 0 8 (Examples.texa 0x80 1 0x40) 1)
    as (_ & _ & _ & _ & H1 & _).
  - apply all_u16_Forall. vm_compute. reflexivity.
  - lia.
  - vm_compute. reflexivity.
  - rewrite repeat_length. lia.
  - lia.
  - apply H1.
    + vm_compute. reflexivity.
    + vm_compute. discriminate.
    + vm_compute. reflexivity.
Defined.

(** C3, at an incoming register that differs from the snapshot in fields the
    check does not track (TBP0 and CLD). *)
Lemma WriteState_IsDirty_snapshot_witness :
  fst (WriteState_IsDirty GSLocalMemory.m_psm_bpp
         (m_write (Examples.state 0 0 (Examples.tex0 PSM_PSMT8 0 0 0 0 0)))
         (Examples.tex0 PSM_PSMT8 0 0 0 0 1 + 5) 0) = false
  /\ snd (WriteState_IsDirty GSLocalMemory.m_psm_bpp
            (m_write (Examples.state 0 0 (Examples.tex0 PSM_PSMT8 0 0 0 0 0)))
            (Examples.tex0 PSM_PSMT8 0 0 0 0 1 + 5) 0) =
     WriteState.mk (Examples.tex0 PSM_PSMT8 0 0 0 0 1 + 5) 0 false.
Proof.
  destruct (WriteState_IsDirty_snapshot GSLocalMemory.m_psm_bpp
              GSTables.clutTableT32I8 GSTables.clutTableT16I4
              GSLocalMemory.blank_block GSLocalMemory.blank_block GSLocalMemory.blank_block
              GSLocalMemory.blank_value
              (Examples.state 0 0 (Examples.tex0 PSM_PSMT8 0 0 0 0 0))
              (Examples.tex0 PSM_PSMT8 0 0 0 0 1 + 5) 0) as (Hd & Hclean & _).
  split; [rewrite Hd; vm_compute; reflexivity|].
  apply Hclean. rewrite Hd. vm_compute. reflexivity.
Defined.

(** C3 as stated fails: the reload decision finds the state not dirty and
    still changes the write-side snapshot, which takes the TBP0 and the CLD of
    the incoming register. *)
Lemma WriteTest_not_dirty_overwrites_snapshot :
  let s := Examples.state 0 0 (Examples.tex0 PSM_PSMT8 0 0 0 0 0) in
  let r := WriteTest GSLocalMemory.m_psm_bpp s (Examples.tex0 PSM_PSMT8 0 0 0 0 1 + 5) 0 in
  fst r = false
  /\ m_write (snd r) <> m_write s
  /\ WriteState.TEX0 (m_write (snd r)) = Examples.tex0 PSM_PSMT8 0 0 0 0 1 + 5.
Proof. vm_compute. repeat split. discriminate. Qed.

(** C8.  [InvalidateRange] at the palette of 4 blocks at block 100, whose
    footprint is the blocks 100 to 103, with the write-side dirty flag clear.
    The lower end of the test is exact: the range [99, 99] leaves the flag
    clear and [100, 100] sets it.  The upper end is one block off: the range
    [103, 103] sets the flag, as it must, and so does [104, 104], which meets
    no block of the footprint; only from [105, 105] on is the flag left
    clear. *)
Lemma InvalidateRange_block_after_footprint :
  let s := Examples.state 0 0 (Examples.tex0 PSM_PSMT8 100 0 0 0 0) in
  let dirty_after a b :=
    WriteState.dirty (m_write (InvalidateRange GSLocalMemory.m_psm_bpp s a b)) in
  CBP (WriteState.TEX0 (m_write s)) = 100
  /\ InvalidateRange_blocks GSLocalMemory.m_psm_bpp s = 4
  /\ ~ (exists b, 100 <= b < 100 + 4 /\ 104 <= b <= 104)
  /\ WriteState.dirty (m_write s) = false
  /\ dirty_after 104 104 = true
  /\ dirty_after 99 99 = false /\ dirty_after 100 100 = true
  /\ dirty_after 103 103 = true /\ dirty_after 105 105 = false.
Proof.
  cbv zeta. split; [vm_compute; reflexivity|]. split; [vm_compute; reflexivity|].
  split; [intros [b Hb]; lia|]. repeat split; vm_compute; reflexivity.
Qed.

(** C10, at a 32-bit palette and a TEXA that differs from the snapshot in
    TA0, AEM and TA1. *)
Lemma ReadState_IsDirty_ignores_TEXA_witness :
  fst (ReadState_IsDirty GSLocalMemory.m_psm_bpp
         (m_read (Examples.state 0 0 (Examples.tex0 PSM_PSMT8 0 PSM_PSMCT32 0 0 0)))
         (Examples.tex0 PSM_PSMT8 0 PSM_PSMCT32 0 0 0) (Examples.texa 0x80 1 0x40)) = false
  /\ m_buff32 (Read32 GSLocalMemory.m_psm_bpp
                 (Examples.state 0 0 (Examples.tex0 PSM_PSMT8 0 PSM_PSMCT32 0 0 0))
                 (Examples.tex0 PSM_PSMT8 0 PSM_PSMCT32 0 0 0) (Examples.texa 0x80 1 0x40)) =
     repeat 0 256.
Proof.
  destruct (ReadState_IsDirty_ignores_TEXA GSLocalMemory.m_psm_bpp
              (Examples.state 0 0 (Examples.tex0 PSM_PSMT8 0 PSM_PSMCT32 0 0 0))
              (Examples.tex0 PSM_PSMT8 0 PSM_PSMCT32 0 0 0) (Examples.texa 0x80 1 0x40))
    as (Hf & _ & Hb & _).
  - reflexivity.
  - vm_compute. reflexivity.
  - vm_compute. reflexivity.
  - vm_compute. reflexivity.
  - split; [exact Hf | exact Hb].
Defined.

(** * The further properties at concrete inputs *)

Lemma ramp_u32 : List.Forall u32 (Examples.ramp 256).
Proof. apply all_u32_Forall. vm_compute. reflexivity. Qed.

Lemma ramp_u16 : List.Forall u16 (Examples.ramp 256).
Proof. apply all_u16_Forall. vm_compute. reflexivity. Qed.

(** X4, at a direct-color pixel format (PSMCT32) with the index-table style. *)
Lemma Write_no_routine_witness :
  m_clut (Write GSTables.clutTableT32I8 GSTables.clutTableT16I4
            Examples.ramp_block Examples.ramp_block Examples.ramp_block Examples.ramp_value
            (Examples.state 0 0 0) (Examples.tex0 PSM_PSMCT32 0 PSM_PSMCT32 0 0 1) 0) =
  m_clut (Examples.state 0 0 0).
Proof.
  destruct (Write_no_routine GSTables.clutTableT32I8 GSTables.clutTableT16I4
              Examples.ramp_block Examples.ramp_block Examples.ramp_block Examples.ramp_value
              (Examples.state 0 0 0) (Examples.tex0 PSM_PSMCT32 0 PSM_PSMCT32 0 0 1) 0)
    as (_ & H & _).
  - left. vm_compute. repeat split; discriminate.
  - exact H.
Defined.

(** X5, at an 8-bit-index palette at base pointer 7 and column-select 2. *)
Lemma Write_PSMCT24_as_PSMCT32_witness :
  m_clut (Write GSTables.clutTableT32I8 GSTables.clutTableT16I4
            Examples.ramp_block Examples.ramp_block Examples.ramp_block Examples.ramp_value
            (Examples.state 0 0 0) (Examples.tex0 PSM_PSMT8 7 PSM_PSMCT32 0 2 1) 0) =
  m_clut (Write GSTables.clutTableT32I8 GSTables.clutTableT16I4
            Examples.ramp_block Examples.ramp_block Examples.ramp_block Examples.ramp_value
            (Examples.state 0 0 0) (Examples.tex0 PSM_PSMT8 7 PSM_PSMCT24 0 2 1) 0).
Proof.
  apply (Write_PSMCT24_as_PSMCT32 GSTables.clutTableT32I8 GSTables.clutTableT16I4
           Examples.ramp_block Examples.ramp_block Examples.ramp_block Examples.ramp_value);
    vm_compute; reflexivity.
Defined.


(** X7, at a state whose snapshot equals the incoming register. *)
Lemma WriteTest_after_Invalidate_witness :
  fst (WriteTest GSLocalMemory.m_psm_bpp
         (Invalidate (Examples.state 0 0 (Examples.tex0 PSM_PSMT8 0 0 0 0 1)))
         (Examples.tex0 PSM_PSMT8 0 0 0 0 1) 0) = true.
Proof.
  destruct (WriteTest_after_Invalidate GSLocalMemory.m_psm_bpp
              (Examples.state 0 0 (Examples.tex0 PSM_PSMT8 0 0 0 0 1))
              (Examples.tex0 PSM_PSMT8 0 0 0 0 1) 0) as [H _].
  - vm_compute. discriminate.
  - left. vm_compute. reflexivity.
  - exact H.
Defined.

(** X9, at a state whose read-side dirty flag is set and a direct-color pixel
    format (PSMCT32): the dirty-check answers "dirty", no case of the
    expansion applies, the expanded buffers stay as they were, the dirty flag
    is cleared and the snapshot takes the incoming registers. *)
Lemma Read32_no_case_witness :
  let TEX0 := Examples.tex0 PSM_PSMCT32 5 0 0 0 0 in
  let TEXA := Examples.texa 0x80 1 0x40 in
  let s' := Read32 GSLocalMemory.m_psm_bpp Examples.dirty_read TEX0 TEXA in
  ReadState.dirty (m_read Examples.dirty_read) = true
  /\ fst (ReadState_IsDirty GSLocalMemory.m_psm_bpp (m_read Examples.dirty_read) TEX0 TEXA)
     = true
  /\ m_buff32 s' = m_buff32 Examples.dirty_read
  /\ m_buff64 s' = m_buff64 Examples.dirty_read
  /\ ReadState.dirty (m_read s') = false
  /\ ReadState.TEX0 (m_read s') = TEX0 /\ ReadState.TEXA (m_read s') = TEXA.
Proof.
  cbv zeta. split; [reflexivity|]. split; [vm_compute; reflexivity|].
  apply (Read32_no_case GSLocalMemory.m_psm_bpp Examples.dirty_read
           (Examples.tex0 PSM_PSMCT32 5 0 0 0 0) (Examples.texa 0x80 1 0x40)).
  right. vm_compute. repeat split; discriminate.
Defined.

(** X10, at the colors 0, 1, 2, ...: entry 16 * 3 + 5 holds color 5 below
    color 3. *)
Lemma ExpandCLUT64_T32_I8_pairs_witness :
  rd (ExpandCLUT64_T32_I8 (Examples.ramp 16) (repeat 0 256)) (16 * 3 + 5) =
  merge32 (wrap32 (rd (Examples.ramp 16) 5)) (wrap32 (rd (Examples.ramp 16) 3)).
Proof.
  destruct (ExpandCLUT64_T32_I8_pairs (Examples.ramp 16) (repeat 0 256)) as (_ & H & _).
  - rewrite repeat_length. lia.
  - apply (H 3%nat 5%nat); lia.
Defined.

(** X11, at a 4-bit-index palette at column-select 3: color 2 is source
    word 4. *)
Lemma Write_Read32_T32_I4_witness :
  rd (m_buff32
        (Read32 GSLocalMemory.m_psm_bpp
           (Write GSTables.clutTableT32I8 GSTables.clutTableT16I4
              Examples.ramp_block Examples.ramp_block Examples.ramp_block Examples.ramp_value
              (Examples.state 0 0 0) (Examples.tex0 PSM_PSMT4 0 PSM_PSMCT32 0 3 1) 0)
           (Examples.tex0 PSM_PSMT4 0 PSM_PSMCT32 0 3 1) 0)) 2 =
  rd (Examples.ramp_block (CBP (Examples.tex0 PSM_PSMT4 0 PSM_PSMCT32 0 3 1))) (T32_I4_order 2).
Proof.
  destruct (Write_Read32_T32_I4 GSLocalMemory.m_psm_bpp
              GSTables.clutTableT32I8 GSTables.clutTableT16I4
              Examples.ramp_block Examples.ramp_block Examples.ramp_block Examples.ramp_value
              (Examples.state 0 0 0) (Examples.tex0 PSM_PSMT4 0 PSM_PSMCT32 0 3 1) 0 0)
    as [H _].
  - vm_compute. reflexivity.
  - left. vm_compute. reflexivity.
  - left. vm_compute. reflexivity.
  - exact ramp_u32.
  - apply Nat.leb_le. vm_compute. reflexivity.
  - apply Nat.leb_le. vm_compute. reflexivity.
  - apply Nat.leb_le. vm_compute. reflexivity.
  - apply (H 2%nat). lia.
Defined.

(** X12, at eight entries and AEM set. *)
Lemma Expand16_colors_witness :
  rd (Expand16 [0; 0x8000; 0x7fff; 0xffff; 1; 0x8001; 0x1f; 0x3e0] 0
        (repeat 0 8) 8 (Examples.texa 0x80 1 0x40)) 2 =
  RGBA_of_16 (Examples.texa 0x80 1 0x40)
    (rd [0; 0x8000; 0x7fff; 0xffff; 1; 0x8001; 0x1f; 0x3e0] (0 + 2)).
Proof.
  destruct (Expand16_colors [0; 0x8000; 0x7fff; 0xffff; 1; 0x8001; 0x1f; 0x3e0]
              (repeat 0 8) 0 8 (Examples.texa 0x80 1 0x40)) as (_ & H & _).
  - apply all_u16_Forall. vm_compute. reflexivity.
  - lia.
  - vm_compute. reflexivity.
  - rewrite repeat_length. lia.
  - apply (H 2%nat). lia.
Defined.

(** X13, at the source 0, 1, 2, ...: palette entry 32 * 1 + 2 is source entry
    32 * 1 + 8. *)
Lemma WriteCLUT_T16_I8_CSM1_order_witness :
  rd (WriteCLUT_T16_I8_CSM1 (Examples.ramp 256) (repeat 0 1024) 16) (16 + 32 * 1 + 2) =
  rd (Examples.ramp 256) (32 * 1 + T16_I8_order 2).
Proof.
  destruct (WriteCLUT_T16_I8_CSM1_order (Examples.ramp 256) (repeat 0 1024) 16)
    as (_ & H & _).
  - rewrite repeat_length. lia.
  - apply (H 1%nat 2%nat); lia.
Defined.

(** X14, at an 8-bit-index palette at column-select 2: group 14 does not fit
    and repeats group 13. *)
Lemma Write_Read32_CSM2_32_witness :
  rd (m_buff32
        (Read32 GSLocalMemory.m_psm_bpp
           (Write GSTables.clutTableT32I8 GSTables.clutTableT16I4
              Examples.ramp_block Examples.ramp_block Examples.ramp_block Examples.ramp_value
              (Examples.state 0 0 0) (Examples.tex0 PSM_PSMT8 0 PSM_PSMCT32 1 2 1) 0)
           (Examples.tex0 PSM_PSMT8 0 PSM_PSMCT32 1 2 1) 0)) (16 * 14 + 1) =
  wrap32 (Examples.ramp_value PSM_PSMCT32
            (CBP (Examples.tex0 PSM_PSMT8 0 PSM_PSMCT32 1 2 1)) (CBW 0)
            (Z.shiftl (COU 0) 4) (COV 0)
            (if (14 + Z.to_nat (Z.land (CSA (Examples.tex0 PSM_PSMT8 0 PSM_PSMCT32 1 2 1)) 15)
                 <=? 15)%nat
             then 16 * 14 + 1
             else 16 * (15 - Z.to_nat (Z.land (CSA (Examples.tex0 PSM_PSMT8 0 PSM_PSMCT32 1 2 1))
                                         15)) + 1)%nat).
Proof.
  destruct (Write_Read32_CSM2_32 GSLocalMemory.m_psm_bpp
              GSTables.clutTableT32I8 GSTables.clutTableT16I4
              Examples.ramp_block Examples.ramp_block Examples.ramp_block Examples.ramp_value
              (Examples.state 0 0 0) (Examples.tex0 PSM_PSMT8 0 PSM_PSMCT32 1 2 1) 0 0)
    as [_ H].
  - vm_compute. reflexivity.
  - left. vm_compute. reflexivity.
  - apply Nat.leb_le. vm_compute. reflexivity.
  - apply Nat.leb_le. vm_compute. reflexivity.
  - apply (H (or_introl eq_refl) 14%nat 1%nat); lia.
Defined.

(** X15, at an 8-bit-index 16-bit palette at column-select 17. *)
Lemma Write_Read32_CSM2_16_witness :
  rd (m_buff32
        (Read32 GSLocalMemory.m_psm_bpp
           (Write GSTables.clutTableT32I8 GSTables.clutTableT16I4
              Examples.ramp_block Examples.ramp_block Examples.ramp_block Examples.ramp_value
              (Examples.state 0 0 0) (Examples.tex0 PSM_PSMT8 0 PSM_PSMCT16 1 17 1) 0)
           (Examples.tex0 PSM_PSMT8 0 PSM_PSMCT16 1 17 1) (Examples.texa 0x80 1 0x40))) 200 =
  RGBA_of_16 (Examples.texa 0x80 1 0x40)
    (Examples.ramp_value (CPSM (Examples.tex0 PSM_PSMT8 0 PSM_PSMCT16 1 17 1))
       (CBP (Examples.tex0 PSM_PSMT8 0 PSM_PSMCT16 1 17 1)) (CBW 0)
       (Z.shiftl (COU 0) 4) (COV 0) 200).
Proof.
  apply (Write_Read32_CSM2_16 GSLocalMemory.m_psm_bpp
           GSTables.clutTableT32I8 GSTables.clutTableT16I4
           Examples.ramp_block Examples.ramp_block Examples.ramp_block Examples.ramp_value
           (Examples.state 0 0 0) (Examples.tex0 PSM_PSMT8 0 PSM_PSMCT16 1 17 1) 0
           (Examples.texa 0x80 1 0x40) 200).
  - vm_compute. reflexivity.
  - left. vm_compute. reflexivity.
  - apply Nat.leb_le. vm_compute. reflexivity.
  - apply Nat.leb_le. vm_compute. reflexivity.
  - split; vm_compute; [discriminate|reflexivity].
  - left. split; [left; vm_compute; reflexivity|lia].
Defined.

(** X16, at a 4-bit-index 16-bit palette at column-select 5. *)
Lemma Write_Read32_CSM1_16_witness :
  rd (m_buff32
        (Read32 GSLocalMemory.m_psm_bpp
           (Write GSTables.clutTableT32I8 GSTables.clutTableT16I4
              Examples.ramp_block Examples.ramp_block Examples.ramp_block Examples.ramp_value
              (Examples.state 0 0 0) (Examples.tex0 PSM_PSMT4 0 PSM_PSMCT16 0 5 1) 0)
           (Examples.tex0 PSM_PSMT4 0 PSM_PSMCT16 0 5 1) (Examples.texa 0x80 1 0x40))) 3 =
  RGBA_of_16 (Examples.texa 0x80 1 0x40)
    (rd (if CPSM (Examples.tex0 PSM_PSMT4 0 PSM_PSMCT16 0 5 1) =? PSM_PSMCT16
         then Examples.ramp_block (CBP (Examples.tex0 PSM_PSMT4 0 PSM_PSMCT16 0 5 1))
         else Examples.ramp_block (CBP (Examples.tex0 PSM_PSMT4 0 PSM_PSMCT16 0 5 1)))
        (Z.to_nat (GSTables.clutTableT16I4 (Z.of_nat 3)))).
Proof.
  destruct (Write_Read32_CSM1_16 GSLocalMemory.m_psm_bpp
              GSTables.clutTableT32I8 GSTables.clutTableT16I4
              Examples.ramp_block Examples.ramp_block Examples.ramp_block Examples.ramp_value
              (Examples.state 0 0 0) (Examples.tex0 PSM_PSMT4 0 PSM_PSMCT16 0 5 1) 0
              (Examples.texa 0x80 1 0x40)) as [_ H].
  - vm_compute. reflexivity.
  - left. vm_compute. reflexivity.
  - apply Nat.leb_le. vm_compute. reflexivity.
  - apply Nat.leb_le. vm_compute. reflexivity.
  - exact ramp_u16.
  - apply (H (or_introl eq_refl) 3%nat). lia.
Defined.

(** X21, at a 256-entry palette: the alpha of color 5 lies in the range. *)
Lemma GetAlphaMinMax32_range_witness :
  fst (fst (GetAlphaMinMax32 Examples.trbpp Examples.pal
              (Examples.stale (Examples.tex0 PSM_PSMT8 0 0 0 0 0) 0)))
  <= alpha_of (rd Examples.alphas 5)
  <= snd (fst (GetAlphaMinMax32 Examples.trbpp Examples.pal
                 (Examples.stale (Examples.tex0 PSM_PSMT8 0 0 0 0 0) 0))).
Proof.
  destruct (GetAlphaMinMax32_range Examples.trbpp Examples.pal
              (Examples.stale (Examples.tex0 PSM_PSMT8 0 0 0 0 0) 0)) as [H _].
  - reflexivity.
  - intros [H _]. vm_compute in H. discriminate H.
  - apply Nat.leb_le. vm_compute. reflexivity.
  - apply all_u32_Forall. vm_compute. reflexivity.
  - apply (H 5%nat). vm_compute. lia.
Defined.

(** X23, at a 24-bit palette with TA0 = 0x55 and AEM clear. *)
Lemma GetAlphaMinMax32_constant_witness :
  fst (GetAlphaMinMax32 Examples.trbpp Examples.pal
         (Examples.stale (Examples.tex0 PSM_PSMT8 0 PSM_PSMCT24 0 0 0)
            (Examples.texa 0x55 0 0x40))) =
  (TA0 (ReadState.TEXA (m_read (Examples.stale (Examples.tex0 PSM_PSMT8 0 PSM_PSMCT24 0 0 0)
                                  (Examples.texa 0x55 0 0x40)))),
   TA0 (ReadState.TEXA (m_read (Examples.stale (Examples.tex0 PSM_PSMT8 0 PSM_PSMCT24 0 0 0)
                                  (Examples.texa 0x55 0 0x40))))).
Proof.
  destruct (GetAlphaMinMax32_constant Examples.trbpp Examples.pal
              (Examples.stale (Examples.tex0 PSM_PSMT8 0 PSM_PSMCT24 0 0 0)
                 (Examples.texa 0x55 0 0x40)) []) as [H _].
  - reflexivity.
  - vm_compute. reflexivity.
  - vm_compute. reflexivity.
  - exact H.
Defined.

